(** * Leg-raise repetition counter: a model of [ProcessFrame] and its
      threshold profiles, with the properties of the specification.

    Source files: [process_frame_leg_raises.py] (class [ProcessFrame]) and
    [thresholds.py]; at the end of the definitions, the text helpers, the
    fallback table, the handlers of the buttons and the page routing of
    the triage dialogue [Home.py].

    Modelling conventions.
    - [time.perf_counter()] is a clock oracle: a call of [process] receives
      the readings it is going to obtain, [perf_counter_at fr k] being the
      result of the [k]-th read made during that call.  Readings and
      durations are whole milliseconds ([Z]), so the literals [5.0], [15.0],
      [1.0] and [1.5] seconds read [5000], [15000], [1000] and [1500].
      Sums and differences of readings are exact here and binary64 in the
      code: an accumulator that has been added to on several frames is
      the code's up to rounding only, and a comparison with a threshold
      agrees with the code's except within rounding distance of a tie.
    - [utils.find_angle] is not part of the sources; the four angles that
      [process] obtains from it are inputs of the frame, in whole degrees
      (so the [int(...)] conversions applied to them are the identity).
    - Drawing ([cv2], [draw_text], the mirrored frame) touches neither the
      tracker nor the returned sound and is left out, and with it the clock
      read of the HOLD overlay, which comes after every read whose result
      is stored or compared.  The banners alone are kept: the calls of
      [draw_text] that [_show_feedback] makes are recorded as data.
    - [state_tracker] is a record with one field per dictionary key; the two
      numpy arrays of shape [(4,)] are [Arr4] values indexed by [Idx4], the
      [int64] counters being unbounded integers: the [+= 1] of the code
      wraps at [INT64_MAX], the model's does not.  At the frame boundaries
      of a run from a new session a counter is 0 or at most
      [CNT_FRAME_THRESH], so that the two agree whenever
      [CNT_FRAME_THRESH] is below [INT64_MAX].
    - A method body is a computation in the monad [M]: it reads and writes
      the tracker, reads the clock, and may raise. *)

From Stdlib Require Import String Ascii.
From Stdlib Require Import ZArith List Bool Lia.
Import ListNotations.
Local Open Scope Z_scope.

(** ** Threshold profiles ([thresholds.py]) *)

Record Bands : Type := mkBands {
  NORMAL : Z * Z;
  TRANS : Z * Z;
  PASS : Z * Z
}.

Record Thresholds : Type := mkThresholds {
  HIP_KNEE_VERT : Bands;
  KNEE_LOCK_MAX : Z;
  TORSO_TILT_MAX : Z;
  REP_MIN_RANGE : Z;
  HOLD_SEC : Z;          (* milliseconds *)
  OFFSET_THRESH : Z;
  INACTIVE_THRESH : Z;   (* milliseconds *)
  CNT_FRAME_THRESH : Z
}.

Definition get_thresholds_leg_raises_beginner : Thresholds :=
  {| HIP_KNEE_VERT := {| NORMAL := (0, 15); TRANS := (16, 60); PASS := (61, 95) |};
     KNEE_LOCK_MAX := 20;
     TORSO_TILT_MAX := 25;
     REP_MIN_RANGE := 35;
     HOLD_SEC := 1000;
     OFFSET_THRESH := 35;
     INACTIVE_THRESH := 15000;
     CNT_FRAME_THRESH := 50 |}.

Definition get_thresholds_leg_raises_pro : Thresholds :=
  {| HIP_KNEE_VERT := {| NORMAL := (0, 20); TRANS := (21, 75); PASS := (76, 95) |};
     KNEE_LOCK_MAX := 15;
     TORSO_TILT_MAX := 20;
     REP_MIN_RANGE := 40;
     HOLD_SEC := 1500;
     OFFSET_THRESH := 35;
     INACTIVE_THRESH := 15000;
     CNT_FRAME_THRESH := 50 |}.

(** ** Session state ([self.state_tracker]) *)

(** The state tokens ['s1'], ['s2'], ['s3']; [None] is [option State]'s. *)
Inductive State : Type := s1 | s2 | s3.

Definition State_eqb (a b : State) : bool :=
  match a, b with
  | s1, s1 | s2, s2 | s3, s3 => true
  | _, _ => false
  end.

(** Python's [a == b] on two values that are a state token or [None]. *)
Definition opt_State_eqb (a b : option State) : bool :=
  match a, b with
  | Some x, Some y => State_eqb x y
  | None, None => true
  | _, _ => false
  end.

(** [x in seq] and [seq.count(x)]. *)
Definition mem (x : State) (seq : list State) : bool :=
  existsb (State_eqb x) seq.

Arguments mem : simpl never.

Fixpoint count (x : State) (seq : list State) : nat :=
  match seq with
  | [] => 0%nat
  | y :: seq' => if State_eqb y x then S (count x seq') else count x seq'
  end.

Fixpoint seq_eqb (a b : list State) : bool :=
  match a, b with
  | [], [] => true
  | x :: a', y :: b' => State_eqb x y && seq_eqb a' b'
  | _, _ => false
  end.

(** Indices [0..3] of [DISPLAY_TEXT], [COUNT_FRAMES] and [FEEDBACK_ID_MAP]:
    0 LOCK YOUR KNEE, 1 DON'T ARCH YOUR BACK, 2 RAISE HIGHER,
    3 CONTROL LOWERING. *)
Inductive Idx4 : Type := I0 | I1 | I2 | I3.

Record Arr4 (A : Type) : Type := mkArr4 { at0 : A; at1 : A; at2 : A; at3 : A }.
Arguments mkArr4 {A}.
Arguments at0 {A}.
Arguments at1 {A}.
Arguments at2 {A}.
Arguments at3 {A}.

Definition get4 {A} (i : Idx4) (a : Arr4 A) : A :=
  match i with I0 => at0 a | I1 => at1 a | I2 => at2 a | I3 => at3 a end.

(** [a[i] = v] *)
Definition set4 {A} (i : Idx4) (v : A) (a : Arr4 A) : Arr4 A :=
  match i with
  | I0 => mkArr4 v (at1 a) (at2 a) (at3 a)
  | I1 => mkArr4 (at0 a) v (at2 a) (at3 a)
  | I2 => mkArr4 (at0 a) (at1 a) v (at3 a)
  | I3 => mkArr4 (at0 a) (at1 a) (at2 a) v
  end.

(** [np.full((4,), v)], also the result of [a[:] = v]. *)
Definition full4 {A} (v : A) : Arr4 A := mkArr4 v v v v.

Definition map4 {A B} (f : A -> B) (a : Arr4 A) : Arr4 B :=
  mkArr4 (f (at0 a)) (f (at1 a)) (f (at2 a)) (f (at3 a)).

(** [a[mask] = f(a[mask])]: elementwise update where the mask holds. *)
Definition where4 {A} (mask : Arr4 bool) (f : A -> A) (a : Arr4 A) : Arr4 A :=
  mkArr4 (if at0 mask then f (at0 a) else at0 a)
         (if at1 mask then f (at1 a) else at1 a)
         (if at2 mask then f (at2 a) else at2 a)
         (if at3 mask then f (at3 a) else at3 a).

Record Tracker : Type := mkTracker {
  state_seq : list State;
  prev_state : option State;
  curr_state : option State;
  s3_enter_time : option Z;
  s3_hold_ok : bool;
  rep_min_angle : option Z;
  rep_max_angle : option Z;
  start_inactive_time : Z;
  INACTIVE_TIME : Z;
  start_inactive_time_front : Z;
  INACTIVE_TIME_FRONT : Z;
  DISPLAY_TEXT : Arr4 bool;
  COUNT_FRAMES : Arr4 Z;
  INCORRECT_POSTURE : bool;
  CORRECT_COUNT : Z;
  INCORRECT_COUNT : Z
}.

Definition set_state_seq (v : list State) (tr : Tracker) : Tracker :=
  {| state_seq := v; prev_state := prev_state tr;
     curr_state := curr_state tr; s3_enter_time := s3_enter_time tr;
     s3_hold_ok := s3_hold_ok tr; rep_min_angle := rep_min_angle tr;
     rep_max_angle := rep_max_angle tr;
     start_inactive_time := start_inactive_time tr;
     INACTIVE_TIME := INACTIVE_TIME tr;
     start_inactive_time_front := start_inactive_time_front tr;
     INACTIVE_TIME_FRONT := INACTIVE_TIME_FRONT tr;
     DISPLAY_TEXT := DISPLAY_TEXT tr; COUNT_FRAMES := COUNT_FRAMES tr;
     INCORRECT_POSTURE := INCORRECT_POSTURE tr;
     CORRECT_COUNT := CORRECT_COUNT tr;
     INCORRECT_COUNT := INCORRECT_COUNT tr |}.

Definition set_prev_state (v : option State) (tr : Tracker) : Tracker :=
  {| state_seq := state_seq tr; prev_state := v; curr_state := curr_state tr;
     s3_enter_time := s3_enter_time tr; s3_hold_ok := s3_hold_ok tr;
     rep_min_angle := rep_min_angle tr; rep_max_angle := rep_max_angle tr;
     start_inactive_time := start_inactive_time tr;
     INACTIVE_TIME := INACTIVE_TIME tr;
     start_inactive_time_front := start_inactive_time_front tr;
     INACTIVE_TIME_FRONT := INACTIVE_TIME_FRONT tr;
     DISPLAY_TEXT := DISPLAY_TEXT tr; COUNT_FRAMES := COUNT_FRAMES tr;
     INCORRECT_POSTURE := INCORRECT_POSTURE tr;
     CORRECT_COUNT := CORRECT_COUNT tr;
     INCORRECT_COUNT := INCORRECT_COUNT tr |}.

Definition set_curr_state (v : option State) (tr : Tracker) : Tracker :=
  {| state_seq := state_seq tr; prev_state := prev_state tr; curr_state := v;
     s3_enter_time := s3_enter_time tr; s3_hold_ok := s3_hold_ok tr;
     rep_min_angle := rep_min_angle tr; rep_max_angle := rep_max_angle tr;
     start_inactive_time := start_inactive_time tr;
     INACTIVE_TIME := INACTIVE_TIME tr;
     start_inactive_time_front := start_inactive_time_front tr;
     INACTIVE_TIME_FRONT := INACTIVE_TIME_FRONT tr;
     DISPLAY_TEXT := DISPLAY_TEXT tr; COUNT_FRAMES := COUNT_FRAMES tr;
     INCORRECT_POSTURE := INCORRECT_POSTURE tr;
     CORRECT_COUNT := CORRECT_COUNT tr;
     INCORRECT_COUNT := INCORRECT_COUNT tr |}.

Definition set_s3_enter_time (v : option Z) (tr : Tracker) : Tracker :=
  {| state_seq := state_seq tr; prev_state := prev_state tr;
     curr_state := curr_state tr; s3_enter_time := v;
     s3_hold_ok := s3_hold_ok tr; rep_min_angle := rep_min_angle tr;
     rep_max_angle := rep_max_angle tr;
     start_inactive_time := start_inactive_time tr;
     INACTIVE_TIME := INACTIVE_TIME tr;
     start_inactive_time_front := start_inactive_time_front tr;
     INACTIVE_TIME_FRONT := INACTIVE_TIME_FRONT tr;
     DISPLAY_TEXT := DISPLAY_TEXT tr; COUNT_FRAMES := COUNT_FRAMES tr;
     INCORRECT_POSTURE := INCORRECT_POSTURE tr;
     CORRECT_COUNT := CORRECT_COUNT tr;
     INCORRECT_COUNT := INCORRECT_COUNT tr |}.

Definition set_s3_hold_ok (v : bool) (tr : Tracker) : Tracker :=
  {| state_seq := state_seq tr; prev_state := prev_state tr;
     curr_state := curr_state tr; s3_enter_time := s3_enter_time tr;
     s3_hold_ok := v; rep_min_angle := rep_min_angle tr;
     rep_max_angle := rep_max_angle tr;
     start_inactive_time := start_inactive_time tr;
     INACTIVE_TIME := INACTIVE_TIME tr;
     start_inactive_time_front := start_inactive_time_front tr;
     INACTIVE_TIME_FRONT := INACTIVE_TIME_FRONT tr;
     DISPLAY_TEXT := DISPLAY_TEXT tr; COUNT_FRAMES := COUNT_FRAMES tr;
     INCORRECT_POSTURE := INCORRECT_POSTURE tr;
     CORRECT_COUNT := CORRECT_COUNT tr;
     INCORRECT_COUNT := INCORRECT_COUNT tr |}.

Definition set_rep_min_angle (v : option Z) (tr : Tracker) : Tracker :=
  {| state_seq := state_seq tr; prev_state := prev_state tr;
     curr_state := curr_state tr; s3_enter_time := s3_enter_time tr;
     s3_hold_ok := s3_hold_ok tr; rep_min_angle := v;
     rep_max_angle := rep_max_angle tr;
     start_inactive_time := start_inactive_time tr;
     INACTIVE_TIME := INACTIVE_TIME tr;
     start_inactive_time_front := start_inactive_time_front tr;
     INACTIVE_TIME_FRONT := INACTIVE_TIME_FRONT tr;
     DISPLAY_TEXT := DISPLAY_TEXT tr; COUNT_FRAMES := COUNT_FRAMES tr;
     INCORRECT_POSTURE := INCORRECT_POSTURE tr;
     CORRECT_COUNT := CORRECT_COUNT tr;
     INCORRECT_COUNT := INCORRECT_COUNT tr |}.

Definition set_rep_max_angle (v : option Z) (tr : Tracker) : Tracker :=
  {| state_seq := state_seq tr; prev_state := prev_state tr;
     curr_state := curr_state tr; s3_enter_time := s3_enter_time tr;
     s3_hold_ok := s3_hold_ok tr; rep_min_angle := rep_min_angle tr;
     rep_max_angle := v; start_inactive_time := start_inactive_time tr;
     INACTIVE_TIME := INACTIVE_TIME tr;
     start_inactive_time_front := start_inactive_time_front tr;
     INACTIVE_TIME_FRONT := INACTIVE_TIME_FRONT tr;
     DISPLAY_TEXT := DISPLAY_TEXT tr; COUNT_FRAMES := COUNT_FRAMES tr;
     INCORRECT_POSTURE := INCORRECT_POSTURE tr;
     CORRECT_COUNT := CORRECT_COUNT tr;
     INCORRECT_COUNT := INCORRECT_COUNT tr |}.

Definition set_start_inactive_time (v : Z) (tr : Tracker) : Tracker :=
  {| state_seq := state_seq tr; prev_state := prev_state tr;
     curr_state := curr_state tr; s3_enter_time := s3_enter_time tr;
     s3_hold_ok := s3_hold_ok tr; rep_min_angle := rep_min_angle tr;
     rep_max_angle := rep_max_angle tr; start_inactive_time := v;
     INACTIVE_TIME := INACTIVE_TIME tr;
     start_inactive_time_front := start_inactive_time_front tr;
     INACTIVE_TIME_FRONT := INACTIVE_TIME_FRONT tr;
     DISPLAY_TEXT := DISPLAY_TEXT tr; COUNT_FRAMES := COUNT_FRAMES tr;
     INCORRECT_POSTURE := INCORRECT_POSTURE tr;
     CORRECT_COUNT := CORRECT_COUNT tr;
     INCORRECT_COUNT := INCORRECT_COUNT tr |}.

Definition set_INACTIVE_TIME (v : Z) (tr : Tracker) : Tracker :=
  {| state_seq := state_seq tr; prev_state := prev_state tr;
     curr_state := curr_state tr; s3_enter_time := s3_enter_time tr;
     s3_hold_ok := s3_hold_ok tr; rep_min_angle := rep_min_angle tr;
     rep_max_angle := rep_max_angle tr;
     start_inactive_time := start_inactive_time tr; INACTIVE_TIME := v;
     start_inactive_time_front := start_inactive_time_front tr;
     INACTIVE_TIME_FRONT := INACTIVE_TIME_FRONT tr;
     DISPLAY_TEXT := DISPLAY_TEXT tr; COUNT_FRAMES := COUNT_FRAMES tr;
     INCORRECT_POSTURE := INCORRECT_POSTURE tr;
     CORRECT_COUNT := CORRECT_COUNT tr;
     INCORRECT_COUNT := INCORRECT_COUNT tr |}.

Definition set_start_inactive_time_front (v : Z) (tr : Tracker) : Tracker :=
  {| state_seq := state_seq tr; prev_state := prev_state tr;
     curr_state := curr_state tr; s3_enter_time := s3_enter_time tr;
     s3_hold_ok := s3_hold_ok tr; rep_min_angle := rep_min_angle tr;
     rep_max_angle := rep_max_angle tr;
     start_inactive_time := start_inactive_time tr;
     INACTIVE_TIME := INACTIVE_TIME tr; start_inactive_time_front := v;
     INACTIVE_TIME_FRONT := INACTIVE_TIME_FRONT tr;
     DISPLAY_TEXT := DISPLAY_TEXT tr; COUNT_FRAMES := COUNT_FRAMES tr;
     INCORRECT_POSTURE := INCORRECT_POSTURE tr;
     CORRECT_COUNT := CORRECT_COUNT tr;
     INCORRECT_COUNT := INCORRECT_COUNT tr |}.

Definition set_INACTIVE_TIME_FRONT (v : Z) (tr : Tracker) : Tracker :=
  {| state_seq := state_seq tr; prev_state := prev_state tr;
     curr_state := curr_state tr; s3_enter_time := s3_enter_time tr;
     s3_hold_ok := s3_hold_ok tr; rep_min_angle := rep_min_angle tr;
     rep_max_angle := rep_max_angle tr;
     start_inactive_time := start_inactive_time tr;
     INACTIVE_TIME := INACTIVE_TIME tr;
     start_inactive_time_front := start_inactive_time_front tr;
     INACTIVE_TIME_FRONT := v; DISPLAY_TEXT := DISPLAY_TEXT tr;
     COUNT_FRAMES := COUNT_FRAMES tr;
     INCORRECT_POSTURE := INCORRECT_POSTURE tr;
     CORRECT_COUNT := CORRECT_COUNT tr;
     INCORRECT_COUNT := INCORRECT_COUNT tr |}.

Definition set_DISPLAY_TEXT (v : Arr4 bool) (tr : Tracker) : Tracker :=
  {| state_seq := state_seq tr; prev_state := prev_state tr;
     curr_state := curr_state tr; s3_enter_time := s3_enter_time tr;
     s3_hold_ok := s3_hold_ok tr; rep_min_angle := rep_min_angle tr;
     rep_max_angle := rep_max_angle tr;
     start_inactive_time := start_inactive_time tr;
     INACTIVE_TIME := INACTIVE_TIME tr;
     start_inactive_time_front := start_inactive_time_front tr;
     INACTIVE_TIME_FRONT := INACTIVE_TIME_FRONT tr; DISPLAY_TEXT := v;
     COUNT_FRAMES := COUNT_FRAMES tr;
     INCORRECT_POSTURE := INCORRECT_POSTURE tr;
     CORRECT_COUNT := CORRECT_COUNT tr;
     INCORRECT_COUNT := INCORRECT_COUNT tr |}.

Definition set_COUNT_FRAMES (v : Arr4 Z) (tr : Tracker) : Tracker :=
  {| state_seq := state_seq tr; prev_state := prev_state tr;
     curr_state := curr_state tr; s3_enter_time := s3_enter_time tr;
     s3_hold_ok := s3_hold_ok tr; rep_min_angle := rep_min_angle tr;
     rep_max_angle := rep_max_angle tr;
     start_inactive_time := start_inactive_time tr;
     INACTIVE_TIME := INACTIVE_TIME tr;
     start_inactive_time_front := start_inactive_time_front tr;
     INACTIVE_TIME_FRONT := INACTIVE_TIME_FRONT tr;
     DISPLAY_TEXT := DISPLAY_TEXT tr; COUNT_FRAMES := v;
     INCORRECT_POSTURE := INCORRECT_POSTURE tr;
     CORRECT_COUNT := CORRECT_COUNT tr;
     INCORRECT_COUNT := INCORRECT_COUNT tr |}.

Definition set_INCORRECT_POSTURE (v : bool) (tr : Tracker) : Tracker :=
  {| state_seq := state_seq tr; prev_state := prev_state tr;
     curr_state := curr_state tr; s3_enter_time := s3_enter_time tr;
     s3_hold_ok := s3_hold_ok tr; rep_min_angle := rep_min_angle tr;
     rep_max_angle := rep_max_angle tr;
     start_inactive_time := start_inactive_time tr;
     INACTIVE_TIME := INACTIVE_TIME tr;
     start_inactive_time_front := start_inactive_time_front tr;
     INACTIVE_TIME_FRONT := INACTIVE_TIME_FRONT tr;
     DISPLAY_TEXT := DISPLAY_TEXT tr; COUNT_FRAMES := COUNT_FRAMES tr;
     INCORRECT_POSTURE := v; CORRECT_COUNT := CORRECT_COUNT tr;
     INCORRECT_COUNT := INCORRECT_COUNT tr |}.

Definition set_CORRECT_COUNT (v : Z) (tr : Tracker) : Tracker :=
  {| state_seq := state_seq tr; prev_state := prev_state tr;
     curr_state := curr_state tr; s3_enter_time := s3_enter_time tr;
     s3_hold_ok := s3_hold_ok tr; rep_min_angle := rep_min_angle tr;
     rep_max_angle := rep_max_angle tr;
     start_inactive_time := start_inactive_time tr;
     INACTIVE_TIME := INACTIVE_TIME tr;
     start_inactive_time_front := start_inactive_time_front tr;
     INACTIVE_TIME_FRONT := INACTIVE_TIME_FRONT tr;
     DISPLAY_TEXT := DISPLAY_TEXT tr; COUNT_FRAMES := COUNT_FRAMES tr;
     INCORRECT_POSTURE := INCORRECT_POSTURE tr; CORRECT_COUNT := v;
     INCORRECT_COUNT := INCORRECT_COUNT tr |}.

Definition set_INCORRECT_COUNT (v : Z) (tr : Tracker) : Tracker :=
  {| state_seq := state_seq tr; prev_state := prev_state tr;
     curr_state := curr_state tr; s3_enter_time := s3_enter_time tr;
     s3_hold_ok := s3_hold_ok tr; rep_min_angle := rep_min_angle tr;
     rep_max_angle := rep_max_angle tr;
     start_inactive_time := start_inactive_time tr;
     INACTIVE_TIME := INACTIVE_TIME tr;
     start_inactive_time_front := start_inactive_time_front tr;
     INACTIVE_TIME_FRONT := INACTIVE_TIME_FRONT tr;
     DISPLAY_TEXT := DISPLAY_TEXT tr; COUNT_FRAMES := COUNT_FRAMES tr;
     INCORRECT_POSTURE := INCORRECT_POSTURE tr;
     CORRECT_COUNT := CORRECT_COUNT tr; INCORRECT_COUNT := v |}.

(** [ProcessFrame.__init__]: the tracker of a new session; [t0] and [t1] are
    the two clock readings taken while the dictionary is built. *)
Definition init_tracker (t0 t1 : Z) : Tracker :=
  {| state_seq := [];
     prev_state := None;
     curr_state := None;
     s3_enter_time := None;
     s3_hold_ok := false;
     rep_min_angle := None;
     rep_max_angle := None;
     start_inactive_time := t0;
     INACTIVE_TIME := 0;
     start_inactive_time_front := t1;
     INACTIVE_TIME_FRONT := 0;
     DISPLAY_TEXT := full4 false;
     COUNT_FRAMES := full4 0;
     INCORRECT_POSTURE := false;
     CORRECT_COUNT := 0;
     INCORRECT_COUNT := 0 |}.

(** ** What a call of [process] receives and returns *)

Record Frame : Type := mkFrame {
  pose_landmarks : bool;        (* [keypoints.pose_landmarks] is present *)
  offset_angle : Z;             (* [find_angle(l_sh, r_sh, nose_coord)] *)
  hip_angle : Z;                (* [find_angle(knee, sh, hip)] *)
  knee_internal : Z;            (* [find_angle(hip, ankle, knee)] *)
  torso_tilt : Z;               (* [find_angle(sh, (hip[0], 0), hip)] *)
  perf_counter_at : nat -> Z    (* the clock readings of this call *)
}.

(** [play_sound]: ['incorrect'], ['reset_counters'] or [str(CORRECT_COUNT)];
    [None] is [option Sound]'s. *)
Inductive Sound : Type :=
  | incorrect
  | reset_counters
  | count_str (n : Z).

(** ** A monad for the method bodies: tracker state, clock reads, exceptions *)

Inductive PyError : Type := TypeError.

Inductive Outcome (A : Type) : Type :=
  | Returns (a : A) (reads : nat) (tr : Tracker)
  | Raises (e : PyError).
Arguments Returns {A}.
Arguments Raises {A}.

(** A computation is given the clock of the call, the number of reads made
    so far and the tracker. *)
Definition M (A : Type) : Type := (nat -> Z) -> nat -> Tracker -> Outcome A.

Definition ret {A} (a : A) : M A := fun _ n tr => Returns a n tr.

Definition bind {A B} (c : M A) (k : A -> M B) : M B :=
  fun clk n tr =>
    match c clk n tr with
    | Returns a n' tr' => k a clk n' tr'
    | Raises e => Raises e
    end.

Definition gets {A} (f : Tracker -> A) : M A := fun _ n tr => Returns (f tr) n tr.

Definition modify (f : Tracker -> Tracker) : M unit := fun _ n tr => Returns tt n (f tr).

Definition raise {A} (e : PyError) : M A := fun _ _ _ => Raises e.

(** [time.perf_counter()] *)
Definition perf_counter : M Z := fun clk n tr => Returns (clk n) (S n) tr.

Declare Scope py_scope.
Delimit Scope py_scope with py.
Notation "x <- c ;; k" := (bind c (fun x => k))
  (at level 61, c at next level, right associativity) : py_scope.
Notation "c ;; k" := (bind c (fun _ => k))
  (at level 61, right associativity) : py_scope.
Local Open Scope py_scope.

(** ** The helpers of [ProcessFrame] *)

Definition in_band (band : Z * Z) (a : Z) : bool :=
  (fst band <=? a) && (a <=? snd band).

Definition _get_state (th : Thresholds) (hip_flex_vertical_angle : Z) : option State :=
  let band := HIP_KNEE_VERT th in
  if in_band (NORMAL band) hip_flex_vertical_angle then Some s1
  else if in_band (TRANS band) hip_flex_vertical_angle then Some s2
  else if in_band (PASS band) hip_flex_vertical_angle then Some s3
  else None.

(** The list [state_seq] after [_update_state_sequence(state)]. *)
Definition next_state_seq (state : option State) (seq : list State) : list State :=
  match state with
  | Some s2 =>
      if (negb (mem s3 seq) && (count s2 seq =? 0)%nat)
         || (mem s3 seq && (count s2 seq =? 1)%nat)
      then seq ++ [s2] else seq
  | Some s3 =>
      if negb (mem s3 seq) && mem s2 seq then seq ++ [s3] else seq
  | _ => seq
  end.

Definition _update_state_sequence (state : option State) : M unit :=
  modify (fun tr => set_state_seq (next_state_seq state (state_seq tr)) tr).

Definition _reset_live_flags : M unit :=
  modify (set_DISPLAY_TEXT (full4 false)) ;;
  modify (set_COUNT_FRAMES (full4 0)) ;;
  modify (set_INCORRECT_POSTURE false) ;;
  modify (set_s3_enter_time None) ;;
  modify (set_s3_hold_ok false) ;;
  modify (set_rep_min_angle None) ;;
  modify (set_rep_max_angle None).

Definition _hard_reset_all : M unit :=
  modify (set_CORRECT_COUNT 0) ;;
  modify (set_INCORRECT_COUNT 0) ;;
  modify (set_state_seq []) ;;
  modify (set_prev_state None) ;;
  modify (set_curr_state None) ;;
  _reset_live_flags ;;
  modify (set_INACTIVE_TIME 0) ;;
  t <- perf_counter ;;
  modify (set_start_inactive_time t) ;;
  modify (set_INACTIVE_TIME_FRONT 0) ;;
  t' <- perf_counter ;;
  modify (set_start_inactive_time_front t').

(** ** [process], block by block *)

(** No landmarks: side-view inactivity accounting only. *)
Definition no_landmarks (th : Thresholds) : M (option Sound) :=
  end_time <- perf_counter ;;
  modify (fun tr => set_INACTIVE_TIME
                      (INACTIVE_TIME tr + (end_time - start_inactive_time tr)) tr) ;;
  modify (set_start_inactive_time end_time) ;;
  acc <- gets INACTIVE_TIME ;;
  if INACTIVE_THRESH th <=? acc
  then _hard_reset_all ;; ret (Some reset_counters)
  else ret None.

(** [offset_angle > OFFSET_THRESH]: warn, pause the rep logic. *)
Definition not_aligned (th : Thresholds) : M (option Sound) :=
  end_time <- perf_counter ;;
  modify (fun tr => set_INACTIVE_TIME_FRONT
                      (INACTIVE_TIME_FRONT tr + (end_time - start_inactive_time_front tr)) tr) ;;
  modify (set_start_inactive_time_front end_time) ;;
  acc <- gets INACTIVE_TIME_FRONT ;;
  play_sound <- (if INACTIVE_THRESH th <=? acc
                 then _hard_reset_all ;; ret (Some reset_counters)
                 else ret None) ;;
  modify (set_INACTIVE_TIME 0) ;;
  t <- perf_counter ;;
  modify (set_start_inactive_time t) ;;
  ret play_sound.

(** Per-rep minimum and maximum of the hip angle, once [s2] has started.
    With [rep_min_angle] set and [rep_max_angle] still [None], Python's
    [max(None, ang)] raises. *)
Definition track_range (ang : Z) : M unit :=
  seq <- gets state_seq ;;
  if mem s2 seq then
    lo <- gets rep_min_angle ;;
    match lo with
    | None =>
        modify (set_rep_min_angle (Some ang)) ;;
        modify (set_rep_max_angle (Some ang))
    | Some lo =>
        modify (set_rep_min_angle (Some (Z.min lo ang))) ;;
        hi <- gets rep_max_angle ;;
        match hi with
        | Some hi => modify (set_rep_max_angle (Some (Z.max hi ang)))
        | None => raise TypeError
        end
    end
  else ret tt.

(** [TARGET_HOLD = 5.0] seconds, a local constant of [process]. *)
Definition TARGET_HOLD : Z := 5000.

Definition hold_timing (current_state : option State) : M unit :=
  if opt_State_eqb current_state (Some s3) then
    enter <- gets s3_enter_time ;;
    match enter with
    | None =>
        t <- perf_counter ;;
        modify (set_s3_enter_time (Some t))
    | Some t0 =>
        t <- perf_counter ;;
        if TARGET_HOLD <=? t - t0 then modify (set_s3_hold_ok true) else ret tt
    end
  else modify (set_s3_enter_time None).

Definition suppress_form_cues (current_state : option State) : M unit :=
  if opt_State_eqb current_state (Some s3) then
    modify (fun tr => set_DISPLAY_TEXT (set4 I0 false (DISPLAY_TEXT tr)) tr) ;;
    modify (fun tr => set_COUNT_FRAMES (set4 I0 0 (COUNT_FRAMES tr)) tr) ;;
    modify (fun tr => set_DISPLAY_TEXT (set4 I1 false (DISPLAY_TEXT tr)) tr) ;;
    modify (fun tr => set_COUNT_FRAMES (set4 I1 0 (COUNT_FRAMES tr)) tr)
  else ret tt.

(** The branch [current_state == 's1'], first part: a drop from ['s3']
    straight to ['s1'] is a form error. *)
Definition drop_check : M unit :=
  prev <- gets prev_state ;;
  if opt_State_eqb prev (Some s3) then
    modify (fun tr => set_DISPLAY_TEXT (set4 I3 true (DISPLAY_TEXT tr)) tr) ;;
    modify (set_INCORRECT_POSTURE true)
  else ret tt.

(** Second part: the outcome of the rep attempt. *)
Definition verdict (th : Thresholds) : M (option Sound) :=
  seq <- gets state_seq ;;
  let have_full_seq := (length seq =? 3)%nat && seq_eqb seq [s2; s3; s2] in
  lo <- gets rep_min_angle ;;
  hi <- gets rep_max_angle ;;
  let range_ok :=
    match lo, hi with
    | Some lo, Some hi => REP_MIN_RANGE th <=? hi - lo
    | _, _ => false
    end in
  bad <- gets INCORRECT_POSTURE ;;
  hold <- gets s3_hold_ok ;;
  if have_full_seq && negb bad && hold && range_ok then
    modify (fun tr => set_CORRECT_COUNT (CORRECT_COUNT tr + 1) tr) ;;
    n <- gets CORRECT_COUNT ;;
    ret (Some (count_str n))
  else
    (if mem s2 seq && negb (mem s3 seq) then
       modify (fun tr => set_DISPLAY_TEXT (set4 I2 true (DISPLAY_TEXT tr)) tr)
     else ret tt) ;;
    modify (fun tr => set_INCORRECT_COUNT (INCORRECT_COUNT tr + 1) tr) ;;
    ret (Some incorrect).

Definition decide_rep (th : Thresholds) : M (option Sound) :=
  drop_check ;;
  verdict th.

(** The per-rep state is reset whatever the verdict. *)
Definition reset_per_rep : M unit :=
  modify (set_state_seq []) ;;
  _reset_live_flags.

(** The whole branch [current_state == 's1']. *)
Definition resolve_rep (th : Thresholds) : M (option Sound) :=
  play_sound <- decide_rep th ;;
  reset_per_rep ;;
  ret play_sound.

(** The [else] branch: live feedback while moving or at the top. *)
Definition live_feedback (th : Thresholds) (current_state : option State)
    (hip_vertical knee_flexion torso_tilt : Z) : M unit :=
  (if negb (opt_State_eqb current_state (Some s3)) && (KNEE_LOCK_MAX th <? knee_flexion) then
     modify (fun tr => set_DISPLAY_TEXT (set4 I0 true (DISPLAY_TEXT tr)) tr) ;;
     modify (set_INCORRECT_POSTURE true)
   else ret tt) ;;
  (if negb (opt_State_eqb current_state (Some s3)) && (TORSO_TILT_MAX th <? torso_tilt) then
     modify (fun tr => set_DISPLAY_TEXT (set4 I1 true (DISPLAY_TEXT tr)) tr) ;;
     modify (set_INCORRECT_POSTURE true)
   else ret tt) ;;
  let pass_lo := fst (PASS (HIP_KNEE_VERT th)) in
  if opt_State_eqb current_state (Some s2) && (hip_vertical <? pass_lo) then
    modify (fun tr => set_DISPLAY_TEXT (set4 I2 true (DISPLAY_TEXT tr)) tr)
  else ret tt.

(** Range and hold tracking, counting and feedback for the classified state:
    from [self.state_tracker['curr_state'] = current_state] to the end of the
    [if]/[else] on ['s1']. *)
Definition classify (th : Thresholds) (current_state : option State)
    (hip_vertical knee_flexion torso_tilt : Z) : M (option Sound) :=
  modify (set_curr_state current_state) ;;
  _update_state_sequence current_state ;;
  track_range hip_vertical ;;
  hold_timing current_state ;;
  suppress_form_cues current_state ;;
  if opt_State_eqb current_state (Some s1) then resolve_rep th
  else
    live_feedback th current_state hip_vertical knee_flexion torso_tilt ;;
    ret None.

(** Side-view inactivity; a hard reset replaces the sound chosen so far. *)
Definition side_inactivity (th : Thresholds) (play_sound : option Sound)
    : M (option Sound) :=
  curr <- gets curr_state ;;
  prev <- gets prev_state ;;
  if opt_State_eqb curr prev then
    end_time <- perf_counter ;;
    modify (fun tr => set_INACTIVE_TIME
                        (INACTIVE_TIME tr + (end_time - start_inactive_time tr)) tr) ;;
    modify (set_start_inactive_time end_time) ;;
    acc <- gets INACTIVE_TIME ;;
    if INACTIVE_THRESH th <=? acc
    then _hard_reset_all ;; ret (Some reset_counters)
    else ret play_sound
  else
    t <- perf_counter ;;
    modify (set_start_inactive_time t) ;;
    modify (set_INACTIVE_TIME 0) ;;
    ret play_sound.

(** Banner lifetimes: count the frames of every shown banner, drop the ones
    past [CNT_FRAME_THRESH]. *)
Definition banner_ttl (th : Thresholds) : M unit :=
  modify (fun tr => set_COUNT_FRAMES
                      (where4 (DISPLAY_TEXT tr) (fun c => c + 1) (COUNT_FRAMES tr)) tr) ;;
  let ttl := CNT_FRAME_THRESH th in
  mask <- gets (fun tr => map4 (fun c => ttl <? c) (COUNT_FRAMES tr)) ;;
  modify (fun tr => set_DISPLAY_TEXT (where4 mask (fun _ => false) (DISPLAY_TEXT tr)) tr) ;;
  modify (fun tr => set_COUNT_FRAMES (where4 mask (fun _ => 0) (COUNT_FRAMES tr)) tr).

(** The end of an aligned call: watchdog, banner lifetimes, and the
    frame's state committed as [prev_state]. *)
Definition watch_and_sweep (th : Thresholds) (current_state : option State)
    (play_sound : option Sound) : M (option Sound) :=
  play_sound <- side_inactivity th play_sound ;;
  banner_ttl th ;;
  modify (set_prev_state current_state) ;;
  ret play_sound.

(** Landmarks present and camera aligned. *)
Definition aligned (th : Thresholds) (fr : Frame) : M (option Sound) :=
  modify (set_INACTIVE_TIME_FRONT 0) ;;
  t <- perf_counter ;;
  modify (set_start_inactive_time_front t) ;;
  let hip_vertical := 180 - hip_angle fr in
  let knee_flexion := Z.max 0 (180 - knee_internal fr) in
  let current_state := _get_state th hip_vertical in
  play_sound <- classify th current_state hip_vertical knee_flexion (torso_tilt fr) ;;
  watch_and_sweep th current_state play_sound.

Definition process (th : Thresholds) (fr : Frame) : M (option Sound) :=
  if negb (pose_landmarks fr) then no_landmarks th
  else if OFFSET_THRESH th <? offset_angle fr then not_aligned th
  else aligned th fr.

(** ** Calls and runs *)

(** One call of [process] on tracker [tr]: the tracker it leaves and the
    sound it returns, or [None] when the call raises. *)
Definition call (th : Thresholds) (tr : Tracker) (fr : Frame)
    : option (Tracker * option Sound) :=
  match process th fr (perf_counter_at fr) 0%nat tr with
  | Returns play_sound _ tr' => Some (tr', play_sound)
  | Raises _ => None
  end.

(** The frames of a stream, one call each; the sounds come out in order. *)
Fixpoint run (th : Thresholds) (tr : Tracker) (frames : list Frame)
    : option (Tracker * list (option Sound)) :=
  match frames with
  | [] => Some (tr, [])
  | fr :: rest =>
      match call th tr fr with
      | Some (tr', sound) =>
          match run th tr' rest with
          | Some (tr'', sounds) => Some (tr'', sound :: sounds)
          | None => None
          end
      | None => None
      end
  end.

(** The tracker a computation leaves, when it returns. *)
Definition tracker_after {A} (c : M A) (clk : nat -> Z) (n : nat) (tr : Tracker)
    : option Tracker :=
  match c clk n tr with
  | Returns _ _ tr' => Some tr'
  | Raises _ => None
  end.

(** ** Frames *)

(** The hip-flexion angle of a frame, the angle that drives the states. *)
Definition hip_vertical (fr : Frame) : Z := 180 - hip_angle fr.

(** A frame with landmarks, the camera aligned, the knee straight and the
    torso upright, whose hip-flexion angle is [hv]; every clock read of the
    call gives [t]. *)
Definition frame_at (hv t : Z) : Frame :=
  mkFrame true 0 (180 - hv) 180 0 (fun _ => t).

(** A frame with landmarks taken from the front (offset angle 50), the leg
    at rest; every clock read of the call gives [t]. *)
Definition misaligned_at (t : Z) : Frame :=
  mkFrame true 50 175 180 0 (fun _ => t).

(** A frame with landmarks and the camera aligned whose hip angle is
    classified [st]. *)
Definition classified (th : Thresholds) (fr : Frame) (st : option State) : Prop :=
  pose_landmarks fr = true
  /\ offset_angle fr <= OFFSET_THRESH th
  /\ _get_state th (180 - hip_angle fr) = st.

(** A frame that reaches the banner sweep: landmarks found, camera aligned. *)
Definition sweeping (th : Thresholds) (fr : Frame) : Prop :=
  pose_landmarks fr = true /\ offset_angle fr <= OFFSET_THRESH th.

(** The number of clock reads that the classification of a frame in state
    [st] makes: one, for the hold timer, in ['s3']. *)
Definition hold_reads (st : option State) : nat :=
  if opt_State_eqb st (Some s3) then 1%nat else 0%nat.

(** The clock reading that the hold timer takes on a frame classified
    ['s3']: the second read of the call. *)
Definition hold_read (fr : Frame) : Z := perf_counter_at fr 1%nat.

(** The clock reading of the side-view watchdog on an aligned frame in
    state [st]: it comes after the hold timer's, if any. *)
Definition side_read (st : option State) (fr : Frame) : Z :=
  perf_counter_at fr (S (hold_reads st)).

(** The tracker on which the classification of an aligned frame starts. *)
Definition front_reset (fr : Frame) (tr : Tracker) : Tracker :=
  set_start_inactive_time_front (perf_counter_at fr 0%nat) (set_INACTIVE_TIME_FRONT 0 tr).

(** Whether the live feedback on a frame in state [st] finds a form error:
    knee bent beyond [KNEE_LOCK_MAX] or torso tilted beyond
    [TORSO_TILT_MAX], outside ['s3']. *)
Definition form_error (th : Thresholds) (st : option State) (fr : Frame) : bool :=
  negb (opt_State_eqb st (Some s3))
  && ((KNEE_LOCK_MAX th <? Z.max 0 (180 - knee_internal fr))
      || (TORSO_TILT_MAX th <? torso_tilt fr)).

(** ** Scenarios *)

(** Scenario A of the specification: 1.2 s at the top. *)
Definition scenario_A : list Frame :=
  [frame_at 5 0; frame_at 5 100; frame_at 30 200; frame_at 70 300; frame_at 70 900;
   frame_at 70 1500; frame_at 70 1600; frame_at 30 1700; frame_at 5 1800].

(** Scenario B: rest, raise, 0.3 s at the top, lower, rest. *)
Definition scenario_B : list Frame :=
  [frame_at 5 0; frame_at 30 100; frame_at 70 200; frame_at 30 500; frame_at 5 600].

(** Rest, raise, then two frames at the top 1.2 s apart. *)
Definition top_for_1200ms : list Frame :=
  [frame_at 5 0; frame_at 30 100; frame_at 70 300; frame_at 70 1500].

(** ** Predicates on trackers *)

(** The tracker after a hard reset whose two clock reads gave [t_side] and
    [t_front]. *)
Definition zeroed (t_side t_front : Z) : Tracker :=
  {| state_seq := [];
     prev_state := None;
     curr_state := None;
     s3_enter_time := None;
     s3_hold_ok := false;
     rep_min_angle := None;
     rep_max_angle := None;
     start_inactive_time := t_side;
     INACTIVE_TIME := 0;
     start_inactive_time_front := t_front;
     INACTIVE_TIME_FRONT := 0;
     DISPLAY_TEXT := full4 false;
     COUNT_FRAMES := full4 0;
     INCORRECT_POSTURE := false;
     CORRECT_COUNT := 0;
     INCORRECT_COUNT := 0 |}.

(** The two range fields are set together and in order. *)
Definition range_inv (tr : Tracker) : Prop :=
  match rep_min_angle tr, rep_max_angle tr with
  | None, None => True
  | Some lo, Some hi => lo <= hi
  | _, _ => False
  end.

(** The range fields are consistent, and unset while no rep is open. *)
Definition rep_open_inv (tr : Tracker) : Prop :=
  range_inv tr
  /\ (mem s2 (state_seq tr) = false -> rep_min_angle tr = None).

(** The four conditions of a correct rep. *)
Definition full_rep (th : Thresholds) (tr : Tracker) : Prop :=
  state_seq tr = [s2; s3; s2]
  /\ INCORRECT_POSTURE tr = false
  /\ s3_hold_ok tr = true
  /\ exists lo hi,
       rep_min_angle tr = Some lo /\ rep_max_angle tr = Some hi
       /\ REP_MIN_RANGE th <= hi - lo.

(** The tracker when the verdict is taken: [tr] after [drop_check]. *)
Definition at_verdict (tr : Tracker) : Tracker :=
  if opt_State_eqb (prev_state tr) (Some s3)
  then set_INCORRECT_POSTURE true (set_DISPLAY_TEXT (set4 I3 true (DISPLAY_TEXT tr)) tr)
  else tr.

(** The state sequence and every per-rep field are cleared. *)
Definition cleared_per_rep (tr : Tracker) : Prop :=
  state_seq tr = []
  /\ DISPLAY_TEXT tr = full4 false
  /\ COUNT_FRAMES tr = full4 0
  /\ INCORRECT_POSTURE tr = false
  /\ s3_enter_time tr = None
  /\ s3_hold_ok tr = false
  /\ rep_min_angle tr = None
  /\ rep_max_angle tr = None.

(** The tracker as a frame classified ['s1'] leaves it. *)
Definition at_rest (tr : Tracker) : Prop :=
  prev_state tr = Some s1 /\ cleared_per_rep tr.

(** Everything the rep classifier owns is the same in [tr] and [tr']. *)
Definition rep_logic_untouched (tr tr' : Tracker) : Prop :=
  state_seq tr' = state_seq tr
  /\ curr_state tr' = curr_state tr
  /\ prev_state tr' = prev_state tr
  /\ CORRECT_COUNT tr' = CORRECT_COUNT tr
  /\ INCORRECT_COUNT tr' = INCORRECT_COUNT tr
  /\ s3_enter_time tr' = s3_enter_time tr
  /\ s3_hold_ok tr' = s3_hold_ok tr
  /\ rep_min_angle tr' = rep_min_angle tr
  /\ rep_max_angle tr' = rep_max_angle tr
  /\ INCORRECT_POSTURE tr' = INCORRECT_POSTURE tr
  /\ DISPLAY_TEXT tr' = DISPLAY_TEXT tr
  /\ COUNT_FRAMES tr' = COUNT_FRAMES tr.

(** What the end of an aligned call carries over when no watchdog fires. *)
Definition carried (tr tr' : Tracker) : Prop :=
  state_seq tr' = state_seq tr
  /\ curr_state tr' = curr_state tr
  /\ s3_enter_time tr' = s3_enter_time tr
  /\ s3_hold_ok tr' = s3_hold_ok tr
  /\ rep_min_angle tr' = rep_min_angle tr
  /\ rep_max_angle tr' = rep_max_angle tr
  /\ INCORRECT_POSTURE tr' = INCORRECT_POSTURE tr
  /\ CORRECT_COUNT tr' = CORRECT_COUNT tr
  /\ INCORRECT_COUNT tr' = INCORRECT_COUNT tr
  /\ INACTIVE_TIME_FRONT tr' = INACTIVE_TIME_FRONT tr
  /\ start_inactive_time_front tr' = start_inactive_time_front tr.

(** The fields that only the inactivity watchdog and the last line of
    [process] write are the same in [tr] and [tr']. *)
Definition watchdog_untouched (tr tr' : Tracker) : Prop :=
  prev_state tr' = prev_state tr
  /\ start_inactive_time tr' = start_inactive_time tr
  /\ INACTIVE_TIME tr' = INACTIVE_TIME tr
  /\ start_inactive_time_front tr' = start_inactive_time_front tr
  /\ INACTIVE_TIME_FRONT tr' = INACTIVE_TIME_FRONT tr.

(** ** State sequences *)

(** [state_seq] after a succession of classified states has gone through
    [_update_state_sequence], oldest first. *)
Definition feed (states : list (option State)) (seq : list State) : list State :=
  fold_left (fun q st => next_state_seq st q) states seq.

(** The legal sequences: the prefixes of [['s2', 's3', 's2']]. *)
Definition legal_seq (seq : list State) : Prop :=
  exists rest, seq ++ rest = [s2; s3; s2].

(** ** Watchdogs and the event of a call *)

(** Whether the side-view watchdog of an aligned frame fires, from the
    tracker [tr] the classification leaves, the next clock read being the
    [n]-th. *)
Definition side_fires (th : Thresholds) (clk : nat -> Z) (n : nat) (tr : Tracker) : bool :=
  opt_State_eqb (curr_state tr) (prev_state tr)
  && (INACTIVE_THRESH th <=? INACTIVE_TIME tr + (clk n - start_inactive_time tr)).

(** Whether the side-view watchdog fires on an aligned frame in state
    [st], from the tracker the call starts with. *)
Definition stalls (th : Thresholds) (tr : Tracker) (fr : Frame) (st : option State) : bool :=
  opt_State_eqb st (prev_state tr)
  && (INACTIVE_THRESH th
      <=? INACTIVE_TIME tr
          + (perf_counter_at fr (S (hold_reads st)) - start_inactive_time tr)).

(** Whether an inactivity accumulator reaches [INACTIVE_THRESH] during the
    call: the side-view one on a frame without landmarks, the front-view one
    on a misaligned frame, the side-view one again on an aligned frame whose
    state is the previous frame's. *)
Definition watchdog_fires (th : Thresholds) (tr : Tracker) (fr : Frame) : bool :=
  let clk := perf_counter_at fr in
  if negb (pose_landmarks fr) then
    INACTIVE_THRESH th <=? INACTIVE_TIME tr + (clk 0%nat - start_inactive_time tr)
  else if OFFSET_THRESH th <? offset_angle fr then
    INACTIVE_THRESH th
    <=? INACTIVE_TIME_FRONT tr + (clk 0%nat - start_inactive_time_front tr)
  else
    let st := _get_state th (180 - hip_angle fr) in
    opt_State_eqb st (prev_state tr)
    && (INACTIVE_THRESH th
        <=? INACTIVE_TIME tr + (clk (S (hold_reads st)) - start_inactive_time tr)).

(** The sound of the rep resolution, if the frame gets as far: the one
    chosen by the classification phase of an aligned frame. *)
Definition resolution_sound (th : Thresholds) (tr : Tracker) (fr : Frame) : option Sound :=
  let clk := perf_counter_at fr in
  if negb (pose_landmarks fr) then None
  else if OFFSET_THRESH th <? offset_angle fr then None
  else
    match classify th (_get_state th (180 - hip_angle fr)) (180 - hip_angle fr)
            (Z.max 0 (180 - knee_internal fr)) (torso_tilt fr) clk 1%nat
            (set_start_inactive_time_front (clk 0%nat) (set_INACTIVE_TIME_FRONT 0 tr)) with
    | Returns ps _ _ => ps
    | Raises _ => None
    end.

(** Hard reset first, then the resolution's sound, else nothing. *)
Definition by_priority (hard_reset : bool) (resolved : option Sound) : option Sound :=
  if hard_reset then Some reset_counters else resolved.

(** ** Banner lifetimes *)

(** The banner sweep on one flag and its counter. *)
Definition swept_count (th : Thresholds) (flag : bool) (c : Z) : Z :=
  let c' := if flag then c + 1 else c in
  if CNT_FRAME_THRESH th <? c' then 0 else c'.

Definition swept_flag (th : Thresholds) (flag : bool) (c : Z) : bool :=
  let c' := if flag then c + 1 else c in
  if CNT_FRAME_THRESH th <? c' then false else flag.

(** Whether banner flag [i] is set at the end of every call of a run. *)
Fixpoint active_throughout (th : Thresholds) (i : Idx4) (tr : Tracker)
    (frames : list Frame) : bool :=
  match frames with
  | [] => true
  | fr :: rest =>
      match call th tr fr with
      | Some (tr', _) => get4 i (DISPLAY_TEXT tr') && active_throughout th i tr' rest
      | None => false
      end
  end.

(** ** The stretches of a rep *)

(** Consecutive frames classified [st], without form error. *)
Definition clean_stretch (th : Thresholds) (st : option State) (frames : list Frame) : Prop :=
  Forall (fun f => classified th f st /\ form_error th st f = false) frames.

(** By the watchdog's readings in state [st], none of [frames] comes
    [INACTIVE_THRESH] or more after [f0]. *)
Definition within_watch (th : Thresholds) (st : option State) (f0 : Frame)
    (frames : list Frame) : Prop :=
  Forall (fun f => side_read st f - side_read st f0 < INACTIVE_THRESH th) frames.

(** The hip angles of [frames] lie between [lo] and [hi]. *)
Definition covers (lo hi : Z) (frames : list Frame) : Prop :=
  Forall (fun f => lo <= hip_vertical f <= hi) frames.

(** ** Further predicates: tracking loss, the rep verdict, the tallies *)


(** The side-view accumulator as a frame without landmarks leaves it,
    from tracker [tr]. *)
Definition idle_since (tr : Tracker) (fr : Frame) : Z :=
  INACTIVE_TIME tr + (perf_counter_at fr 0%nat - start_inactive_time tr).

(** Frames with landmarks taken too much from the front. *)
Definition misaligned (th : Thresholds) (frames : list Frame) : Prop :=
  Forall (fun f => pose_landmarks f = true /\ OFFSET_THRESH th < offset_angle f) frames.

(** A frame on which [process] returns early: no landmarks, or the camera
    misaligned. *)
Definition gated (th : Thresholds) (fr : Frame) : Prop :=
  pose_landmarks fr = false
  \/ (pose_landmarks fr = true /\ OFFSET_THRESH th < offset_angle fr).

(** [rep_max_angle - rep_min_angle] once the angle [hv] of the current
    frame has been tracked, ['s2'] being in [state_seq]. *)
Definition rep_range (tr : Tracker) (hv : Z) : Z :=
  match rep_min_angle tr, rep_max_angle tr with
  | Some lo, Some hi => Z.max hi hv - Z.min lo hv
  | _, _ => 0
  end.

(** The test of the branch [current_state == 's1'] for a correct rep, read
    on the tracker the call starts with: full sequence, no form error so
    far, no drop from ['s3'], hold latched, range reached. *)
Definition counts_as_rep (th : Thresholds) (tr : Tracker) (fr : Frame) : bool :=
  seq_eqb (state_seq tr) [s2; s3; s2]
  && negb (INCORRECT_POSTURE tr)
  && negb (opt_State_eqb (prev_state tr) (Some s3))
  && s3_hold_ok tr
  && (REP_MIN_RANGE th <=? rep_range tr (hip_vertical fr)).

(** The counters [(CORRECT_COUNT, INCORRECT_COUNT)] after a call, from the
    counters before it and the sound it returned. *)
Definition tally (counts : Z * Z) (sound : option Sound) : Z * Z :=
  match sound with
  | Some reset_counters => (0, 0)
  | Some (count_str _) => (fst counts + 1, snd counts)
  | Some incorrect => (fst counts, snd counts + 1)
  | None => counts
  end.

(** Whether every count announced in [sounds] is the number of correct reps
    since the last reset, [c] of them having been counted before. *)
Fixpoint announces_from (c : Z) (sounds : list (option Sound)) : bool :=
  match sounds with
  | [] => true
  | Some (count_str k) :: rest => (k =? c + 1) && announces_from (c + 1) rest
  | Some reset_counters :: rest => announces_from 0 rest
  | _ :: rest => announces_from c rest
  end.

(** Whether a sound is an announced count. *)
Definition is_count (sound : option Sound) : bool :=
  match sound with
  | Some (count_str _) => true
  | _ => false
  end.

(** How far the open rep has come: the states recorded in [state_seq],
    plus one once the hold is latched.  A rep is counted at 4. *)
Definition rep_progress (tr : Tracker) : nat :=
  (length (state_seq tr) + (if s3_hold_ok tr then 1 else 0))%nat.

(** While the hold timer runs, ['s3'] is in [state_seq] if ['s2'] is. *)
Definition timer_inv (tr : Tracker) : Prop :=
  s3_enter_time tr <> None ->
  mem s2 (state_seq tr) = true -> mem s3 (state_seq tr) = true.

(** A frame with landmarks and the camera aligned whose hip angle is not in
    the rest band: the leg is moving, at the top, or unclassified. *)
Definition moving (th : Thresholds) (fr : Frame) : Prop :=
  pose_landmarks fr = true
  /\ offset_angle fr <= OFFSET_THRESH th
  /\ _get_state th (180 - hip_angle fr) <> Some s1.

(** Whether the live feedback finds a form error on the frame, in the state
    its hip angle is classified. *)
Definition misformed (th : Thresholds) (fr : Frame) : bool :=
  form_error th (_get_state th (180 - hip_angle fr)) fr.

(** ** The feedback banners ([_show_feedback]) *)

(** [utils.draw_text] is not part of the sources: a call of it is recorded
    by the arguments [_show_feedback] gives it, the font scale [0.6] in
    tenths. *)
Record DrawText : Type := mkDrawText {
  msg : string;
  pos : Z * Z;
  text_color : Z * Z * Z;
  font_scale : Z;
  text_color_bg : Z * Z * Z
}.

(** [self.FEEDBACK_ID_MAP]: label, y position, box colour. *)
Definition FEEDBACK_ID_MAP (idx : Idx4) : string * Z * (Z * Z * Z) :=
  match idx with
  | I0 => ("LOCK YOUR KNEE"%string, 215, (255, 80, 80))
  | I1 => ("DON'T ARCH YOUR BACK"%string, 170, (0, 153, 255))
  | I2 => ("RAISE HIGHER"%string, 125, (255, 255, 0))
  | I3 => ("CONTROL LOWERING"%string, 90, (255, 80, 80))
  end.

(** [np.where(c_frame)[0]]: the indices of the non-zero entries, in
    order. *)
Definition np_where (c_frame : Arr4 Z) : list Idx4 :=
  filter (fun idx => negb (get4 idx c_frame =? 0)) [I0; I1; I2; I3].

(** The banner that [_show_feedback] draws for index [idx]. *)
Definition banner (dict_maps : Idx4 -> string * Z * (Z * Z * Z)) (idx : Idx4) : DrawText :=
  {| msg := fst (fst (dict_maps idx));
     pos := (30, snd (fst (dict_maps idx)));
     text_color := (255, 255, 230);
     font_scale := 6;
     text_color_bg := snd (dict_maps idx) |}.

(** [_show_feedback]: the calls of [draw_text] it makes, in order. *)
Definition _show_feedback (c_frame : Arr4 Z)
    (dict_maps : Idx4 -> string * Z * (Z * Z * Z)) : list DrawText :=
  map (banner dict_maps) (np_where c_frame).

(** The aligned path of [process] as far as the call of [_show_feedback],
    returning the banners it draws. *)
Definition aligned_feedback (th : Thresholds) (fr : Frame) : M (list DrawText) :=
  modify (set_INACTIVE_TIME_FRONT 0) ;;
  t <- perf_counter ;;
  modify (set_start_inactive_time_front t) ;;
  let hip_vertical := 180 - hip_angle fr in
  let knee_flexion := Z.max 0 (180 - knee_internal fr) in
  let current_state := _get_state th hip_vertical in
  play_sound <- classify th current_state hip_vertical knee_flexion (torso_tilt fr) ;;
  side_inactivity th play_sound ;;
  modify (fun tr => set_COUNT_FRAMES
                      (where4 (DISPLAY_TEXT tr) (fun c => c + 1) (COUNT_FRAMES tr)) tr) ;;
  c_frame <- gets COUNT_FRAMES ;;
  ret (_show_feedback c_frame FEEDBACK_ID_MAP).

(** The banners that a call of [process] on tracker [tr] draws through
    [_show_feedback]: none on the two paths that return early, [None] when
    the call raises. *)
Definition feedback_drawn (th : Thresholds) (tr : Tracker) (fr : Frame)
    : option (list DrawText) :=
  if negb (pose_landmarks fr) then Some []
  else if OFFSET_THRESH th <? offset_angle fr then Some []
  else
    match aligned_feedback th fr (perf_counter_at fr) 0%nat tr with
    | Returns drawn _ _ => Some drawn
    | Raises _ => None
    end.

(** At a frame boundary a set flag has been counted between 1 and
    [CNT_FRAME_THRESH] times and the counter of a clear flag is 0; the
    flag of CONTROL LOWERING is clear. *)
Definition banner_inv (th : Thresholds) (tr : Tracker) : Prop :=
  (forall i, if get4 i (DISPLAY_TEXT tr)
             then 1 <= get4 i (COUNT_FRAMES tr) <= CNT_FRAME_THRESH th
             else get4 i (COUNT_FRAMES tr) = 0)
  /\ get4 I3 (DISPLAY_TEXT tr) = false.

(** ** The range of a rep and the bands *)

(** Once ['s3'] is in [state_seq], the tracked maximum is in or above the
    PASS band. *)
Definition top_inv (th : Thresholds) (tr : Tracker) : Prop :=
  mem s3 (state_seq tr) = true ->
  exists hi, rep_max_angle tr = Some hi /\ fst (PASS (HIP_KNEE_VERT th)) <= hi.

(** The three bands follow one another without a gap between integer
    angles. *)
Definition contiguous (band : Bands) : bool :=
  (fst (NORMAL band) <=? snd (NORMAL band))
  && (snd (NORMAL band) + 1 =? fst (TRANS band))
  && (fst (TRANS band) <=? snd (TRANS band))
  && (snd (TRANS band) + 1 =? fst (PASS band))
  && (fst (PASS band) <=? snd (PASS band)).

(** ** The triage dialogue ([Home.py]) *)

(** A Python text is a [string], read as the sequence of its code points,
    all below 256. *)

(** [str.lower()]: on code points below 256 it moves A-Z and the capital
    letters U+00C0 to U+00DE, the multiplication sign excepted, 32 places
    up. *)
Definition lower_char (c : ascii) : ascii :=
  let n := N_of_ascii c in
  if ((65 <=? n) && (n <=? 90) || (192 <=? n) && (n <=? 222) && negb (n =? 215))%N
  then ascii_of_N (n + 32) else c.

Fixpoint lower (s : string) : string :=
  match s with
  | EmptyString => EmptyString
  | String c s' => String (lower_char c) (lower s')
  end.

(** [str.isspace()] on one code point below 256. *)
Definition isspace (c : ascii) : bool :=
  let n := N_of_ascii c in
  ((9 <=? n) && (n <=? 13) || (28 <=? n) && (n <=? 32) || (n =? 133) || (n =? 160))%N.

Fixpoint lstrip (s : string) : string :=
  match s with
  | EmptyString => EmptyString
  | String c s' => if isspace c then lstrip s' else s
  end.

Definition reversed (s : string) : string :=
  string_of_list_ascii (rev (list_ascii_of_string s)).

(** [str.strip()] *)
Definition strip (s : string) : string :=
  reversed (lstrip (reversed (lstrip s))).

(** [x in t] on two texts: [x] occurs in [t]. *)
Fixpoint contains (x t : string) : bool :=
  prefix x t
  || match t with
     | EmptyString => false
     | String _ t' => contains x t'
     end.

(** [any(x in t for x in xs)] *)
Definition any_in (xs : list string) (t : string) : bool :=
  existsb (fun x => contains x t) xs.

(** [re.search] for a pattern that is a group of literal alternatives: the
    leftmost position at which one of them matches, and there the first
    that does; the result is [m.group(1)]. *)
Fixpoint first_prefix (alts : list string) (t : string) : option string :=
  match alts with
  | [] => None
  | a :: rest => if prefix a t then Some a else first_prefix rest t
  end.

Fixpoint re_search (alts : list string) (t : string) : option string :=
  match first_prefix alts t with
  | Some m => Some m
  | None =>
      match t with
      | EmptyString => None
      | String _ t' => re_search alts t'
      end
  end.

Definition KNOWN_AREAS : list string :=
  ["lower back"; "low back"; "upper back"; "back"; "shoulder"; "knee"; "neck"; "hip";
   "ankle"; "elbow"; "wrist"; "hamstring"; "quad"; "calf"; "glute"; "groin"]%string.

Definition normalize_pain_area (text : string) : string :=
  let t := lower text in
  if any_in ["lower back"; "low back"; "lower-back"]%string t then "lower back"%string
  else if contains "upper back" t || contains "upper-back" t then "upper back"%string
  else if contains "back" t then "back"%string
  else
    match find (fun area => contains area t) KNOWN_AREAS with
    | Some area => area
    | None =>
        match re_search
                ["lower back"; "upper back"; "back"; "shoulder"; "knee"; "neck"; "hip";
                 "ankle"; "elbow"; "wrist"; "hamstring"; "quad"; "calf"; "glute";
                 "groin"]%string t with
        | Some m => m
        | None => EmptyString
        end
    end.

(** The two trigger lists of [classify_mode]. *)
Definition strength_triggers : list string :=
  ["late"; "advanced"; "strength"; "strengthening"; "building"; "stable"; "improving";
   "finished"; "completed"; "progress"]%string.

Definition stretch_triggers : list string :=
  ["early"; "beginner"; "just started"; "still in pain"; "sore"; "acute"; "flare";
   "tender"; "recent"; "physio"; "rehab"; "recovery"]%string.

Definition classify_mode (history_text : string) : string :=
  let t := lower history_text in
  if any_in strength_triggers t then "strength"%string
  else if any_in stretch_triggers t then "stretch"%string
  else EmptyString.

(** A dictionary with text keys, and [d.get(k)]. *)
Definition dict_get {V : Type} (d : list (string * V)) (k : string) : option V :=
  option_map snd (find (fun kv => (fst kv =? k)%string) d).

(** [gemini_pick_exercise]: the answer of the language model is an input,
    [reply] holding the stripped fields ["exercise"] and ["why"] of the JSON
    object found in it, the empty text for a field that is missing, and
    [None] when the request or the parsing raises.  The result is [None]
    when [bank[mode]] raises [KeyError]. *)
Definition gemini_pick_exercise (reply : option (string * string))
    (pain_area mode : string) : option (string * string) :=
  let fallback :=
    [("upper back", [("stretch", "Squat"); ("strength", "Squat")]);
     ("shoulder", [("stretch", "Squat"); ("strength", "Squat")]);
     ("knee", [("stretch", "Squat"); ("strength", "Squat")]);
     ("neck", [("stretch", "Squat"); ("strength", "Squat")]);
     ("hip", [("stretch", "Leg Raises"); ("strength", "Squat")])]%string in
  let from_bank :=
    let bank :=
      match dict_get fallback pain_area with
      | Some bank => bank
      | None => [("stretch", "Squat"); ("strength", "Squat")]%string
      end in
    match dict_get bank mode with
    | Some exercise =>
        Some (exercise, "This matches your stage and targets the area safely."%string)
    | None => None
    end in
  match reply with
  | Some (ex, why) =>
      if (ex =? EmptyString)%string then from_bank
      else Some (ex, if (why =? EmptyString)%string then "This suits your current stage."%string
                     else why)
  | None => from_bank
  end.

(** Step 2 of the flow, once the mode is known: the exercise and the
    reason. *)
Definition recommend (reply : option (string * string)) (pain mode : string)
    : option (string * string) :=
  if (pain =? "lower back")%string then
    Some (if (mode =? "stretch")%string then "Leg Raises"%string else "Squat"%string,
          "this best matches your current stage and targets the lower back safely."%string)
  else gemini_pick_exercise reply pain mode.

(** The analyzer pages: [pages/1_..._Live_Stream.py], the squat analyzer,
    and [pages/3_..._Leg_Raises_Live.py]. *)
Inductive Page : Type := Live_Stream | Leg_Raises_Live.

(** Step 3, the button Go to Analyzer. *)
Definition analyzer_page (exercise_name : string) : Page :=
  let exercise := lower (strip exercise_name) in
  if contains "squat" exercise then Live_Stream
  else if contains "leg" exercise && contains "raise" exercise then Leg_Raises_Live
  else if contains "stretch" exercise || contains "stretching" exercise then Live_Stream
  else Live_Stream.

(** ** The updater on a succession of states *)

(** [_update_state_sequence] called on each of [states] in turn, oldest
    first. *)
Fixpoint update_all (states : list (option State)) : M unit :=
  match states with
  | [] => ret tt
  | st :: rest => _update_state_sequence st ;; update_all rest
  end.

(** ** Frames that reach the banner sweep *)

(** The largest [int64].  [COUNT_FRAMES] is a numpy array of [int64]: its
    [+= 1] is the exact sum on a counter below [INT64_MAX]. *)
Definition INT64_MAX : Z := 2 ^ 63 - 1.

(** Whether a frame reaches the end of [process], where the banner sweep
    is: landmarks found, camera aligned. *)
Definition reaches_sweep (th : Thresholds) (fr : Frame) : bool :=
  pose_landmarks fr && (offset_angle fr <=? OFFSET_THRESH th).

(** The number of frames of a run that reach the banner sweep. *)
Definition sweeps (th : Thresholds) (frames : list Frame) : nat :=
  length (filter (reaches_sweep th) frames).

(** ** The session of the dialogue ([st.session_state]) *)

(** The keys of [defaults], the chat log [messages] left out: the flow
    appends to it and renders it, and never reads it. *)
Record Session : Type := mkSession {
  step : Z;
  pain_area : string;
  raw_pain_text : string;
  awaiting_back_region : bool;
  asked_clarify_pain : bool;
  history : string;
  asked_clarify_stage : bool;
  awaiting_stage_choice : bool;
  mode : string;
  exercise_name : string;
  reasoning : string
}.

Definition defaults : Session :=
  {| step := 1;
     pain_area := EmptyString;
     raw_pain_text := EmptyString;
     awaiting_back_region := false;
     asked_clarify_pain := false;
     history := EmptyString;
     asked_clarify_stage := false;
     awaiting_stage_choice := false;
     mode := EmptyString;
     exercise_name := EmptyString;
     reasoning := EmptyString |}.

Definition set_step (v : Z) (s : Session) : Session :=
  mkSession v (pain_area s) (raw_pain_text s) (awaiting_back_region s)
    (asked_clarify_pain s) (history s) (asked_clarify_stage s) (awaiting_stage_choice s)
    (mode s) (exercise_name s) (reasoning s).

Definition set_pain_area (v : string) (s : Session) : Session :=
  mkSession (step s) v (raw_pain_text s) (awaiting_back_region s)
    (asked_clarify_pain s) (history s) (asked_clarify_stage s) (awaiting_stage_choice s)
    (mode s) (exercise_name s) (reasoning s).

Definition set_raw_pain_text (v : string) (s : Session) : Session :=
  mkSession (step s) (pain_area s) v (awaiting_back_region s)
    (asked_clarify_pain s) (history s) (asked_clarify_stage s) (awaiting_stage_choice s)
    (mode s) (exercise_name s) (reasoning s).

Definition set_awaiting_back_region (v : bool) (s : Session) : Session :=
  mkSession (step s) (pain_area s) (raw_pain_text s) v
    (asked_clarify_pain s) (history s) (asked_clarify_stage s) (awaiting_stage_choice s)
    (mode s) (exercise_name s) (reasoning s).

Definition set_asked_clarify_pain (v : bool) (s : Session) : Session :=
  mkSession (step s) (pain_area s) (raw_pain_text s) (awaiting_back_region s)
    v (history s) (asked_clarify_stage s) (awaiting_stage_choice s)
    (mode s) (exercise_name s) (reasoning s).

Definition set_history (v : string) (s : Session) : Session :=
  mkSession (step s) (pain_area s) (raw_pain_text s) (awaiting_back_region s)
    (asked_clarify_pain s) v (asked_clarify_stage s) (awaiting_stage_choice s)
    (mode s) (exercise_name s) (reasoning s).

Definition set_asked_clarify_stage (v : bool) (s : Session) : Session :=
  mkSession (step s) (pain_area s) (raw_pain_text s) (awaiting_back_region s)
    (asked_clarify_pain s) (history s) v (awaiting_stage_choice s)
    (mode s) (exercise_name s) (reasoning s).

Definition set_awaiting_stage_choice (v : bool) (s : Session) : Session :=
  mkSession (step s) (pain_area s) (raw_pain_text s) (awaiting_back_region s)
    (asked_clarify_pain s) (history s) (asked_clarify_stage s) v
    (mode s) (exercise_name s) (reasoning s).

Definition set_mode (v : string) (s : Session) : Session :=
  mkSession (step s) (pain_area s) (raw_pain_text s) (awaiting_back_region s)
    (asked_clarify_pain s) (history s) (asked_clarify_stage s) (awaiting_stage_choice s)
    v (exercise_name s) (reasoning s).

Definition set_exercise_name (v : string) (s : Session) : Session :=
  mkSession (step s) (pain_area s) (raw_pain_text s) (awaiting_back_region s)
    (asked_clarify_pain s) (history s) (asked_clarify_stage s) (awaiting_stage_choice s)
    (mode s) v (reasoning s).

Definition set_reasoning (v : string) (s : Session) : Session :=
  mkSession (step s) (pain_area s) (raw_pain_text s) (awaiting_back_region s)
    (asked_clarify_pain s) (history s) (asked_clarify_stage s) (awaiting_stage_choice s)
    (mode s) (exercise_name s) v.

(** [not text]: the text is empty. *)
Definition is_empty (text : string) : bool :=
  match text with
  | EmptyString => true
  | String _ _ => false
  end.

(** A script run of the page ends at [st.stop()] or [st.rerun()]: a
    handler is the session it leaves there.  The answers of the language
    model are inputs. *)

(** Step 1, the button Send, on the text [input]; [ai] is what
    [ask_gemini_free] returns if it is asked for the body area: the
    stripped answer, or the empty text when the request fails. *)
Definition send_pain (ai input : string) (s : Session) : Session :=
  let user := strip input in
  if is_empty user then s
  else
    let s := set_raw_pain_text user s in
    if awaiting_back_region s then
      let lower_ := contains "lower" (lower user) in
      let upper_ := contains "upper" (lower user) in
      let to_step_2 s := set_step 2 (set_awaiting_back_region false s) in
      if lower_ then to_step_2 (set_pain_area "lower back" s)
      else if upper_ then to_step_2 (set_pain_area "upper back" s)
      else if negb (asked_clarify_pain s) then set_asked_clarify_pain true s
      else to_step_2 (set_pain_area "lower back" s)
    else
      let parsed area :=
        if (area =? "back")%string then set_awaiting_back_region true s
        else set_step 2 (set_pain_area area s) in
      let area := normalize_pain_area user in
      if is_empty area then
        if negb (asked_clarify_pain s) then set_asked_clarify_pain true s
        else
          let found := normalize_pain_area ai in
          parsed (if is_empty found then "lower back"%string else found)
      else parsed area.

(** Step 2, the button Send, on the text [input]; [choice] is what
    [ask_gemini_free] returns if it is asked for the stage, [reply] the
    answer to [gemini_pick_exercise].  The result is [None] when the
    handler raises. *)
Definition send_stage (choice : string) (reply : option (string * string))
    (input : string) (s : Session) : option Session :=
  let user := strip input in
  if is_empty user then Some s
  else
    let s := set_history user s in
    let mode := classify_mode user in
    let mode :=
      if is_empty mode then
        let choice := lower choice in
        if contains "strength" choice then "strength"%string
        else if contains "stretch" choice then "stretch"%string
        else EmptyString
      else mode in
    if is_empty mode then
      if negb (asked_clarify_stage s) then Some (set_asked_clarify_stage true s)
      else Some (set_awaiting_stage_choice true s)
    else
      let s := set_mode mode s in
      match recommend reply (pain_area s) mode with
      | Some (exercise, reason) =>
          Some (set_step 3 (set_reasoning reason (set_exercise_name exercise s)))
      | None => None
      end.

(** Step 2, the button Confirm of the explicit chooser; [choice] is the
    selected option of the radio, if any. *)
Definition confirm_stage (choice : option string) (s : Session) : Session :=
  match choice with
  | None => s
  | Some choice =>
      let s :=
        set_mode (if contains "stretch" (lower choice) then "stretch"%string
                  else "strength"%string) s in
      set_step 3 (set_awaiting_stage_choice false s)
  end.

(** Step 3, the button Go to Analyzer. *)
Definition go_to_analyzer (s : Session) : Page := analyzer_page (exercise_name s).

(** ** Symbolic execution *)

Ltac py_unfold :=
  cbv beta iota zeta delta
    [call process aligned watch_and_sweep not_aligned no_landmarks classify
     side_inactivity
     banner_ttl live_feedback resolve_rep reset_per_rep decide_rep drop_check verdict
     suppress_form_cues hold_timing track_range _hard_reset_all
     _reset_live_flags _update_state_sequence tracker_after
     bind ret gets modify raise perf_counter
     set_state_seq set_prev_state set_curr_state set_s3_enter_time
     set_s3_hold_ok set_rep_min_angle set_rep_max_angle
     set_start_inactive_time set_INACTIVE_TIME set_start_inactive_time_front
     set_INACTIVE_TIME_FRONT set_DISPLAY_TEXT set_COUNT_FRAMES
     set_INCORRECT_POSTURE set_CORRECT_COUNT set_INCORRECT_COUNT
     state_seq prev_state curr_state s3_enter_time s3_hold_ok rep_min_angle
     rep_max_angle start_inactive_time INACTIVE_TIME start_inactive_time_front
     INACTIVE_TIME_FRONT DISPLAY_TEXT COUNT_FRAMES INCORRECT_POSTURE
     CORRECT_COUNT INCORRECT_COUNT
     get4 set4 full4 map4 where4 at0 at1 at2 at3
     opt_State_eqb State_eqb negb andb orb].

(** Field reads of an explicit tracker. *)
Ltac py_fields :=
  cbn [state_seq prev_state curr_state s3_enter_time s3_hold_ok rep_min_angle
       rep_max_angle start_inactive_time INACTIVE_TIME start_inactive_time_front
       INACTIVE_TIME_FRONT DISPLAY_TEXT COUNT_FRAMES INCORRECT_POSTURE
       CORRECT_COUNT INCORRECT_COUNT get4 set4 full4 at0 at1 at2 at3] in *.

(** The same without entering the branch on ['s1'] and the watchdog. *)
Ltac py_phase :=
  cbv beta iota zeta delta
    [classify live_feedback suppress_form_cues hold_timing track_range
     _update_state_sequence
     bind ret gets modify raise perf_counter
     set_state_seq set_prev_state set_curr_state set_s3_enter_time
     set_s3_hold_ok set_rep_min_angle set_rep_max_angle
     set_start_inactive_time set_INACTIVE_TIME set_start_inactive_time_front
     set_INACTIVE_TIME_FRONT set_DISPLAY_TEXT set_COUNT_FRAMES
     set_INCORRECT_POSTURE set_CORRECT_COUNT set_INCORRECT_COUNT
     state_seq prev_state curr_state s3_enter_time s3_hold_ok rep_min_angle
     rep_max_angle start_inactive_time INACTIVE_TIME start_inactive_time_front
     INACTIVE_TIME_FRONT DISPLAY_TEXT COUNT_FRAMES INCORRECT_POSTURE
     CORRECT_COUNT INCORRECT_COUNT
     get4 set4 full4 map4 where4 at0 at1 at2 at3
     opt_State_eqb State_eqb negb andb orb].

(** The condition on which the next case split of a run depends: the
    innermost undecided test under a [match] on an [Outcome]. *)
Ltac stuck t :=
  lazymatch t with
  | match ?c with Returns _ _ _ => _ | Raises _ => _ end => stuck c
  | if ?b then _ else _ => stuck_or b
  | match ?b with Some _ => _ | None => _ end => stuck_or b
  | ?f _ => stuck f
  end
with stuck_or b :=
  match b with
  | _ => stuck b
  | _ => b
  end.

Ltac split_outcome :=
  match goal with
  | |- context [match ?c with Returns _ _ _ => _ | Raises _ => _ end] =>
      let b := stuck c in destruct b eqn:?; py_unfold
  end.
(** * Properties *)

(** *** Hard reset *)

Lemma hard_reset_returns (clk : nat -> Z) (n : nat) (tr : Tracker) :
  _hard_reset_all clk n tr = Returns tt (S (S n)) (zeroed (clk n) (clk (S n))).
Proof. reflexivity. Qed.

(** C10.  Hard reset is idempotent: with the clock standing at [t], two
    consecutive calls of [_hard_reset_all] leave the tracker that one call
    leaves, whatever the tracker was before: both counters zero,
    [state_seq] empty, previous and current state [None], per-rep fields,
    banner flags and banner counters cleared, both inactivity accumulators
    zero and both anchors at [t].  With a running clock the second call
    only moves the two anchors to its own readings.  [_reset_live_flags],
    which reads no clock, is idempotent as it is. *)
Theorem hard_reset_idempotent (t : Z) (n : nat) (tr : Tracker) :
  tracker_after (_hard_reset_all ;; _hard_reset_all) (fun _ => t) n tr
  = tracker_after _hard_reset_all (fun _ => t) n tr
  /\ tracker_after _hard_reset_all (fun _ => t) n tr
     = Some {| state_seq := [];
               prev_state := None;
               curr_state := None;
               s3_enter_time := None;
               s3_hold_ok := false;
               rep_min_angle := None;
               rep_max_angle := None;
               start_inactive_time := t;
               INACTIVE_TIME := 0;
               start_inactive_time_front := t;
               INACTIVE_TIME_FRONT := 0;
               DISPLAY_TEXT := mkArr4 false false false false;
               COUNT_FRAMES := mkArr4 0 0 0 0;
               INCORRECT_POSTURE := false;
               CORRECT_COUNT := 0;
               INCORRECT_COUNT := 0 |}
  /\ (forall clk : nat -> Z,
        tracker_after (_hard_reset_all ;; _hard_reset_all) clk n tr
        = Some (zeroed (clk (S (S n))) (clk (S (S (S n))))))
  /\ (forall clk : nat -> Z,
        tracker_after (_reset_live_flags ;; _reset_live_flags) clk n tr
        = tracker_after _reset_live_flags clk n tr).
Proof.
  unfold tracker_after, bind.
  rewrite !hard_reset_returns.
  split; [reflexivity|]. split; [reflexivity|].
  split; intros clk.
  - rewrite !hard_reset_returns. reflexivity.
  - destruct tr. reflexivity.
Qed.

(** *** The alignment guard *)

(** C6.  Alignment guard.  On a frame with landmarks whose offset angle
    exceeds [OFFSET_THRESH], the front-view accumulator grows by the time
    elapsed since its anchor.  While the grown value stays below
    [INACTIVE_THRESH] no sound is returned, the accumulator keeps the grown
    value, the side-view accumulator is zeroed, and state sequence, current
    and previous state, both rep counters, the per-rep fields and the banner
    flags and counters are unchanged.  Once the grown value has reached
    [INACTIVE_THRESH] the call returns ['reset_counters'] and leaves the
    zeroed tracker.  On an aligned frame the front-view accumulator is zero
    afterwards and the frame is classified: its state is committed as
    [prev_state]. *)
Theorem alignment_guard (th : Thresholds) (tr : Tracker) (fr : Frame) :
  pose_landmarks fr = true ->
  let clk := perf_counter_at fr in
  let grown := INACTIVE_TIME_FRONT tr + (clk 0%nat - start_inactive_time_front tr) in
  (OFFSET_THRESH th < offset_angle fr -> grown < INACTIVE_THRESH th ->
     exists tr',
       call th tr fr = Some (tr', None)
       /\ INACTIVE_TIME_FRONT tr' = grown
       /\ start_inactive_time_front tr' = clk 0%nat
       /\ INACTIVE_TIME tr' = 0
       /\ start_inactive_time tr' = clk 1%nat
       /\ rep_logic_untouched tr tr')
  /\ (OFFSET_THRESH th < offset_angle fr -> INACTIVE_THRESH th <= grown ->
       call th tr fr = Some (zeroed (clk 3%nat) (clk 2%nat), Some reset_counters))
  /\ (offset_angle fr <= OFFSET_THRESH th -> range_inv tr ->
       exists tr' play_sound,
         call th tr fr = Some (tr', play_sound)
         /\ INACTIVE_TIME_FRONT tr' = 0
         /\ prev_state tr' = _get_state th (180 - hip_angle fr)).
Proof.
  intros Hp clk grown. subst clk grown.
  unfold call, process. rewrite Hp. cbn [negb].
  split; [|split].
  - intros Ho Hacc.
    apply Z.ltb_lt in Ho. rewrite Ho.
    apply Z.leb_gt in Hacc.
    destruct tr. py_unfold. cbn [INACTIVE_TIME_FRONT start_inactive_time_front] in Hacc. rewrite Hacc.
    eexists. split; [reflexivity|].
    unfold rep_logic_untouched. cbn. repeat split; reflexivity.
  - intros Ho Hacc.
    apply Z.ltb_lt in Ho. rewrite Ho.
    apply Z.leb_le in Hacc.
    destruct tr. py_unfold. cbn [INACTIVE_TIME_FRONT start_inactive_time_front] in Hacc. rewrite Hacc.
    reflexivity.
  - intros Ho Hr.
    apply Z.ltb_ge in Ho. rewrite Ho.
    destruct tr. unfold range_inv in Hr. cbn in Hr.
    py_unfold.
    destruct (_get_state th (180 - hip_angle fr)) as [[| |]|];
      repeat split_outcome; try contradiction; eauto.
Qed.

(** A misaligned frame under the beginner profile, half a second after the
    front anchor. *)
Lemma alignment_guard_witness :
  exists tr',
    call get_thresholds_leg_raises_beginner (init_tracker 0 0)
         (mkFrame true 50 175 180 0 (fun _ => 500)) = Some (tr', None)
    /\ INACTIVE_TIME_FRONT tr' = 500
    /\ start_inactive_time_front tr' = 500
    /\ INACTIVE_TIME tr' = 0
    /\ start_inactive_time tr' = 500
    /\ rep_logic_untouched (init_tracker 0 0) tr'.
Proof.
  refine (proj1 (alignment_guard get_thresholds_leg_raises_beginner (init_tracker 0 0)
                   (mkFrame true 50 175 180 0 (fun _ => 500)) _) _ _).
  - reflexivity.
  - cbn; lia.
  - cbn; lia.
Defined.

(** *** The state sequence *)

Lemma legal_seq_cases (seq : list State) :
  legal_seq seq <-> seq = [] \/ seq = [s2] \/ seq = [s2; s3] \/ seq = [s2; s3; s2].
Proof.
  split.
  - intros [rest H].
    destruct seq as [|a [|b [|c [|d seq]]]]; cbn in H; inversion H; subst; auto.
  - intros [H|[H|[H|H]]]; subst;
      [exists [s2; s3; s2] | exists [s3; s2] | exists [s2] | exists []]; reflexivity.
Qed.

Lemma next_state_seq_legal (st : option State) (seq : list State) :
  legal_seq seq -> legal_seq (next_state_seq st seq).
Proof.
  rewrite !legal_seq_cases.
  intros [H|[H|[H|H]]]; subst; destruct st as [[| |]|]; cbn; auto.
Qed.

Lemma feed_legal (states : list (option State)) (seq : list State) :
  legal_seq seq -> legal_seq (feed states seq).
Proof.
  revert seq. induction states as [|st states IH]; intros seq H; cbn.
  - exact H.
  - apply IH, next_state_seq_legal, H.
Qed.

Lemma feed_without_s2 (states : list (option State)) :
  ~ In (Some s2) states -> feed states [] = [].
Proof.
  induction states as [|st states IH]; intros H; cbn.
  - reflexivity.
  - destruct st as [[| |]|]; cbn.
    + apply IH. intros F. apply H. right. exact F.
    + exfalso. apply H. left. reflexivity.
    + apply IH. intros F. apply H. right. exact F.
    + apply IH. intros F. apply H. right. exact F.
Qed.

(** *** Rep resolution *)

Lemma seq_eqb_eq (a b : list State) : seq_eqb a b = true <-> a = b.
Proof.
  revert b. induction a as [|x a IH]; intros [|y b]; cbn; split; intros H;
    try discriminate; try reflexivity.
  - apply andb_prop in H. destruct H as [Hx Hab].
    apply IH in Hab. subst.
    destruct x, y; try discriminate; reflexivity.
  - inversion H; subst. apply andb_true_intro. split.
    + destruct y; reflexivity.
    + apply IH. reflexivity.
Qed.

Lemma drop_check_returns (clk : nat -> Z) (n : nat) (tr : Tracker) :
  drop_check clk n tr
  = Returns tt n
      (if opt_State_eqb (prev_state tr) (Some s3)
       then set_INCORRECT_POSTURE true
              (set_DISPLAY_TEXT (set4 I3 true (DISPLAY_TEXT tr)) tr)
       else tr).
Proof.
  unfold drop_check, bind, gets, modify, ret.
  destruct (opt_State_eqb (prev_state tr) (Some s3)); reflexivity.
Qed.

Lemma verdict_correct (th : Thresholds) (clk : nat -> Z) (n : nat) (tr : Tracker) :
  full_rep th tr ->
  verdict th clk n tr
  = Returns (Some (count_str (CORRECT_COUNT tr + 1))) n
      (set_CORRECT_COUNT (CORRECT_COUNT tr + 1) tr).
Proof.
  intros (Hs & Hp & Hh & lo & hi & Hlo & Hhi & Hr).
  unfold verdict, bind, gets, modify, ret.
  rewrite Hs, Hp, Hh, Hlo, Hhi.
  apply Z.leb_le in Hr. rewrite Hr. reflexivity.
Qed.

Lemma verdict_incorrect (th : Thresholds) (clk : nat -> Z) (n : nat) (tr : Tracker) :
  ~ full_rep th tr ->
  verdict th clk n tr
  = Returns (Some incorrect) n
      (set_INCORRECT_COUNT (INCORRECT_COUNT tr + 1)
         (if mem s2 (state_seq tr) && negb (mem s3 (state_seq tr))
          then set_DISPLAY_TEXT (set4 I2 true (DISPLAY_TEXT tr)) tr
          else tr)).
Proof.
  intros Hn.
  unfold verdict, bind, gets, modify, ret.
  destruct ((length (state_seq tr) =? 3)%nat && seq_eqb (state_seq tr) [s2; s3; s2]
            && negb (INCORRECT_POSTURE tr) && s3_hold_ok tr
            && match rep_min_angle tr with
               | Some lo => match rep_max_angle tr with
                            | Some hi => REP_MIN_RANGE th <=? hi - lo
                            | None => false
                            end
               | None => false
               end) eqn:E.
  - exfalso. apply Hn.
    apply andb_prop in E. destruct E as [E Hr].
    apply andb_prop in E. destruct E as [E Hh].
    apply andb_prop in E. destruct E as [E Hp].
    apply andb_prop in E. destruct E as [_ Hs].
    apply seq_eqb_eq in Hs.
    apply negb_true_iff in Hp.
    destruct (rep_min_angle tr) as [lo|] eqn:Hlo; [|discriminate].
    destruct (rep_max_angle tr) as [hi|] eqn:Hhi; [|discriminate].
    apply Z.leb_le in Hr.
    split; [exact Hs|]. split; [exact Hp|]. split; [exact Hh|].
    exists lo, hi. auto.
  - destruct (mem s2 (state_seq tr) && negb (mem s3 (state_seq tr))); reflexivity.
Qed.

Lemma reset_per_rep_returns (clk : nat -> Z) (n : nat) (tr : Tracker) :
  exists tr',
    reset_per_rep clk n tr = Returns tt n tr'
    /\ cleared_per_rep tr'
    /\ CORRECT_COUNT tr' = CORRECT_COUNT tr
    /\ INCORRECT_COUNT tr' = INCORRECT_COUNT tr
    /\ prev_state tr' = prev_state tr
    /\ curr_state tr' = curr_state tr.
Proof.
  eexists. split; [reflexivity|].
  unfold cleared_per_rep. cbn. repeat split; reflexivity.
Qed.

Lemma full_rep_dec (th : Thresholds) (tr : Tracker) : full_rep th tr \/ ~ full_rep th tr.
Proof.
  unfold full_rep.
  destruct (seq_eqb (state_seq tr) [s2; s3; s2]) eqn:Es.
  2:{ right. intros (H & _). apply seq_eqb_eq in H. congruence. }
  apply seq_eqb_eq in Es.
  destruct (INCORRECT_POSTURE tr); [right; intros (_ & H & _); discriminate|].
  destruct (s3_hold_ok tr); [|right; intros (_ & _ & H & _); discriminate].
  destruct (rep_min_angle tr) as [lo|].
  2:{ right. intros (_ & _ & _ & lo & hi & H & _). discriminate. }
  destruct (rep_max_angle tr) as [hi|].
  2:{ right. intros (_ & _ & _ & lo' & hi & _ & H & _). discriminate. }
  destruct (Z_le_gt_dec (REP_MIN_RANGE th) (hi - lo)) as [H|H].
  - left. split; [exact Es|]. split; [reflexivity|]. split; [reflexivity|].
    exists lo, hi. auto.
  - right. intros (_ & _ & _ & lo' & hi' & H1 & H2 & H3).
    inversion H1; inversion H2; subst. lia.
Qed.

(** *** The aligned path, phase by phase *)

Lemma aligned_phases (th : Thresholds) (fr : Frame) (clk : nat -> Z) (n : nat)
    (tr : Tracker) :
  aligned th fr clk n tr
  = let st := _get_state th (180 - hip_angle fr) in
    match classify th st (180 - hip_angle fr) (Z.max 0 (180 - knee_internal fr))
            (torso_tilt fr) clk (S n)
            (set_start_inactive_time_front (clk n) (set_INACTIVE_TIME_FRONT 0 tr)) with
    | Returns ps n1 tr1 => watch_and_sweep th st ps clk n1 tr1
    | Raises e => Raises e
    end.
Proof. reflexivity. Qed.

Lemma side_inactivity_returns (th : Thresholds) (ps : option Sound) (clk : nat -> Z)
    (n : nat) (tr : Tracker) :
  side_inactivity th ps clk n tr
  = if opt_State_eqb (curr_state tr) (prev_state tr) then
      if INACTIVE_THRESH th <=? INACTIVE_TIME tr + (clk n - start_inactive_time tr)
      then Returns (Some reset_counters) (S (S (S n))) (zeroed (clk (S n)) (clk (S (S n))))
      else Returns ps (S n)
             (set_start_inactive_time (clk n)
                (set_INACTIVE_TIME (INACTIVE_TIME tr + (clk n - start_inactive_time tr)) tr))
    else Returns ps (S n) (set_INACTIVE_TIME 0 (set_start_inactive_time (clk n) tr)).
Proof.
  destruct tr. unfold side_inactivity, bind, gets.
  cbn [curr_state prev_state].
  destruct (opt_State_eqb curr_state0 prev_state0); [|reflexivity].
  unfold perf_counter, modify, bind.
  cbn [INACTIVE_TIME start_inactive_time set_INACTIVE_TIME set_start_inactive_time].
  destruct (INACTIVE_THRESH th <=? INACTIVE_TIME0 + (clk n - start_inactive_time0));
    reflexivity.
Qed.

Lemma banner_ttl_returns (th : Thresholds) (clk : nat -> Z) (n : nat) (tr : Tracker) :
  exists tr',
    banner_ttl th clk n tr = Returns tt n tr'
    /\ (forall i, get4 i (DISPLAY_TEXT tr')
                  = swept_flag th (get4 i (DISPLAY_TEXT tr)) (get4 i (COUNT_FRAMES tr)))
    /\ (forall i, get4 i (COUNT_FRAMES tr')
                  = swept_count th (get4 i (DISPLAY_TEXT tr)) (get4 i (COUNT_FRAMES tr)))
    /\ state_seq tr' = state_seq tr
    /\ prev_state tr' = prev_state tr
    /\ curr_state tr' = curr_state tr
    /\ s3_enter_time tr' = s3_enter_time tr
    /\ s3_hold_ok tr' = s3_hold_ok tr
    /\ rep_min_angle tr' = rep_min_angle tr
    /\ rep_max_angle tr' = rep_max_angle tr
    /\ start_inactive_time tr' = start_inactive_time tr
    /\ INACTIVE_TIME tr' = INACTIVE_TIME tr
    /\ start_inactive_time_front tr' = start_inactive_time_front tr
    /\ INACTIVE_TIME_FRONT tr' = INACTIVE_TIME_FRONT tr
    /\ INCORRECT_POSTURE tr' = INCORRECT_POSTURE tr
    /\ CORRECT_COUNT tr' = CORRECT_COUNT tr
    /\ INCORRECT_COUNT tr' = INCORRECT_COUNT tr.
Proof.
  destruct tr as [? ? ? ? ? ? ? ? ? ? ? [d0 d1 d2 d3] [c0 c1 c2 c3] ? ? ?].
  unfold banner_ttl, bind, modify, gets. cbv zeta.
  eexists. split; [reflexivity|].
  cbn. unfold swept_flag, swept_count.
  split; [intros []; cbn; reflexivity|].
  split; [intros []; cbn; reflexivity|].
  repeat split; reflexivity.
Qed.

Lemma resolve_rep_returns (th : Thresholds) (clk : nat -> Z) (n : nat) (tr : Tracker) :
  exists play_sound tr',
    resolve_rep th clk n tr = Returns play_sound n tr'
    /\ cleared_per_rep tr'
    /\ watchdog_untouched tr tr'
    /\ curr_state tr' = curr_state tr
    /\ (full_rep th (at_verdict tr) ->
          play_sound = Some (count_str (CORRECT_COUNT tr + 1))
          /\ CORRECT_COUNT tr' = CORRECT_COUNT tr + 1
          /\ INCORRECT_COUNT tr' = INCORRECT_COUNT tr)
    /\ (~ full_rep th (at_verdict tr) ->
          play_sound = Some incorrect
          /\ CORRECT_COUNT tr' = CORRECT_COUNT tr
          /\ INCORRECT_COUNT tr' = INCORRECT_COUNT tr + 1).
Proof.
  unfold resolve_rep, decide_rep, bind.
  rewrite drop_check_returns. fold (at_verdict tr).
  assert (Hsame : CORRECT_COUNT (at_verdict tr) = CORRECT_COUNT tr
                  /\ INCORRECT_COUNT (at_verdict tr) = INCORRECT_COUNT tr
                  /\ watchdog_untouched tr (at_verdict tr)
                  /\ curr_state (at_verdict tr) = curr_state tr).
  { unfold at_verdict, watchdog_untouched.
    destruct (opt_State_eqb (prev_state tr) (Some s3)); cbn; auto 10. }
  destruct Hsame as (Hc & Hi & Hw & Hcur).
  destruct (full_rep_dec th (at_verdict tr)) as [Hf|Hf].
  - rewrite (verdict_correct th clk n _ Hf).
    destruct tr; unfold at_verdict in *; cbn [prev_state] in *.
    destruct (opt_State_eqb prev_state0 (Some s3));
      (do 2 eexists; split; [reflexivity|]);
      unfold cleared_per_rep, watchdog_untouched; cbn;
      (split; [repeat split; reflexivity|]);
      (split; [repeat split; reflexivity|]);
      (split; [reflexivity|]);
      (split; [intros _; repeat split; reflexivity|]);
      intros F; contradiction.
  - rewrite (verdict_incorrect th clk n _ Hf).
    destruct tr; unfold at_verdict in *; cbn [prev_state] in *.
    destruct (opt_State_eqb prev_state0 (Some s3));
      match goal with
      | |- context [if ?b then _ else _] => destruct b
      end;
      (do 2 eexists; split; [reflexivity|]);
      unfold cleared_per_rep, watchdog_untouched; cbn;
      (split; [repeat split; reflexivity|]);
      (split; [repeat split; reflexivity|]);
      (split; [reflexivity|]);
      (split; [intros F; contradiction|]);
      intros _; repeat split; reflexivity.
Qed.

(** What comes before the branch on ['s1'] when the frame is classified
    ['s1']: the range is tracked if a rep is open, the hold timer anchor is
    dropped. *)
Lemma classify_s1 (th : Thresholds) (hv kf tilt : Z) (clk : nat -> Z) (n : nat)
    (tr : Tracker) :
  range_inv tr ->
  exists tr0,
    classify th (Some s1) hv kf tilt clk n tr = resolve_rep th clk n tr0
    /\ state_seq tr0 = state_seq tr
    /\ curr_state tr0 = Some s1
    /\ watchdog_untouched tr tr0
    /\ s3_hold_ok tr0 = s3_hold_ok tr
    /\ INCORRECT_POSTURE tr0 = INCORRECT_POSTURE tr
    /\ CORRECT_COUNT tr0 = CORRECT_COUNT tr
    /\ INCORRECT_COUNT tr0 = INCORRECT_COUNT tr
    /\ range_inv tr0.
Proof.
  intros Hr. destruct tr. unfold range_inv in *. cbn [rep_min_angle rep_max_angle] in Hr.
  py_phase. cbn [next_state_seq]. unfold watchdog_untouched.
  destruct (mem s2 state_seq0).
  - destruct rep_min_angle0 as [lo|], rep_max_angle0 as [hi|]; try contradiction;
      (eexists; split; [reflexivity|]); cbn; repeat split; auto; lia.
  - destruct rep_min_angle0 as [lo|], rep_max_angle0 as [hi|]; try contradiction;
      (eexists; split; [reflexivity|]); cbn; repeat split; auto.
Qed.

Lemma watch_and_sweep_returns (th : Thresholds) (st : option State) (ps : option Sound)
    (clk : nat -> Z) (n : nat) (tr : Tracker) :
  exists n' tr',
    watch_and_sweep th st ps clk n tr
    = Returns (by_priority (side_fires th clk n tr) ps) n' tr'
    /\ prev_state tr' = st
    /\ (side_fires th clk n tr = true ->
        cleared_per_rep tr'
        /\ CORRECT_COUNT tr' = 0 /\ INCORRECT_COUNT tr' = 0
        /\ curr_state tr' = None
        /\ INACTIVE_TIME tr' = 0 /\ INACTIVE_TIME_FRONT tr' = 0)
    /\ (side_fires th clk n tr = false ->
        carried tr tr'
        /\ start_inactive_time tr' = clk n
        /\ INACTIVE_TIME tr'
           = (if opt_State_eqb (curr_state tr) (prev_state tr)
              then INACTIVE_TIME tr + (clk n - start_inactive_time tr) else 0)
        /\ (forall i, get4 i (DISPLAY_TEXT tr')
                      = swept_flag th (get4 i (DISPLAY_TEXT tr)) (get4 i (COUNT_FRAMES tr)))
        /\ (forall i, get4 i (COUNT_FRAMES tr')
                      = swept_count th (get4 i (DISPLAY_TEXT tr)) (get4 i (COUNT_FRAMES tr)))).
Proof.
  unfold watch_and_sweep, bind. rewrite side_inactivity_returns.
  unfold side_fires, by_priority, cleared_per_rep, carried.
  destruct (opt_State_eqb (curr_state tr) (prev_state tr)); cbn [andb].
  - destruct (INACTIVE_THRESH th <=? _).
    + unfold banner_ttl, bind, modify, gets, ret, zeroed, swept_flag, swept_count.
      cbv zeta. py_fields. cbn [where4 map4 at0 at1 at2 at3 full4].
      do 2 eexists. split; [reflexivity|].
      split; [reflexivity|].
      split; [|discriminate].
      intros _. cbn. unfold full4, where4, map4. cbn.
      destruct (CNT_FRAME_THRESH th <? 0); auto 15.
    + destruct tr as [? ? ? ? ? ? ? ? ? ? ? [d0 d1 d2 d3] [c0 c1 c2 c3] ? ? ?].
      unfold banner_ttl, bind, modify, gets, ret. cbv zeta.
      do 2 eexists. split; [reflexivity|].
      split; [reflexivity|].
      split; [discriminate|].
      intros _. cbn. unfold swept_flag, swept_count.
      repeat split; try reflexivity; intros []; reflexivity.
  - destruct tr as [? ? ? ? ? ? ? ? ? ? ? [d0 d1 d2 d3] [c0 c1 c2 c3] ? ? ?].
    unfold banner_ttl, bind, modify, gets, ret. cbv zeta.
    do 2 eexists. split; [reflexivity|].
    split; [reflexivity|].
    split; [discriminate|].
    intros _. cbn. unfold swept_flag, swept_count.
    repeat split; try reflexivity; intros []; reflexivity.
Qed.

(** C4.  Rep resolution, the branch taken on a frame classified ['s1'].
    With [tr1] the tracker when the verdict is taken (after a drop from
    ['s3'] has been latched as a posture error): the rep resolves CORRECT,
    [CORRECT_COUNT] grows by one and the new count is the returned sound,
    iff [state_seq] is exactly [['s2','s3','s2']], [INCORRECT_POSTURE] is
    false, [s3_hold_ok] is true and [rep_max_angle - rep_min_angle] is at
    least [REP_MIN_RANGE]; otherwise [INCORRECT_COUNT] grows by one, the
    sound is ['incorrect'], and the RAISE HIGHER flag is set when ['s2'] is
    in [state_seq] and ['s3'] is not.  Either way the branch ends with
    [state_seq] and all per-rep fields cleared and the counters kept.  A
    frame classified ['s1'] always takes this branch, from a tracker with
    the state sequence, hold flag, posture flag and counters it had when
    the frame came in. *)
Theorem rep_resolution (th : Thresholds) (clk : nat -> Z) (n : nat) (tr : Tracker) :
  (exists tr1 tr2 tr3 play_sound,
    drop_check clk n tr = Returns tt n tr1
    /\ verdict th clk n tr1 = Returns play_sound n tr2
    /\ resolve_rep th clk n tr = Returns play_sound n tr3
    /\ INCORRECT_POSTURE tr1
       = INCORRECT_POSTURE tr || opt_State_eqb (prev_state tr) (Some s3)
    /\ state_seq tr1 = state_seq tr
    /\ s3_hold_ok tr1 = s3_hold_ok tr
    /\ rep_min_angle tr1 = rep_min_angle tr
    /\ rep_max_angle tr1 = rep_max_angle tr
    /\ (full_rep th tr1 ->
          play_sound = Some (count_str (CORRECT_COUNT tr + 1))
          /\ CORRECT_COUNT tr2 = CORRECT_COUNT tr + 1
          /\ INCORRECT_COUNT tr2 = INCORRECT_COUNT tr)
    /\ (~ full_rep th tr1 ->
          play_sound = Some incorrect
          /\ INCORRECT_COUNT tr2 = INCORRECT_COUNT tr + 1
          /\ CORRECT_COUNT tr2 = CORRECT_COUNT tr
          /\ (mem s2 (state_seq tr) = true -> mem s3 (state_seq tr) = false ->
              get4 I2 (DISPLAY_TEXT tr2) = true))
    /\ cleared_per_rep tr3
    /\ CORRECT_COUNT tr3 = CORRECT_COUNT tr2
    /\ INCORRECT_COUNT tr3 = INCORRECT_COUNT tr2)
  /\ (forall hv kf tilt,
        range_inv tr ->
        exists tr0,
          classify th (Some s1) hv kf tilt clk n tr = resolve_rep th clk n tr0
          /\ state_seq tr0 = state_seq tr
          /\ prev_state tr0 = prev_state tr
          /\ s3_hold_ok tr0 = s3_hold_ok tr
          /\ INCORRECT_POSTURE tr0 = INCORRECT_POSTURE tr
          /\ CORRECT_COUNT tr0 = CORRECT_COUNT tr
          /\ INCORRECT_COUNT tr0 = INCORRECT_COUNT tr).
Proof.
  split.
  2:{ intros hv kf tilt Hr.
      destruct (classify_s1 th hv kf tilt clk n tr Hr)
        as (tr0 & Hcl & Hs & _ & (Hp & _) & Hh & Hpo & Hc & Hi & _).
      exists tr0. auto 10. }
  pose (tr1 := if opt_State_eqb (prev_state tr) (Some s3)
               then set_INCORRECT_POSTURE true
                      (set_DISPLAY_TEXT (set4 I3 true (DISPLAY_TEXT tr)) tr)
               else tr).
  assert (H1 : drop_check clk n tr = Returns tt n tr1) by apply drop_check_returns.
  assert (Hp : INCORRECT_POSTURE tr1
               = INCORRECT_POSTURE tr || opt_State_eqb (prev_state tr) (Some s3)).
  { subst tr1. destruct (opt_State_eqb (prev_state tr) (Some s3)); cbn.
    - rewrite Bool.orb_true_r. reflexivity.
    - rewrite Bool.orb_false_r. reflexivity. }
  assert (Hsame : state_seq tr1 = state_seq tr /\ s3_hold_ok tr1 = s3_hold_ok tr
                  /\ rep_min_angle tr1 = rep_min_angle tr
                  /\ rep_max_angle tr1 = rep_max_angle tr
                  /\ CORRECT_COUNT tr1 = CORRECT_COUNT tr
                  /\ INCORRECT_COUNT tr1 = INCORRECT_COUNT tr).
  { subst tr1. destruct (opt_State_eqb (prev_state tr) (Some s3)); cbn; auto 10. }
  destruct Hsame as (Hs & Hh & Hlo & Hhi & Hc & Hi).
  destruct (full_rep_dec th tr1) as [Hf|Hf].
  - pose proof (verdict_correct th clk n tr1 Hf) as H2.
    destruct (reset_per_rep_returns clk n (set_CORRECT_COUNT (CORRECT_COUNT tr1 + 1) tr1))
      as (tr3 & H3 & Hcl & Hc3 & Hi3 & _).
    exists tr1, (set_CORRECT_COUNT (CORRECT_COUNT tr1 + 1) tr1), tr3,
      (Some (count_str (CORRECT_COUNT tr1 + 1))).
    split; [exact H1|]. split; [exact H2|].
    split.
    { unfold resolve_rep, decide_rep, bind. rewrite H1, H2, H3. reflexivity. }
    split; [exact Hp|].
    repeat (split; [assumption|]).
    split.
    { intros _. cbn. rewrite Hc, Hi. auto. }
    split; [intros F; contradiction|].
    auto.
  - pose proof (verdict_incorrect th clk n tr1 Hf) as H2.
    match type of H2 with _ = Returns _ _ ?t => set (tr2 := t) in * end.
    destruct (reset_per_rep_returns clk n tr2) as (tr3 & H3 & Hcl & Hc3 & Hi3 & _).
    exists tr1, tr2, tr3, (Some incorrect).
    split; [exact H1|]. split; [exact H2|].
    split.
    { unfold resolve_rep, decide_rep, bind. rewrite H1, H2, H3. reflexivity. }
    split; [exact Hp|].
    repeat (split; [assumption|]).
    split; [intros F; contradiction|].
    split.
    { intros _. subst tr2. rewrite Hs.
      destruct (mem s2 (state_seq tr)), (mem s3 (state_seq tr)); cbn;
        rewrite ?Hc, ?Hi; repeat split; auto; discriminate. }
    auto.
Qed.

(** A tracker at rest after a full, held, wide enough rep. *)
Lemma rep_resolution_witness :
  exists tr1 tr2 tr3 play_sound,
    let tr := set_state_seq [s2; s3; s2] (set_s3_hold_ok true
                (set_rep_min_angle (Some 5) (set_rep_max_angle (Some 70)
                   (set_prev_state (Some s2) (init_tracker 0 0))))) in
    let th := get_thresholds_leg_raises_beginner in
    drop_check (fun _ => 0) 0%nat tr = Returns tt 0%nat tr1
    /\ verdict th (fun _ => 0) 0%nat tr1 = Returns play_sound 0%nat tr2
    /\ resolve_rep th (fun _ => 0) 0%nat tr = Returns play_sound 0%nat tr3
    /\ full_rep th tr1
    /\ play_sound = Some (count_str 1)
    /\ CORRECT_COUNT tr2 = 1
    /\ INCORRECT_COUNT tr2 = 0
    /\ cleared_per_rep tr3.
Proof.
  destruct (proj1 (rep_resolution get_thresholds_leg_raises_beginner (fun _ => 0) 0%nat
              (set_state_seq [s2; s3; s2] (set_s3_hold_ok true
                (set_rep_min_angle (Some 5) (set_rep_max_angle (Some 70)
                   (set_prev_state (Some s2) (init_tracker 0 0))))))))
    as (tr1 & tr2 & tr3 & ps & H1 & H2 & H3 & _ & _ & _ & _ & _ & Hok & _ & Hcl & _).
  exists tr1, tr2, tr3, ps. cbv zeta.
  assert (Hf : full_rep get_thresholds_leg_raises_beginner tr1).
  { cbv in H1. inversion H1; subst tr1.
    unfold full_rep. cbn. split; [reflexivity|]. split; [reflexivity|].
    split; [reflexivity|]. exists 5, 70. cbn. split; [reflexivity|].
    split; [reflexivity|]. lia. }
  destruct (Hok Hf) as (Hs & Hc & Hi).
  split; [exact H1|]. split; [exact H2|]. split; [exact H3|].
  split; [exact Hf|]. split; [exact Hs|].
  split; [rewrite Hc; reflexivity|].
  split; [rewrite Hi; reflexivity|].
  exact Hcl.
Defined.

Lemma arr4_ext {A} (a b : Arr4 A) : (forall i, get4 i a = get4 i b) -> a = b.
Proof.
  intros H. destruct a, b.
  pose proof (H I0) as H0. pose proof (H I1) as H1.
  pose proof (H I2) as H2. pose proof (H I3) as H3.
  cbn in *. congruence.
Qed.

(** The sweep leaves cleared banners cleared. *)
Lemma swept_cleared (th : Thresholds) (tr1 tr' : Tracker) :
  DISPLAY_TEXT tr1 = full4 false ->
  COUNT_FRAMES tr1 = full4 0 ->
  (forall i, get4 i (DISPLAY_TEXT tr')
             = swept_flag th (get4 i (DISPLAY_TEXT tr1)) (get4 i (COUNT_FRAMES tr1))) ->
  (forall i, get4 i (COUNT_FRAMES tr')
             = swept_count th (get4 i (DISPLAY_TEXT tr1)) (get4 i (COUNT_FRAMES tr1))) ->
  DISPLAY_TEXT tr' = full4 false /\ COUNT_FRAMES tr' = full4 0.
Proof.
  intros Hd Hn Hd' Hn'. rewrite Hd, Hn in *.
  split; apply arr4_ext; intros i; rewrite ?Hd', ?Hn';
    unfold swept_flag, swept_count; destruct i; cbn;
    destruct (CNT_FRAME_THRESH th <? 0); reflexivity.
Qed.

Lemma cleared_range_inv (tr : Tracker) : cleared_per_rep tr -> range_inv tr.
Proof.
  intros (_ & _ & _ & _ & _ & _ & Hlo & Hhi).
  unfold range_inv. rewrite Hlo, Hhi. exact I.
Qed.

Lemma full_rep_at_verdict_seq (th : Thresholds) (tr : Tracker) :
  full_rep th (at_verdict tr) -> state_seq tr = [s2; s3; s2].
Proof.
  intros (Hs & _). unfold at_verdict in Hs.
  destruct (opt_State_eqb (prev_state tr) (Some s3)); exact Hs.
Qed.

(** A frame classified ['s2'], ['s3'] or not at all: the classification
    returns no sound, leaves the counters and what the watchdog reads, and
    keeps the range fields consistent. *)
Lemma classify_moving (th : Thresholds) (st : option State) (hv kf tilt : Z)
    (clk : nat -> Z) (n : nat) (tr : Tracker) :
  st <> Some s1 ->
  range_inv tr ->
  exists tr1,
    classify th st hv kf tilt clk n tr = Returns None (hold_reads st + n) tr1
    /\ curr_state tr1 = st
    /\ watchdog_untouched tr tr1
    /\ CORRECT_COUNT tr1 = CORRECT_COUNT tr
    /\ INCORRECT_COUNT tr1 = INCORRECT_COUNT tr
    /\ state_seq tr1 = next_state_seq st (state_seq tr)
    /\ range_inv tr1.
Proof.
  intros Hst Hr. destruct tr. unfold range_inv, watchdog_untouched, hold_reads in *.
  cbn [rep_min_angle rep_max_angle] in Hr.
  destruct st as [[| |]|]; try congruence; clear Hst;
    destruct rep_min_angle0 as [lo|], rep_max_angle0 as [hi|]; try contradiction;
    py_phase; repeat split_outcome;
    (eexists; split; [reflexivity|]); cbn;
    repeat match goal with
           | H : ?b = _ |- context [?b] => rewrite H
           end;
    repeat split; auto; try lia.
Qed.

(** The classification phase of an aligned frame, whatever its state. *)
Lemma classify_returns (th : Thresholds) (st : option State) (hv kf tilt : Z)
    (clk : nat -> Z) (n : nat) (tr : Tracker) :
  range_inv tr ->
  exists ps1 tr1,
    classify th st hv kf tilt clk n tr = Returns ps1 (hold_reads st + n) tr1
    /\ curr_state tr1 = st
    /\ watchdog_untouched tr tr1
    /\ range_inv tr1
    /\ (ps1 = None /\ st <> Some s1
        \/ ps1 = Some incorrect /\ st = Some s1
        \/ ps1 = Some (count_str (CORRECT_COUNT tr + 1)) /\ st = Some s1).
Proof.
  intros Hr.
  assert (Hd : st = Some s1 \/ st <> Some s1).
  { destruct st as [[| |]|]; auto; right; discriminate. }
  destruct Hd as [Hs|Hs].
  - subst st.
    destruct (classify_s1 th hv kf tilt clk n tr Hr)
      as (tr0 & Hcl & _ & Hcur0 & Hw0 & _ & _ & Hc0 & _ & _).
    destruct (resolve_rep_returns th clk n tr0)
      as (ps1 & tr1 & Hres & Hclr & Hw1 & Hcur1 & Hok & Hko).
    exists ps1, tr1. rewrite Hcl, Hres.
    split; [reflexivity|].
    split; [congruence|].
    split.
    { unfold watchdog_untouched in *.
      destruct Hw0 as (? & ? & ? & ? & ?), Hw1 as (? & ? & ? & ? & ?).
      repeat split; congruence. }
    split; [apply cleared_range_inv, Hclr|].
    destruct (full_rep_dec th (at_verdict tr0)) as [Hf|Hf].
    + right. right. destruct (Hok Hf) as (-> & _). rewrite Hc0. auto.
    + right. left. destruct (Hko Hf) as (-> & _). auto.
  - destruct (classify_moving th st hv kf tilt clk n tr Hs Hr)
      as (tr1 & Hcl & Hcur & Hw & _ & _ & _ & Hr1).
    exists None, tr1. auto 10.
Qed.

(** C9.  One event per call, hard reset first.  A call returns a single
    value that is the hard-reset sound, a correct count, ['incorrect'] or
    nothing.  It is the hard-reset sound whenever an inactivity watchdog
    fires during the call, also when the rep resolution of the same frame
    had chosen a count or ['incorrect'] before, and both counters are zero
    then; otherwise it is the resolution's choice, which is absent on frames
    that are not classified ['s1']. *)
Theorem one_event_by_priority (th : Thresholds) (tr : Tracker) (fr : Frame) :
  range_inv tr ->
  exists tr' play_sound,
    call th tr fr = Some (tr', play_sound)
    /\ play_sound = by_priority (watchdog_fires th tr fr) (resolution_sound th tr fr)
    /\ (resolution_sound th tr fr = None
        \/ resolution_sound th tr fr = Some incorrect
        \/ resolution_sound th tr fr = Some (count_str (CORRECT_COUNT tr + 1)))
    /\ (watchdog_fires th tr fr = true ->
        play_sound = Some reset_counters
        /\ CORRECT_COUNT tr' = 0 /\ INCORRECT_COUNT tr' = 0).
Proof.
  intros Hr.
  unfold call, process, watchdog_fires, resolution_sound, by_priority. cbv zeta.
  destruct (negb (pose_landmarks fr)).
  { destruct tr. py_unfold.
    destruct (INACTIVE_THRESH th <=? _);
      (do 2 eexists; split; [reflexivity|]); cbn;
      (split; [reflexivity|]); (split; [left; reflexivity|]);
      intros F; first [discriminate F | auto]. }
  destruct (OFFSET_THRESH th <? offset_angle fr).
  { destruct tr. py_unfold.
    destruct (INACTIVE_THRESH th <=? _);
      (do 2 eexists; split; [reflexivity|]); cbn;
      (split; [reflexivity|]); (split; [left; reflexivity|]);
      intros F; first [discriminate F | auto]. }
  rewrite aligned_phases. cbv zeta.
  set (clk := perf_counter_at fr).
  set (st := _get_state th (180 - hip_angle fr)).
  set (tr_a := set_start_inactive_time_front (clk 0%nat) (set_INACTIVE_TIME_FRONT 0 tr)).
  assert (Hra : range_inv tr_a) by (destruct tr; exact Hr).
  destruct (classify_returns th st (180 - hip_angle fr) (Z.max 0 (180 - knee_internal fr))
              (torso_tilt fr) clk 1%nat tr_a Hra)
    as (ps1 & tr1 & Hcl & Hcur & (Hw1 & Hw2 & Hw3 & _) & _ & Hps).
  rewrite Hcl.
  destruct (watch_and_sweep_returns th st ps1 clk (hold_reads st + 1)%nat tr1)
    as (n' & tr' & Hws & _ & Hfire & _).
  rewrite Hws.
  assert (Hsf : side_fires th clk (hold_reads st + 1)%nat tr1
                = opt_State_eqb st (prev_state tr)
                  && (INACTIVE_THRESH th
                      <=? INACTIVE_TIME tr
                          + (clk (S (hold_reads st)) - start_inactive_time tr))).
  { unfold side_fires. rewrite Hcur, Hw1, Hw2, Hw3.
    replace (hold_reads st + 1)%nat with (S (hold_reads st)) by lia.
    destruct tr; reflexivity. }
  rewrite <- Hsf.
  replace (CORRECT_COUNT tr_a) with (CORRECT_COUNT tr) in Hps by (destruct tr; reflexivity).
  assert (Hres : ps1 = None \/ ps1 = Some incorrect
                 \/ ps1 = Some (count_str (CORRECT_COUNT tr + 1))).
  { destruct Hps as [(? & _)|[(? & _)|(? & _)]]; auto. }
  exists tr', (by_priority (side_fires th clk (hold_reads st + 1)%nat tr1) ps1).
  split; [reflexivity|]. split; [reflexivity|]. split; [exact Hres|].
  intros Hf. rewrite Hf. destruct (Hfire Hf) as (_ & Hc' & Hi' & _).
  auto.
Qed.

(** A resting frame arrives when the tracker has seen the rest state for
    over 15 seconds: the resolution had chosen ['incorrect'], the call
    returns ['reset_counters']. *)
Lemma one_event_by_priority_witness :
  let th := get_thresholds_leg_raises_beginner in
  let tr := set_prev_state (Some s1) (set_INCORRECT_COUNT 7 (init_tracker 0 0)) in
  let fr := frame_at 5 15100 in
  resolution_sound th tr fr = Some incorrect
  /\ watchdog_fires th tr fr = true
  /\ exists tr',
       call th tr fr = Some (tr', Some reset_counters)
       /\ CORRECT_COUNT tr' = 0 /\ INCORRECT_COUNT tr' = 0.
Proof.
  cbv zeta.
  split; [reflexivity|]. split; [reflexivity|].
  match goal with
  | |- exists tr', call ?th ?tr ?fr = _ /\ _ =>
      destruct (one_event_by_priority th tr fr) as (tr' & ps & Hcall & Hps & _ & Hfire)
  end.
  - exact I.
  - exists tr'.
    destruct (Hfire eq_refl) as (Hs & Hc & Hi).
    rewrite Hs in Hcall. auto.
Defined.

(** *** The range fields along a run *)

Lemma mem_next_state_seq (x : State) (st : option State) (seq : list State) :
  mem x seq = true -> mem x (next_state_seq st seq) = true.
Proof.
  intros H. unfold next_state_seq.
  destruct st as [[| |]|]; auto;
    match goal with
    | |- context [if ?b then _ else _] => destruct b
    end; auto;
    unfold mem in *; rewrite existsb_app, H; reflexivity.
Qed.

Lemma classify_open (th : Thresholds) (st : option State) (hv kf tilt : Z)
    (clk : nat -> Z) (n : nat) (tr : Tracker) :
  st <> Some s1 ->
  (mem s2 (state_seq tr) = false -> rep_min_angle tr = None) ->
  match classify th st hv kf tilt clk n tr with
  | Returns _ _ tr1 => mem s2 (state_seq tr1) = false -> rep_min_angle tr1 = None
  | Raises _ => True
  end.
Proof.
  intros Hst Ho. destruct tr. py_fields.
  destruct st as [[| |]|]; try congruence; clear Hst.
  all: py_phase.
  all: repeat split_outcome.
  all: try exact I.
  all: try (intros _; reflexivity).
  all: try congruence.
  all: intros F.
  all: destruct (mem s2 state_seq0) eqn:E;
         [rewrite (mem_next_state_seq _ _ _ E) in F; discriminate|].
  all: first [exact (Ho eq_refl) | discriminate (Ho eq_refl)].
Qed.

Lemma call_keeps_range (th : Thresholds) (tr : Tracker) (fr : Frame) :
  rep_open_inv tr ->
  exists tr' ps, call th tr fr = Some (tr', ps) /\ rep_open_inv tr'.
Proof.
  intros [Hr Ho].
  unfold call, process.
  destruct (negb (pose_landmarks fr)).
  { destruct tr. unfold rep_open_inv, range_inv in *. py_unfold. py_fields.
    destruct (INACTIVE_THRESH th <=? _);
      (do 2 eexists; split; [reflexivity|]); py_fields; auto. }
  destruct (OFFSET_THRESH th <? offset_angle fr).
  { destruct tr. unfold rep_open_inv, range_inv in *. py_unfold. py_fields.
    destruct (INACTIVE_THRESH th <=? _);
      (do 2 eexists; split; [reflexivity|]); py_fields; auto. }
  rewrite aligned_phases. cbv zeta.
  set (clk := perf_counter_at fr).
  set (st := _get_state th (180 - hip_angle fr)).
  set (tr_a := set_start_inactive_time_front (clk 0%nat) (set_INACTIVE_TIME_FRONT 0 tr)).
  assert (Hra : range_inv tr_a) by (destruct tr; exact Hr).
  assert (Hoa : mem s2 (state_seq tr_a) = false -> rep_min_angle tr_a = None)
    by (destruct tr; exact Ho).
  destruct (classify_returns th st (180 - hip_angle fr) (Z.max 0 (180 - knee_internal fr))
              (torso_tilt fr) clk 1%nat tr_a Hra)
    as (ps1 & tr1 & Hcl & _ & _ & Hr1 & Hps).
  assert (Ho1 : mem s2 (state_seq tr1) = false -> rep_min_angle tr1 = None).
  { assert (Hd : st = Some s1 \/ st <> Some s1).
    { destruct st as [[| |]|]; auto; right; discriminate. }
    destruct Hd as [Hs|Hs].
    - rewrite Hs in Hcl.
      destruct (classify_s1 th (180 - hip_angle fr) (Z.max 0 (180 - knee_internal fr))
                  (torso_tilt fr) clk 1%nat tr_a Hra) as (tr0 & Hcl0 & _).
      destruct (resolve_rep_returns th clk 1%nat tr0)
        as (ps0 & tr1' & Hres & Hclr & _).
      rewrite Hcl0, Hres in Hcl. inversion Hcl; subst.
      intros _. apply Hclr.
    - pose proof (classify_open th st (180 - hip_angle fr)
                    (Z.max 0 (180 - knee_internal fr)) (torso_tilt fr) clk 1%nat tr_a
                    Hs Hoa) as H.
      rewrite Hcl in H. exact H. }
  rewrite Hcl.
  destruct (watch_and_sweep_returns th st ps1 clk (hold_reads st + 1)%nat tr1)
    as (n' & tr' & Hws & _ & Hfire & Hquiet).
  rewrite Hws. do 2 eexists. split; [reflexivity|].
  destruct (side_fires th clk (hold_reads st + 1)%nat tr1).
  - destruct (Hfire eq_refl) as (Hclr & _).
    split; [apply cleared_range_inv, Hclr|]. intros _. apply Hclr.
  - destruct (Hquiet eq_refl) as ((Hs' & _ & _ & _ & Hlo' & Hhi' & _) & _).
    unfold rep_open_inv, range_inv in *. rewrite Hs', Hlo', Hhi'. auto.
Qed.

Lemma run_keeps_range (th : Thresholds) (frames : list Frame) (tr : Tracker) :
  rep_open_inv tr ->
  exists tr' sounds, run th tr frames = Some (tr', sounds) /\ rep_open_inv tr'.
Proof.
  revert tr. induction frames as [|fr frames IH]; intros tr Hinv; cbn [run].
  - exists tr, []. auto.
  - destruct (call_keeps_range th tr fr Hinv) as (tr1 & ps & Hcall & Hinv1).
    rewrite Hcall.
    destruct (IH tr1 Hinv1) as (tr' & sounds & Hrun & Hinv').
    rewrite Hrun. exists tr', (ps :: sounds). auto.
Qed.

(** C8.  Range fields.  Every run of frames from a new session returns,
    and at the frame boundary it reaches [rep_min_angle] and
    [rep_max_angle] are set or unset together, are unset while ['s2'] is not
    in [state_seq], and satisfy [rep_min_angle <= rep_max_angle] when set.
    The tracking step, on any tracker with consistent range fields: nothing
    while ['s2'] is not in [state_seq]; both fields to the current angle
    when ['s2'] is there and they are unset; their minimum and maximum with
    the current angle afterwards. *)
Theorem range_pair_ordered (th : Thresholds) (t0 t1 : Z) (frames : list Frame) :
  (exists tr sounds,
     run th (init_tracker t0 t1) frames = Some (tr, sounds)
     /\ (rep_min_angle tr = None <-> rep_max_angle tr = None)
     /\ (forall lo hi,
           rep_min_angle tr = Some lo -> rep_max_angle tr = Some hi -> lo <= hi)
     /\ (mem s2 (state_seq tr) = false ->
         rep_min_angle tr = None /\ rep_max_angle tr = None))
  /\ forall (tr0 : Tracker) (ang : Z) (clk : nat -> Z) (n : nat),
       range_inv tr0 ->
       exists tr1,
         track_range ang clk n tr0 = Returns tt n tr1
         /\ (mem s2 (state_seq tr0) = false -> tr1 = tr0)
         /\ (mem s2 (state_seq tr0) = true -> rep_min_angle tr0 = None ->
             rep_min_angle tr1 = Some ang /\ rep_max_angle tr1 = Some ang)
         /\ (mem s2 (state_seq tr0) = true ->
             forall lo hi,
               rep_min_angle tr0 = Some lo -> rep_max_angle tr0 = Some hi ->
               rep_min_angle tr1 = Some (Z.min lo ang)
               /\ rep_max_angle tr1 = Some (Z.max hi ang))
         /\ range_inv tr1.
Proof.
  split.
  - destruct (run_keeps_range th frames (init_tracker t0 t1)) as (tr & sounds & Hrun & Hr & Ho).
    { split; [exact I|]. intros _. reflexivity. }
    exists tr, sounds. split; [exact Hrun|].
    unfold range_inv in Hr.
    destruct (rep_min_angle tr) as [lo|] eqn:Hlo, (rep_max_angle tr) as [hi|] eqn:Hhi;
      try contradiction.
    + split; [split; discriminate|].
      split; [intros lo' hi' H1 H2; inversion H1; inversion H2; subst; exact Hr|].
      intros Hm. discriminate (Ho Hm).
    + split; [split; reflexivity|].
      split; [intros lo' hi' H1; discriminate|].
      auto.
  - intros tr0 ang clk n Hr. destruct tr0. unfold range_inv in *.
    cbn [rep_min_angle rep_max_angle] in Hr.
    unfold track_range, bind, gets, modify, ret. py_fields.
    destruct (mem s2 state_seq0).
    + destruct rep_min_angle0 as [lo|], rep_max_angle0 as [hi|]; try contradiction;
        (eexists; split; [reflexivity|]); cbn.
      * split; [discriminate|]. split; [discriminate|].
        split; [|lia].
        intros _ lo' hi' H1 H2. inversion H1; inversion H2; subst. auto.
      * split; [discriminate|]. split; [auto|].
        split; [|lia].
        intros _ lo' hi' H1. discriminate.
    + eexists. split; [reflexivity|].
      split; [reflexivity|]. split; [discriminate|]. split; [discriminate|].
      exact Hr.
Qed.

(** *** A call on an aligned frame, summed up *)

Lemma call_aligned (th : Thresholds) (tr : Tracker) (fr : Frame) (st : option State) :
  classified th fr st ->
  range_inv tr ->
  exists ps1 tr1 tr',
    classify th st (180 - hip_angle fr) (Z.max 0 (180 - knee_internal fr))
      (torso_tilt fr) (perf_counter_at fr) 1%nat (front_reset fr tr)
    = Returns ps1 (hold_reads st + 1) tr1
    /\ call th tr fr = Some (tr', by_priority (stalls th tr fr st) ps1)
    /\ prev_state tr' = st
    /\ range_inv tr1
    /\ (stalls th tr fr st = true ->
        cleared_per_rep tr'
        /\ CORRECT_COUNT tr' = 0 /\ INCORRECT_COUNT tr' = 0
        /\ curr_state tr' = None
        /\ INACTIVE_TIME tr' = 0 /\ INACTIVE_TIME_FRONT tr' = 0)
    /\ (stalls th tr fr st = false ->
        carried tr1 tr'
        /\ start_inactive_time tr' = perf_counter_at fr (S (hold_reads st))
        /\ INACTIVE_TIME tr'
           = (if opt_State_eqb st (prev_state tr)
              then INACTIVE_TIME tr
                   + (perf_counter_at fr (S (hold_reads st)) - start_inactive_time tr)
              else 0)
        /\ (forall i, get4 i (DISPLAY_TEXT tr')
                      = swept_flag th (get4 i (DISPLAY_TEXT tr1)) (get4 i (COUNT_FRAMES tr1)))
        /\ (forall i, get4 i (COUNT_FRAMES tr')
                      = swept_count th (get4 i (DISPLAY_TEXT tr1)) (get4 i (COUNT_FRAMES tr1)))).
Proof.
  intros (Hp & Ho & Hst) Hr.
  unfold call, process. rewrite Hp. cbn [negb].
  apply Z.ltb_ge in Ho. rewrite Ho.
  rewrite aligned_phases. cbv zeta. rewrite Hst.
  fold (front_reset fr tr).
  set (clk := perf_counter_at fr).
  assert (Hra : range_inv (front_reset fr tr)) by (destruct tr; exact Hr).
  destruct (classify_returns th st (180 - hip_angle fr) (Z.max 0 (180 - knee_internal fr))
              (torso_tilt fr) clk 1%nat (front_reset fr tr) Hra)
    as (ps1 & tr1 & Hcl & Hcur & (Hw1 & Hw2 & Hw3 & _) & Hr1 & _).
  rewrite Hcl.
  destruct (watch_and_sweep_returns th st ps1 clk (hold_reads st + 1)%nat tr1)
    as (n' & tr' & Hws & Hprev & Hfire & Hquiet).
  rewrite Hws.
  assert (Hsf : side_fires th clk (hold_reads st + 1)%nat tr1 = stalls th tr fr st).
  { unfold side_fires, stalls. fold clk. rewrite Hcur, Hw1, Hw2, Hw3.
    replace (hold_reads st + 1)%nat with (S (hold_reads st)) by lia.
    destruct tr; reflexivity. }
  rewrite Hsf in *.
  rewrite Hcur, Hw1, Hw2, Hw3 in Hquiet.
  replace (hold_reads st + 1)%nat with (S (hold_reads st)) in Hquiet by lia.
  replace (prev_state (front_reset fr tr)) with (prev_state tr) in Hquiet
    by (destruct tr; reflexivity).
  replace (INACTIVE_TIME (front_reset fr tr)) with (INACTIVE_TIME tr) in Hquiet
    by (destruct tr; reflexivity).
  replace (start_inactive_time (front_reset fr tr)) with (start_inactive_time tr) in Hquiet
    by (destruct tr; reflexivity).
  exists ps1, tr1, tr'. auto 10.
Qed.

(** *** The state sequence along a run *)

Lemma call_state_seq (th : Thresholds) (tr : Tracker) (fr : Frame) :
  range_inv tr ->
  exists tr' ps,
    call th tr fr = Some (tr', ps)
    /\ (state_seq tr' = []
        \/ state_seq tr' = state_seq tr
        \/ exists st, state_seq tr' = next_state_seq st (state_seq tr)).
Proof.
  intros Hr.
  destruct (pose_landmarks fr) eqn:Hp.
  2:{ unfold call, process. rewrite Hp. cbn [negb].
      destruct tr. py_unfold.
      destruct (INACTIVE_THRESH th <=? _);
        (do 2 eexists; split; [reflexivity|]); py_fields; auto. }
  destruct (OFFSET_THRESH th <? offset_angle fr) eqn:Ho.
  { unfold call, process. rewrite Hp, Ho. cbn [negb].
    destruct tr. py_unfold.
    destruct (INACTIVE_THRESH th <=? _);
      (do 2 eexists; split; [reflexivity|]); py_fields; auto. }
  apply Z.ltb_ge in Ho.
  set (st := _get_state th (180 - hip_angle fr)).
  destruct (call_aligned th tr fr st) as
    (ps1 & tr1 & tr' & Hcl & Hcall & _ & _ & Hfire & Hquiet); auto.
  { repeat split; auto. }
  exists tr', (by_priority (stalls th tr fr st) ps1). split; [exact Hcall|].
  destruct (stalls th tr fr st).
  { left. apply (Hfire eq_refl). }
  destruct (Hquiet eq_refl) as ((Hs & _) & _). rewrite Hs.
  assert (Hra : range_inv (front_reset fr tr)) by (destruct tr; exact Hr).
  assert (Hd : st = Some s1 \/ st <> Some s1).
  { destruct st as [[| |]|]; auto; right; discriminate. }
  destruct Hd as [Hd|Hd].
  - left. rewrite Hd in Hcl.
    destruct (classify_s1 th (180 - hip_angle fr) (Z.max 0 (180 - knee_internal fr))
                (torso_tilt fr) (perf_counter_at fr) 1%nat (front_reset fr tr) Hra)
      as (tr0 & Hcl0 & _).
    destruct (resolve_rep_returns th (perf_counter_at fr) 1%nat tr0)
      as (ps0 & tr1' & Hres & Hclr & _).
    rewrite Hcl0, Hres in Hcl. inversion Hcl; subst. apply Hclr.
  - right. right. exists st.
    destruct (classify_moving th st (180 - hip_angle fr) (Z.max 0 (180 - knee_internal fr))
                (torso_tilt fr) (perf_counter_at fr) 1%nat (front_reset fr tr) Hd Hra)
      as (tr1' & Hcl' & _ & _ & _ & _ & Hs1 & _).
    rewrite Hcl in Hcl'. inversion Hcl'; subst.
    rewrite Hs1. destruct tr; reflexivity.
Qed.

Lemma run_keeps_legal (th : Thresholds) (frames : list Frame) (tr : Tracker) :
  rep_open_inv tr ->
  legal_seq (state_seq tr) ->
  exists tr' sounds,
    run th tr frames = Some (tr', sounds)
    /\ rep_open_inv tr'
    /\ legal_seq (state_seq tr').
Proof.
  revert tr. induction frames as [|fr frames IH]; intros tr Hinv Hleg; cbn [run].
  - exists tr, []. auto.
  - destruct (call_keeps_range th tr fr Hinv) as (tr1 & ps & Hcall & Hinv1).
    destruct (call_state_seq th tr fr (proj1 Hinv)) as (tr1' & ps' & Hcall' & Hseq).
    rewrite Hcall in Hcall'. inversion Hcall'; subst tr1' ps'. clear Hcall'.
    rewrite Hcall.
    assert (Hleg1 : legal_seq (state_seq tr1)).
    { destruct Hseq as [H|[H|(st & H)]]; rewrite H.
      - exists [s2; s3; s2]. reflexivity.
      - exact Hleg.
      - apply next_state_seq_legal, Hleg. }
    destruct (IH tr1 Hinv1 Hleg1) as (tr' & sounds & Hrun & Hinv' & Hleg').
    rewrite Hrun. exists tr', (ps :: sounds). auto.
Qed.

(** *** The hold timer *)

Lemma classify_hold (th : Thresholds) (st : option State) (hv kf tilt : Z)
    (clk : nat -> Z) (n : nat) (tr : Tracker) :
  st <> Some s1 ->
  match classify th st hv kf tilt clk n tr with
  | Returns _ _ tr1 =>
      (st = Some s3 ->
       match s3_enter_time tr with
       | None => s3_enter_time tr1 = Some (clk n) /\ s3_hold_ok tr1 = s3_hold_ok tr
       | Some t0 =>
           s3_enter_time tr1 = Some t0
           /\ s3_hold_ok tr1 = s3_hold_ok tr || (TARGET_HOLD <=? clk n - t0)
       end)
      /\ (st <> Some s3 -> s3_enter_time tr1 = None /\ s3_hold_ok tr1 = s3_hold_ok tr)
  | Raises _ => True
  end.
Proof.
  intros Hst. destruct tr. py_fields.
  destruct st as [[| |]|]; try congruence; clear Hst.
  all: py_phase.
  all: repeat split_outcome.
  all: try exact I.
  all: split; [intros E; try discriminate E|intros E; try (contradiction E; reflexivity)].
  all: try (split; reflexivity).
  all: py_fields.
  all: repeat match goal with
              | H : (TARGET_HOLD <=? _) = _ |- _ => rewrite H
              end.
  all: destruct s3_hold_ok0; split; reflexivity.
Qed.

Lemma call_hold (th : Thresholds) (tr : Tracker) (fr : Frame) (st : option State) :
  classified th fr st ->
  st <> Some s1 ->
  range_inv tr ->
  exists tr' ps,
    call th tr fr = Some (tr', ps)
    /\ (ps <> Some reset_counters ->
        (st = Some s3 ->
         match s3_enter_time tr with
         | None =>
             s3_enter_time tr' = Some (hold_read fr) /\ s3_hold_ok tr' = s3_hold_ok tr
         | Some t0 =>
             s3_enter_time tr' = Some t0
             /\ s3_hold_ok tr' = s3_hold_ok tr || (TARGET_HOLD <=? hold_read fr - t0)
         end)
        /\ (st <> Some s3 ->
            s3_enter_time tr' = None /\ s3_hold_ok tr' = s3_hold_ok tr)).
Proof.
  intros Hc Hst Hr.
  destruct (call_aligned th tr fr st Hc Hr)
    as (ps1 & tr1 & tr' & Hcl & Hcall & _ & _ & _ & Hquiet).
  exists tr', (by_priority (stalls th tr fr st) ps1).
  split; [exact Hcall|].
  intros Hps.
  destruct (stalls th tr fr st); [contradiction Hps; reflexivity|].
  destruct (Hquiet eq_refl) as ((_ & _ & He & Hh & _) & _).
  pose proof (classify_hold th st (180 - hip_angle fr) (Z.max 0 (180 - knee_internal fr))
                (torso_tilt fr) (perf_counter_at fr) 1%nat (front_reset fr tr) Hst) as H.
  rewrite Hcl in H. rewrite He, Hh.
  replace (s3_enter_time (front_reset fr tr)) with (s3_enter_time tr) in H
    by (destruct tr; reflexivity).
  replace (s3_hold_ok (front_reset fr tr)) with (s3_hold_ok tr) in H
    by (destruct tr; reflexivity).
  exact H.
Qed.

Lemma dwell_in_s3 (th : Thresholds) (bs : list Frame) (tr : Tracker) (t0 : Z) :
  Forall (fun b => classified th b (Some s3)) bs ->
  rep_open_inv tr ->
  s3_enter_time tr = Some t0 ->
  exists tr' sounds,
    run th tr bs = Some (tr', sounds)
    /\ (~ In (Some reset_counters) sounds ->
        s3_enter_time tr' = Some t0
        /\ (s3_hold_ok tr' = true
            <-> s3_hold_ok tr = true
                \/ exists b, In b bs /\ TARGET_HOLD <= hold_read b - t0)).
Proof.
  revert tr. induction bs as [|b bs IH]; intros tr Hall Hinv Hent; cbn [run].
  - exists tr, []. split; [reflexivity|]. intros _. split; [exact Hent|].
    split; [auto|]. intros [H|(b & [] & _)]. exact H.
  - inversion Hall as [|? ? Hb Hbs]; subst.
    destruct (call_keeps_range th tr b Hinv) as (tr1 & ps & Hcall & Hinv1).
    destruct (call_hold th tr b (Some s3) Hb ltac:(discriminate) (proj1 Hinv))
      as (tr1' & ps' & Hcall' & Hhold).
    rewrite Hcall in Hcall'. inversion Hcall'; subst tr1' ps'. clear Hcall'.
    rewrite Hcall.
    assert (Hd : ps = Some reset_counters \/ ps <> Some reset_counters).
    { destruct ps as [[| |]|]; auto; right; discriminate. }
    destruct Hd as [Hd|Hd].
    + destruct (run_keeps_range th bs tr1 Hinv1) as (tr' & sounds & Hrun & _).
      rewrite Hrun. exists tr', (ps :: sounds). split; [reflexivity|].
      intros Hno. exfalso. apply Hno. left. exact Hd.
    + destruct (Hhold Hd) as (Hs3 & _). specialize (Hs3 eq_refl).
      rewrite Hent in Hs3. destruct Hs3 as (Hent1 & Hok1).
      destruct (IH tr1 Hbs Hinv1 Hent1) as (tr' & sounds & Hrun & Hrest).
      rewrite Hrun. exists tr', (ps :: sounds). split; [reflexivity|].
      intros Hno.
      destruct Hrest as (Hent' & Hiff).
      { intros F. apply Hno. right. exact F. }
      split; [exact Hent'|].
      rewrite Hiff, Hok1, Bool.orb_true_iff, Z.leb_le.
      split.
      * intros [[H|H]|(b' & Hin & Hb')]; auto.
        -- right. exists b. split; [left; reflexivity|exact H].
        -- right. exists b'. split; [right; exact Hin|exact Hb'].
      * intros [H|(b' & [Hin|Hin] & Hb')]; auto.
        -- subst b'. auto.
        -- right. exists b'. auto.
Qed.

(** C2, as the code has it.  The hold target is the constant [TARGET_HOLD]
    of [process], 5 seconds, for every profile; the profile's [HOLD_SEC] is
    not read.  On a frame classified ['s2'], ['s3'] or not at all, unless a
    hard reset fires: in ['s3'] a missing timer anchor is set to the
    current reading and a present one is kept, [s3_hold_ok] becoming true
    once the reading is [TARGET_HOLD] or more past the anchor; outside
    ['s3'] the anchor is cleared; in both cases a true [s3_hold_ok] stays
    true.  So, over consecutive ['s3'] frames entered without an anchor,
    [s3_hold_ok] is true afterwards iff it was before or some later frame of
    the stay came [TARGET_HOLD] or more after the first.  Scenario B, with
    0.3 s at the top, resolves as incorrect. *)
Theorem hold_latch (th : Thresholds) :
  TARGET_HOLD = 5000
  /\ (forall tr fr st,
        classified th fr st -> st <> Some s1 -> range_inv tr ->
        exists tr' ps,
          call th tr fr = Some (tr', ps)
          /\ (ps <> Some reset_counters ->
              (st = Some s3 ->
               match s3_enter_time tr with
               | None =>
                   s3_enter_time tr' = Some (hold_read fr)
                   /\ s3_hold_ok tr' = s3_hold_ok tr
               | Some t0 =>
                   s3_enter_time tr' = Some t0
                   /\ s3_hold_ok tr' = s3_hold_ok tr || (TARGET_HOLD <=? hold_read fr - t0)
               end)
              /\ (st <> Some s3 ->
                  s3_enter_time tr' = None /\ s3_hold_ok tr' = s3_hold_ok tr)
              /\ (s3_hold_ok tr = true -> s3_hold_ok tr' = true)))
  /\ (forall tr b0 bs,
        Forall (fun b => classified th b (Some s3)) (b0 :: bs) ->
        rep_open_inv tr ->
        s3_enter_time tr = None ->
        exists tr' sounds,
          run th tr (b0 :: bs) = Some (tr', sounds)
          /\ (~ In (Some reset_counters) sounds ->
              s3_enter_time tr' = Some (hold_read b0)
              /\ (s3_hold_ok tr' = true
                  <-> s3_hold_ok tr = true
                      \/ exists b, In b bs /\ TARGET_HOLD <= hold_read b - hold_read b0)))
  /\ (exists tr,
        run get_thresholds_leg_raises_beginner (init_tracker 0 0) scenario_B
        = Some (tr, [Some incorrect; None; None; None; Some incorrect])
        /\ CORRECT_COUNT tr = 0
        /\ INCORRECT_COUNT tr = 2).
Proof.
  split; [reflexivity|].
  split; [|split].
  - intros tr fr st Hc Hst Hr.
    destruct (call_hold th tr fr st Hc Hst Hr) as (tr' & ps & Hcall & Hhold).
    exists tr', ps. split; [exact Hcall|].
    intros Hps. destruct (Hhold Hps) as (H3 & Hn3).
    split; [exact H3|]. split; [exact Hn3|].
    intros Hok.
    assert (Hd : st = Some s3 \/ st <> Some s3).
    { destruct st as [[| |]|]; auto; right; discriminate. }
    destruct Hd as [Hd|Hd].
    + specialize (H3 Hd). destruct (s3_enter_time tr); destruct H3 as (_ & ->);
        rewrite Hok; reflexivity.
    + destruct (Hn3 Hd) as (_ & ->). exact Hok.
  - intros tr b0 bs Hall Hinv Hent.
    inversion Hall as [|? ? Hb Hbs]; subst.
    cbn [run].
    destruct (call_keeps_range th tr b0 Hinv) as (tr1 & ps & Hcall & Hinv1).
    destruct (call_hold th tr b0 (Some s3) Hb ltac:(discriminate) (proj1 Hinv))
      as (tr1' & ps' & Hcall' & Hhold).
    rewrite Hcall in Hcall'. inversion Hcall'; subst tr1' ps'. clear Hcall'.
    rewrite Hcall.
    assert (Hd : ps = Some reset_counters \/ ps <> Some reset_counters).
    { destruct ps as [[| |]|]; auto; right; discriminate. }
    destruct Hd as [Hd|Hd].
    + destruct (run_keeps_range th bs tr1 Hinv1) as (tr' & sounds & Hrun & _).
      rewrite Hrun. exists tr', (ps :: sounds). split; [reflexivity|].
      intros Hno. exfalso. apply Hno. left. exact Hd.
    + destruct (Hhold Hd) as (Hs3 & _). specialize (Hs3 eq_refl).
      rewrite Hent in Hs3. destruct Hs3 as (Hent1 & Hok1).
      destruct (dwell_in_s3 th bs tr1 (hold_read b0) Hbs Hinv1 Hent1)
        as (tr' & sounds & Hrun & Hrest).
      rewrite Hrun. exists tr', (ps :: sounds). split; [reflexivity|].
      intros Hno.
      destruct Hrest as (Hent' & Hiff).
      { intros F. apply Hno. right. exact F. }
      split; [exact Hent'|].
      rewrite Hiff, Hok1. reflexivity.
  - eexists. split; [vm_compute; reflexivity|]. split; reflexivity.
Qed.

(** Three frames at the top under the beginner profile, the last one five
    seconds after the first. *)
Lemma hold_latch_witness :
  exists tr' sounds,
    run get_thresholds_leg_raises_beginner
      (set_state_seq [s2] (set_prev_state (Some s2) (init_tracker 0 0)))
      [frame_at 70 300; frame_at 70 2000; frame_at 70 5300]
    = Some (tr', sounds)
    /\ s3_enter_time tr' = Some 300
    /\ s3_hold_ok tr' = true.
Proof.
  destruct (proj1 (proj2 (proj2 (hold_latch get_thresholds_leg_raises_beginner)))
              (set_state_seq [s2] (set_prev_state (Some s2) (init_tracker 0 0)))
              (frame_at 70 300) [frame_at 70 2000; frame_at 70 5300])
    as (tr' & sounds & Hrun & H).
  - repeat constructor; cbn; lia.
  - split; [exact I|]. intros F. discriminate F.
  - reflexivity.
  - exists tr', sounds. split; [exact Hrun|].
    assert (Hno : ~ In (Some reset_counters) sounds).
    { vm_compute in Hrun. inversion Hrun; subst.
      intros [F|[F|[F|[]]]]; discriminate F. }
    destruct (H Hno) as (Hent & Hiff).
    split; [exact Hent|].
    apply Hiff. right. exists (frame_at 70 5300).
    split; [right; left; reflexivity|].
    unfold TARGET_HOLD, hold_read. cbn. lia.
Defined.

(** C2, as stated, fails: under the beginner profile a stay of 1.2 s at the
    top, longer than [HOLD_SEC] = 1.0 s, leaves [s3_hold_ok] false. *)
Lemma hold_sec_not_the_target :
  exists tr sounds,
    run get_thresholds_leg_raises_beginner (init_tracker 0 0) top_for_1200ms
    = Some (tr, sounds)
    /\ curr_state tr = Some s3
    /\ s3_enter_time tr = Some 300
    /\ HOLD_SEC get_thresholds_leg_raises_beginner <= 1500 - 300
    /\ s3_hold_ok tr = false.
Proof.
  do 2 eexists. split; [vm_compute; reflexivity|].
  cbn. repeat split; try reflexivity. lia.
Qed.

(** *** Banner lifetimes *)

Lemma classify_banner (th : Thresholds) (st : option State) (hv kf tilt : Z)
    (clk : nat -> Z) (n : nat) (tr : Tracker) (i : Idx4) :
  match classify th st hv kf tilt clk n tr with
  | Returns _ _ tr1 =>
      get4 i (COUNT_FRAMES tr1) = get4 i (COUNT_FRAMES tr)
      \/ (get4 i (DISPLAY_TEXT tr1) = false /\ get4 i (COUNT_FRAMES tr1) = 0)
  | Raises _ => True
  end.
Proof.
  destruct tr as [? ? ? ? ? ? ? ? ? ? ? [d0 d1 d2 d3] [c0 c1 c2 c3] ? ? ?].
  destruct st as [[| |]|].
  all: py_unfold.
  all: repeat split_outcome.
  all: try exact I.
  all: destruct i; py_fields; auto.
Qed.

(** *** A quiet call on a moving frame *)

Lemma classify_form (th : Thresholds) (st : option State) (hv kf tilt : Z)
    (clk : nat -> Z) (n : nat) (tr : Tracker) :
  st <> Some s1 ->
  match classify th st hv kf tilt clk n tr with
  | Returns _ _ tr1 =>
      INCORRECT_POSTURE tr1
      = INCORRECT_POSTURE tr
        || (negb (opt_State_eqb st (Some s3))
            && ((KNEE_LOCK_MAX th <? kf) || (TORSO_TILT_MAX th <? tilt)))
  | Raises _ => True
  end.
Proof.
  intros Hst. destruct tr. py_fields.
  destruct st as [[| |]|]; try congruence; clear Hst.
  all: py_phase.
  all: repeat split_outcome.
  all: try exact I.
  all: py_fields.
  all: repeat match goal with
              | H : (_ <? _) = _ |- _ => rewrite ?H; clear H
              end.
  all: destruct INCORRECT_POSTURE0; reflexivity.
Qed.

Lemma classify_range (th : Thresholds) (st : option State) (hv kf tilt : Z)
    (clk : nat -> Z) (n : nat) (tr : Tracker) :
  st <> Some s1 ->
  match classify th st hv kf tilt clk n tr with
  | Returns _ _ tr1 =>
      if mem s2 (next_state_seq st (state_seq tr)) then
        match rep_min_angle tr, rep_max_angle tr with
        | None, _ => rep_min_angle tr1 = Some hv /\ rep_max_angle tr1 = Some hv
        | Some lo, Some hi =>
            rep_min_angle tr1 = Some (Z.min lo hv)
            /\ rep_max_angle tr1 = Some (Z.max hi hv)
        | Some _, None => True
        end
      else rep_min_angle tr1 = rep_min_angle tr /\ rep_max_angle tr1 = rep_max_angle tr
  | Raises _ => True
  end.
Proof.
  intros Hst. destruct tr. py_fields.
  destruct st as [[| |]|]; try congruence; clear Hst.
  all: py_phase.
  all: repeat split_outcome.
  all: try exact I.
  all: py_fields.
  all: repeat match goal with
              | H : mem s2 _ = _ |- _ => rewrite H
              end.
  all: try (split; reflexivity).
  all: repeat match goal with
              | H : _ = Some _ |- _ => rewrite ?H; clear H
              | H : _ = None |- _ => rewrite ?H; clear H
              end.
  all: try (split; reflexivity).
Qed.

Lemma call_moving (th : Thresholds) (tr : Tracker) (fr : Frame) (st : option State) :
  classified th fr st ->
  st <> Some s1 ->
  range_inv tr ->
  stalls th tr fr st = false ->
  exists tr',
    call th tr fr = Some (tr', None)
    /\ prev_state tr' = st
    /\ state_seq tr' = next_state_seq st (state_seq tr)
    /\ CORRECT_COUNT tr' = CORRECT_COUNT tr
    /\ INCORRECT_COUNT tr' = INCORRECT_COUNT tr
    /\ INCORRECT_POSTURE tr' = INCORRECT_POSTURE tr || form_error th st fr
    /\ (if mem s2 (next_state_seq st (state_seq tr)) then
          match rep_min_angle tr, rep_max_angle tr with
          | None, _ =>
              rep_min_angle tr' = Some (hip_vertical fr)
              /\ rep_max_angle tr' = Some (hip_vertical fr)
          | Some lo, Some hi =>
              rep_min_angle tr' = Some (Z.min lo (hip_vertical fr))
              /\ rep_max_angle tr' = Some (Z.max hi (hip_vertical fr))
          | Some _, None => True
          end
        else rep_min_angle tr' = rep_min_angle tr
             /\ rep_max_angle tr' = rep_max_angle tr)
    /\ start_inactive_time tr' = side_read st fr
    /\ INACTIVE_TIME tr'
       = (if opt_State_eqb st (prev_state tr)
          then INACTIVE_TIME tr + (side_read st fr - start_inactive_time tr)
          else 0)
    /\ range_inv tr'
    /\ (st = Some s3 ->
        match s3_enter_time tr with
        | None =>
            s3_enter_time tr' = Some (hold_read fr) /\ s3_hold_ok tr' = s3_hold_ok tr
        | Some t0 =>
            s3_enter_time tr' = Some t0
            /\ s3_hold_ok tr' = s3_hold_ok tr || (TARGET_HOLD <=? hold_read fr - t0)
        end)
    /\ (st <> Some s3 ->
        s3_enter_time tr' = None /\ s3_hold_ok tr' = s3_hold_ok tr).
Proof.
  intros Hc Hst Hr Hq.
  destruct (call_hold th tr fr st Hc Hst Hr) as (tr0' & ps0 & Hcall0 & Hhold).
  destruct (call_aligned th tr fr st Hc Hr)
    as (ps1 & tr1 & tr' & Hcl & Hcall & Hprev & Hr1 & _ & Hquiet).
  rewrite Hq in Hcall. cbn [by_priority] in Hcall.
  destruct (Hquiet Hq)
    as ((Hs & _ & _ & _ & Hlo & Hhi & Hpo & Hcc & Hic & _) & Hstart & Hin & _).
  set (hv := 180 - hip_angle fr) in *.
  set (kf := Z.max 0 (180 - knee_internal fr)) in *.
  set (clk := perf_counter_at fr) in *.
  assert (Hra : range_inv (front_reset fr tr)) by (destruct tr; exact Hr).
  destruct (classify_moving th st hv kf (torso_tilt fr) clk 1%nat (front_reset fr tr) Hst Hra)
    as (tr1' & Hcl' & _ & _ & Hc1 & Hi1 & Hs1 & _).
  rewrite Hcl in Hcl'. inversion Hcl'; subst ps1 tr1'. clear Hcl'.
  pose proof (classify_form th st hv kf (torso_tilt fr) clk 1%nat (front_reset fr tr) Hst)
    as Hform.
  pose proof (classify_range th st hv kf (torso_tilt fr) clk 1%nat (front_reset fr tr) Hst)
    as Hrange.
  rewrite Hcl in Hform, Hrange.
  assert (Hh : (st = Some s3 ->
                match s3_enter_time tr with
                | None =>
                    s3_enter_time tr' = Some (hold_read fr)
                    /\ s3_hold_ok tr' = s3_hold_ok tr
                | Some t0 =>
                    s3_enter_time tr' = Some t0
                    /\ s3_hold_ok tr' = s3_hold_ok tr || (TARGET_HOLD <=? hold_read fr - t0)
                end)
               /\ (st <> Some s3 ->
                   s3_enter_time tr' = None /\ s3_hold_ok tr' = s3_hold_ok tr)).
  { rewrite Hcall in Hcall0.
    inversion Hcall0; subst tr0' ps0. apply Hhold. discriminate. }
  destruct Hh as (Hh3 & Hhn).
  exists tr'. split; [exact Hcall|]. split; [exact Hprev|].
  rewrite Hs, Hcc, Hic, Hpo, Hlo, Hhi, Hs1, Hc1, Hi1, Hform.
  unfold range_inv. rewrite Hlo, Hhi. fold (range_inv tr1).
  unfold form_error, hip_vertical, side_read. fold hv kf clk.
  destruct tr; cbn [front_reset] in *; py_fields.
  cbn [set_start_inactive_time_front set_INACTIVE_TIME_FRONT] in *. py_fields.
  auto 15.
Qed.

(** *** A rep, stretch by stretch *)

Lemma opt_State_eqb_refl (st : option State) : opt_State_eqb st st = true.
Proof. destruct st as [[| |]|]; reflexivity. Qed.

Lemma run_app (th : Thresholds) (xs ys : list Frame) (tr : Tracker) :
  run th tr (xs ++ ys)
  = match run th tr xs with
    | Some (tr1, sounds1) =>
        match run th tr1 ys with
        | Some (tr2, sounds2) => Some (tr2, sounds1 ++ sounds2)
        | None => None
        end
    | None => None
    end.
Proof.
  revert tr. induction xs as [|x xs IH]; intros tr; cbn [run app].
  - destruct (run th tr ys) as [[tr2 sounds2]|]; reflexivity.
  - destruct (call th tr x) as [[tr1 ps]|]; [|reflexivity].
    rewrite IH.
    destruct (run th tr1 xs) as [[tr2 sounds1]|]; [|reflexivity].
    destruct (run th tr2 ys) as [[tr3 sounds2]|]; reflexivity.
Qed.

(** The frames of a stretch after its first: the state sequence is
    settled, the range widens, nothing else moves. *)
Lemma stretch_steady (th : Thresholds) (st : option State) (f0 : Frame)
    (frames : list Frame) (tr : Tracker) (lo hi : Z) :
  st <> Some s1 ->
  prev_state tr = st ->
  next_state_seq st (state_seq tr) = state_seq tr ->
  mem s2 (state_seq tr) = true ->
  rep_min_angle tr = Some lo ->
  rep_max_angle tr = Some hi ->
  lo <= hi ->
  INCORRECT_POSTURE tr = false ->
  INACTIVE_TIME tr = start_inactive_time tr - side_read st f0 ->
  clean_stretch th st frames ->
  within_watch th st f0 frames ->
  exists tr' lo' hi',
    run th tr frames = Some (tr', repeat None (length frames))
    /\ prev_state tr' = st
    /\ state_seq tr' = state_seq tr
    /\ CORRECT_COUNT tr' = CORRECT_COUNT tr
    /\ INCORRECT_COUNT tr' = INCORRECT_COUNT tr
    /\ INCORRECT_POSTURE tr' = false
    /\ rep_min_angle tr' = Some lo'
    /\ rep_max_angle tr' = Some hi'
    /\ lo' <= lo /\ hi <= hi'
    /\ covers lo' hi' frames
    /\ (st <> Some s3 ->
        s3_hold_ok tr' = s3_hold_ok tr
        /\ (s3_enter_time tr = None -> s3_enter_time tr' = None)).
Proof.
  intros Hst. revert tr lo hi.
  induction frames as [|f frames IH];
    intros tr lo hi Hprev Hseq Hmem Hlo Hhi Hle Hpo Hin Hclean Hwatch.
  - exists tr, lo, hi. cbn [run length repeat].
    repeat split; auto; try lia. constructor.
  - inversion Hclean as [|? ? (Hf & Hform) Hclean']; subst.
    inversion Hwatch as [|? ? Hw Hwatch']; subst.
    assert (Hr : range_inv tr) by (unfold range_inv; rewrite Hlo, Hhi; exact Hle).
    assert (Hq : stalls th tr f (prev_state tr) = false).
    { unfold stalls. rewrite opt_State_eqb_refl. cbn [andb].
      apply Z.leb_gt. rewrite Hin. fold (side_read (prev_state tr) f). lia. }
    destruct (call_moving th tr f (prev_state tr) Hf Hst Hr Hq)
      as (tr1 & Hcall & Hprev1 & Hseq1 & Hc1 & Hi1 & Hpo1 & Hrange & Hstart1 & Hin1
          & _ & _ & Hn3).
    rewrite Hseq, Hmem, Hlo, Hhi in Hrange. destruct Hrange as (Hlo1 & Hhi1).
    rewrite opt_State_eqb_refl in Hin1.
    assert (G1 : prev_state tr1 = prev_state tr) by exact Hprev1.
    assert (G2 : next_state_seq (prev_state tr) (state_seq tr1) = state_seq tr1)
      by congruence.
    assert (G3 : mem s2 (state_seq tr1) = true) by congruence.
    assert (G4 : Z.min lo (hip_vertical f) <= Z.max hi (hip_vertical f)) by lia.
    assert (G5 : INCORRECT_POSTURE tr1 = false)
      by (rewrite Hpo1, Hpo, Hform; reflexivity).
    assert (G6 : INACTIVE_TIME tr1
                 = start_inactive_time tr1 - side_read (prev_state tr) f0)
      by (rewrite Hin1, Hstart1, Hin; lia).
    destruct (IH tr1 (Z.min lo (hip_vertical f)) (Z.max hi (hip_vertical f))
                G1 G2 G3 Hlo1 Hhi1 G4 G5 G6 Hclean' Hwatch')
      as (tr' & lo' & hi' & Hrun & Hprev' & Hseq' & Hc' & Hi' & Hpo' & Hlo' & Hhi'
          & Hle1 & Hle2 & Hcov & Hhold').
    exists tr', lo', hi'. cbn [run length repeat]. rewrite Hcall, Hrun.
    split; [reflexivity|]. split; [exact Hprev'|].
    split; [congruence|]. split; [congruence|]. split; [congruence|].
    split; [exact Hpo'|]. split; [exact Hlo'|]. split; [exact Hhi'|].
    split; [lia|]. split; [lia|].
    split; [constructor; [lia|exact Hcov]|].
    intros H3. destruct (Hhold' H3) as (Hh' & He'). destruct (Hn3 H3) as (He1 & Hh1).
    split; [congruence|]. intros _. apply He'. exact He1.
Qed.

(** A whole stretch, entered from another state. *)
Lemma stretch_entry (th : Thresholds) (st : option State) (f0 : Frame)
    (rest : list Frame) (tr : Tracker) :
  st <> Some s1 ->
  opt_State_eqb st (prev_state tr) = false ->
  range_inv tr ->
  INCORRECT_POSTURE tr = false ->
  mem s2 (next_state_seq st (state_seq tr)) = true ->
  next_state_seq st (next_state_seq st (state_seq tr)) = next_state_seq st (state_seq tr) ->
  clean_stretch th st (f0 :: rest) ->
  within_watch th st f0 rest ->
  exists tr' lo' hi',
    run th tr (f0 :: rest) = Some (tr', repeat None (length (f0 :: rest)))
    /\ prev_state tr' = st
    /\ state_seq tr' = next_state_seq st (state_seq tr)
    /\ CORRECT_COUNT tr' = CORRECT_COUNT tr
    /\ INCORRECT_COUNT tr' = INCORRECT_COUNT tr
    /\ INCORRECT_POSTURE tr' = false
    /\ rep_min_angle tr' = Some lo'
    /\ rep_max_angle tr' = Some hi'
    /\ lo' <= hi'
    /\ covers lo' hi' (f0 :: rest)
    /\ (forall lo hi,
          rep_min_angle tr = Some lo -> rep_max_angle tr = Some hi ->
          lo' <= lo /\ hi <= hi')
    /\ (st <> Some s3 -> s3_hold_ok tr' = s3_hold_ok tr /\ s3_enter_time tr' = None)
    /\ (st = Some s3 -> s3_enter_time tr = None ->
        s3_enter_time tr' = Some (hold_read f0)
        /\ (s3_hold_ok tr' = true
            <-> s3_hold_ok tr = true
                \/ exists b, In b rest /\ TARGET_HOLD <= hold_read b - hold_read f0)).
Proof.
  intros Hst Hne Hr Hpo Hmem Hstable Hclean Hwatch.
  inversion Hclean as [|? ? (Hf & Hform) Hclean']; subst.
  assert (Hq : stalls th tr f0 st = false).
  { unfold stalls. rewrite Hne. reflexivity. }
  destruct (call_moving th tr f0 st Hf Hst Hr Hq)
    as (tr1 & Hcall & Hprev1 & Hseq1 & Hc1 & Hi1 & Hpo1 & Hrange & Hstart1 & Hin1
        & Hr1 & H3 & Hn3).
  rewrite Hmem in Hrange. rewrite Hne in Hin1.
  assert (Hset : exists lo1 hi1,
             rep_min_angle tr1 = Some lo1 /\ rep_max_angle tr1 = Some hi1
             /\ lo1 <= hip_vertical f0 <= hi1 /\ lo1 <= hi1
             /\ forall lo hi,
                  rep_min_angle tr = Some lo -> rep_max_angle tr = Some hi ->
                  lo1 <= lo /\ hi <= hi1).
  { unfold range_inv in Hr.
    destruct (rep_min_angle tr) as [lo|], (rep_max_angle tr) as [hi|];
      try contradiction; destruct Hrange as (Hlo1 & Hhi1).
    - exists (Z.min lo (hip_vertical f0)), (Z.max hi (hip_vertical f0)).
      split; [exact Hlo1|]. split; [exact Hhi1|]. split; [lia|]. split; [lia|].
      intros lo' hi' E1 E2. inversion E1; inversion E2; subst. lia.
    - exists (hip_vertical f0), (hip_vertical f0).
      split; [exact Hlo1|]. split; [exact Hhi1|]. split; [lia|]. split; [lia|].
      intros lo' hi' E1. discriminate E1. }
  destruct Hset as (lo1 & hi1 & Hlo1 & Hhi1 & Hin01 & Hle1 & Hext).
  assert (G5 : INCORRECT_POSTURE tr1 = false)
    by (rewrite Hpo1, Hpo, Hform; reflexivity).
  assert (G6 : INACTIVE_TIME tr1 = start_inactive_time tr1 - side_read st f0)
    by (rewrite Hin1, Hstart1; lia).
  assert (G2 : next_state_seq st (state_seq tr1) = state_seq tr1) by congruence.
  assert (G3 : mem s2 (state_seq tr1) = true) by congruence.
  destruct (stretch_steady th st f0 rest tr1 lo1 hi1 Hst Hprev1 G2 G3 Hlo1 Hhi1 Hle1 G5 G6
              Hclean' Hwatch)
    as (tr' & lo' & hi' & Hrun & Hprev' & Hseq' & Hc' & Hi' & Hpo' & Hlo' & Hhi'
        & Hle2 & Hle3 & Hcov & Hhold').
  exists tr', lo', hi'. cbn [run length repeat]. rewrite Hcall, Hrun.
  split; [reflexivity|]. split; [exact Hprev'|].
  split; [congruence|]. split; [congruence|]. split; [congruence|].
  split; [exact Hpo'|]. split; [exact Hlo'|]. split; [exact Hhi'|].
  split; [lia|].
  split; [constructor; [lia|exact Hcov]|].
  split.
  { intros lo hi E1 E2. destruct (Hext lo hi E1 E2). lia. }
  split.
  { intros Hs3. destruct (Hhold' Hs3) as (Hh' & He'). destruct (Hn3 Hs3) as (He1 & Hh1).
    split; [congruence|]. apply He'. exact He1. }
  intros Hs3 Hent. specialize (H3 Hs3). rewrite Hent in H3. destruct H3 as (He1 & Hh1).
  assert (Hall : Forall (fun b => classified th b (Some s3)) rest).
  { rewrite Hs3 in Hclean'.
    eapply Forall_impl; [|exact Hclean']. intros a (Ha & _). exact Ha. }
  destruct (dwell_in_s3 th rest tr1 (hold_read f0) Hall) as (tr'' & sounds & Hrun' & Hd).
  { split; [exact Hr1|]. rewrite G3. discriminate. }
  { exact He1. }
  rewrite Hrun in Hrun'. inversion Hrun'; subst tr'' sounds. clear Hrun'.
  destruct Hd as (Hent' & Hiff).
  { intros F. apply repeat_spec in F. discriminate F. }
  split; [exact Hent'|]. rewrite Hiff, Hh1. reflexivity.
Qed.

(** The frame that closes a full, held, clean and wide enough rep. *)
Lemma call_resolve_correct (th : Thresholds) (tr : Tracker) (d : Frame) (lo hi : Z) :
  classified th d (Some s1) ->
  state_seq tr = [s2; s3; s2] ->
  prev_state tr = Some s2 ->
  INCORRECT_POSTURE tr = false ->
  s3_hold_ok tr = true ->
  rep_min_angle tr = Some lo ->
  rep_max_angle tr = Some hi ->
  REP_MIN_RANGE th <= Z.max hi (hip_vertical d) - Z.min lo (hip_vertical d) ->
  exists tr',
    call th tr d = Some (tr', Some (count_str (CORRECT_COUNT tr + 1)))
    /\ CORRECT_COUNT tr' = CORRECT_COUNT tr + 1
    /\ INCORRECT_COUNT tr' = INCORRECT_COUNT tr
    /\ at_rest tr'.
Proof.
  intros (Hp & Ho & Hst) Hseq Hprev Hpo Hhold Hlo Hhi Hrange.
  destruct tr. py_fields. subst.
  unfold call, process. rewrite Hp. cbn [negb].
  apply Z.ltb_ge in Ho. rewrite Ho.
  unfold aligned. rewrite Hst.
  apply Z.leb_le in Hrange. unfold hip_vertical in Hrange.
  py_unfold.
  cbv beta iota delta [next_state_seq mem existsb State_eqb orb length Nat.eqb seq_eqb
                       andb negb].
  rewrite Hrange.
  py_unfold.
  eexists. split; [reflexivity|].
  unfold at_rest, cleared_per_rep. py_fields.
  unfold where4, map4, full4. cbn.
  destruct (CNT_FRAME_THRESH th <? 0); repeat split; reflexivity.
Qed.

Lemma covers_widen (lo hi lo' hi' : Z) (frames : list Frame) :
  covers lo hi frames -> lo' <= lo -> hi <= hi' -> covers lo' hi' frames.
Proof.
  intros H Hlo Hhi. eapply Forall_impl; [|exact H].
  cbv beta. intros f Hf. lia.
Qed.

Lemma covers_in (lo hi : Z) (frames : list Frame) (f : Frame) :
  covers lo hi frames -> In f frames -> lo <= hip_vertical f <= hi.
Proof.
  intros H Hin. unfold covers in H. rewrite Forall_forall in H. apply H, Hin.
Qed.

Lemma s3_stretch_clean (th : Thresholds) (frames : list Frame) :
  Forall (fun f => classified th f (Some s3)) frames ->
  clean_stretch th (Some s3) frames.
Proof.
  intros H. eapply Forall_impl; [|exact H].
  intros f Hf. split; [exact Hf|reflexivity].
Qed.

(** C1, as the code has it.  From a tracker at rest, frames that go
    through the transition band, stay at the top with some frame 5 seconds
    ([TARGET_HOLD]) or more after the first frame there, come back through
    the transition band and end with one frame at rest, without form error,
    without an inactivity reset (no stretch in one state lasts
    [INACTIVE_THRESH]) and with two hip angles [REP_MIN_RANGE] or more
    apart: no call before the last returns a sound, the last returns the
    new count, [CORRECT_COUNT] has grown by exactly one and
    [INCORRECT_COUNT] is unchanged. *)
Theorem held_rep_counts_once (th : Thresholds) (tr : Tracker)
    (a0 : Frame) (A : list Frame) (b0 : Frame) (B : list Frame)
    (c0 : Frame) (C : list Frame) (d : Frame) :
  at_rest tr ->
  clean_stretch th (Some s2) (a0 :: A) ->
  within_watch th (Some s2) a0 A ->
  Forall (fun f => classified th f (Some s3)) (b0 :: B) ->
  within_watch th (Some s3) b0 B ->
  (exists b, In b B /\ TARGET_HOLD <= hold_read b - hold_read b0) ->
  clean_stretch th (Some s2) (c0 :: C) ->
  within_watch th (Some s2) c0 C ->
  classified th d (Some s1) ->
  (exists f_lo f_hi,
     In f_lo ((a0 :: A) ++ (b0 :: B) ++ (c0 :: C) ++ [d])
     /\ In f_hi ((a0 :: A) ++ (b0 :: B) ++ (c0 :: C) ++ [d])
     /\ REP_MIN_RANGE th <= hip_vertical f_hi - hip_vertical f_lo) ->
  exists tr',
    run th tr ((a0 :: A) ++ (b0 :: B) ++ (c0 :: C) ++ [d])
    = Some (tr', repeat None (length ((a0 :: A) ++ (b0 :: B) ++ (c0 :: C)))
                 ++ [Some (count_str (CORRECT_COUNT tr + 1))])
    /\ CORRECT_COUNT tr' = CORRECT_COUNT tr + 1
    /\ INCORRECT_COUNT tr' = INCORRECT_COUNT tr
    /\ at_rest tr'.
Proof.
  intros (Hprev & Hclr) HA HwA HB HwB Hheld HC HwC Hd Hwide.
  pose proof (cleared_range_inv tr Hclr) as Hr.
  destruct Hclr as (Hseq & _ & _ & Hpo & _ & Hhold0 & Hlo0 & Hhi0).
  (* up *)
  destruct (stretch_entry th (Some s2) a0 A tr) as
    (trA & loA & hiA & HrunA & HprevA & HseqA & HcA & HiA & HpoA & HloA & HhiA & HleA
     & HcovA & _ & HholdA & _); auto.
  { discriminate. }
  { rewrite Hprev. reflexivity. }
  { rewrite Hseq. reflexivity. }
  { rewrite Hseq. reflexivity. }
  rewrite Hseq in HseqA. cbn in HseqA.
  destruct (HholdA ltac:(discriminate)) as (_ & HentA).
  (* top *)
  destruct (stretch_entry th (Some s3) b0 B trA) as
    (trB & loB & hiB & HrunB & HprevB & HseqB & HcB & HiB & HpoB & HloB & HhiB & HleB
     & HcovB & HextB & _ & HholdB); auto.
  { discriminate. }
  { rewrite HprevA. reflexivity. }
  { unfold range_inv. rewrite HloA, HhiA. exact HleA. }
  { rewrite HseqA. reflexivity. }
  { rewrite HseqA. reflexivity. }
  { apply s3_stretch_clean, HB. }
  rewrite HseqA in HseqB. cbn in HseqB.
  destruct (HextB loA hiA HloA HhiA) as (HloBA & HhiAB).
  destruct (HholdB eq_refl HentA) as (_ & HokB).
  assert (HheldB : s3_hold_ok trB = true) by (apply HokB; right; exact Hheld).
  (* down *)
  destruct (stretch_entry th (Some s2) c0 C trB) as
    (trC & loC & hiC & HrunC & HprevC & HseqC & HcC & HiC & HpoC & HloC & HhiC & HleC
     & HcovC & HextC & HholdC & _); auto.
  { discriminate. }
  { rewrite HprevB. reflexivity. }
  { unfold range_inv. rewrite HloB, HhiB. exact HleB. }
  { rewrite HseqB. reflexivity. }
  { rewrite HseqB. reflexivity. }
  rewrite HseqB in HseqC. cbn in HseqC.
  destruct (HextC loB hiB HloB HhiB) as (HloCB & HhiBC).
  destruct (HholdC ltac:(discriminate)) as (HheldC & _).
  (* rest *)
  assert (Hall : covers (Z.min loC (hip_vertical d)) (Z.max hiC (hip_vertical d))
                   ((a0 :: A) ++ (b0 :: B) ++ (c0 :: C) ++ [d])).
  { unfold covers. rewrite !Forall_app. repeat split.
    - apply (covers_widen loA hiA); [exact HcovA|lia|lia].
    - apply (covers_widen loB hiB); [exact HcovB|lia|lia].
    - apply (covers_widen loC hiC); [exact HcovC|lia|lia].
    - constructor; [lia|constructor]. }
  destruct Hwide as (f_lo & f_hi & Hin_lo & Hin_hi & Hgap).
  pose proof (covers_in _ _ _ _ Hall Hin_lo) as Hflo.
  pose proof (covers_in _ _ _ _ Hall Hin_hi) as Hfhi.
  destruct (call_resolve_correct th trC d loC hiC Hd HseqC HprevC HpoC) as
    (tr' & Hcall & Hc' & Hi' & Hrest'); auto.
  { congruence. }
  { lia. }
  exists tr'.
  split.
  { rewrite !app_assoc. rewrite run_app. rewrite <- !app_assoc.
    rewrite run_app, HrunA. rewrite run_app, HrunB. rewrite HrunC.
    cbn [run]. rewrite Hcall.
    rewrite !length_app, !repeat_app.
    rewrite HcC, HcB, HcA. rewrite <- !app_assoc. reflexivity. }
  split; [lia|]. split; [lia|]. exact Hrest'.
Qed.

(** The frames of Scenario A that follow the rest, with the stay at the top
    stretched to five seconds, under the beginner profile. *)
Lemma held_rep_counts_once_witness :
  exists tr',
    run get_thresholds_leg_raises_beginner (set_prev_state (Some s1) (init_tracker 0 0))
      [frame_at 30 200; frame_at 70 300; frame_at 70 900; frame_at 70 5300;
       frame_at 70 5400; frame_at 30 5500; frame_at 5 5600]
    = Some (tr', [None; None; None; None; None; None; Some (count_str 1)])
    /\ CORRECT_COUNT tr' = 1
    /\ INCORRECT_COUNT tr' = 0.
Proof.
  destruct (held_rep_counts_once get_thresholds_leg_raises_beginner
              (set_prev_state (Some s1) (init_tracker 0 0))
              (frame_at 30 200) []
              (frame_at 70 300) [frame_at 70 900; frame_at 70 5300; frame_at 70 5400]
              (frame_at 30 5500) []
              (frame_at 5 5600))
    as (tr' & Hrun & Hc & Hi & _).
  - split; [reflexivity|]. unfold cleared_per_rep. cbn. repeat split; reflexivity.
  - repeat constructor; cbn; lia.
  - constructor.
  - repeat constructor; cbn; lia.
  - repeat constructor; cbn; lia.
  - exists (frame_at 70 5300). split; [right; left; reflexivity|].
    unfold TARGET_HOLD, hold_read. cbn. lia.
  - repeat constructor; cbn; lia.
  - constructor.
  - repeat split; cbn; lia.
  - exists (frame_at 5 5600), (frame_at 70 300).
    split; [cbn; tauto|]. split; [cbn; tauto|]. cbn. lia.
  - exists tr'. split; [exact Hrun|]. split; [exact Hc|exact Hi].
Defined.

(** C1, as stated, fails on Scenario A: with 1.2 s at the top, longer than
    the beginner's [HOLD_SEC] of 1.0 s, the rep resolves as incorrect, and
    each of the two resting frames before it has counted as incorrect
    too. *)
Lemma scenario_A_not_counted :
  exists tr,
    run get_thresholds_leg_raises_beginner (init_tracker 0 0) scenario_A
    = Some (tr, [Some incorrect; Some incorrect; None; None; None; None; None; None;
                 Some incorrect])
    /\ HOLD_SEC get_thresholds_leg_raises_beginner <= 1500 - 300
    /\ CORRECT_COUNT tr = 0
    /\ INCORRECT_COUNT tr = 3.
Proof.
  eexists. split; [vm_compute; reflexivity|].
  split; [cbn; lia|]. split; reflexivity.
Qed.

(** *** The two paths that return early *)

Lemma call_no_landmarks (th : Thresholds) (tr : Tracker) (fr : Frame) :
  pose_landmarks fr = false ->
  call th tr fr
  = if INACTIVE_THRESH th <=? idle_since tr fr
    then Some (zeroed (perf_counter_at fr 1%nat) (perf_counter_at fr 2%nat),
               Some reset_counters)
    else Some (set_start_inactive_time (perf_counter_at fr 0%nat)
                 (set_INACTIVE_TIME (idle_since tr fr) tr), None).
Proof.
  intros Hp. unfold call, process, idle_since. rewrite Hp. cbn [negb].
  destruct tr. py_unfold.
  destruct (INACTIVE_THRESH th <=? _); reflexivity.
Qed.

Lemma call_not_aligned (th : Thresholds) (tr : Tracker) (fr : Frame) :
  pose_landmarks fr = true ->
  OFFSET_THRESH th < offset_angle fr ->
  let grown := INACTIVE_TIME_FRONT tr
               + (perf_counter_at fr 0%nat - start_inactive_time_front tr) in
  call th tr fr
  = if INACTIVE_THRESH th <=? grown
    then Some (zeroed (perf_counter_at fr 3%nat) (perf_counter_at fr 2%nat),
               Some reset_counters)
    else Some (set_start_inactive_time (perf_counter_at fr 1%nat)
                 (set_INACTIVE_TIME 0
                    (set_start_inactive_time_front (perf_counter_at fr 0%nat)
                       (set_INACTIVE_TIME_FRONT grown tr))), None).
Proof.
  intros Hp Ho grown. subst grown. unfold call, process. rewrite Hp. cbn [negb].
  apply Z.ltb_lt in Ho. rewrite Ho.
  destruct tr. py_unfold.
  destruct (INACTIVE_THRESH th <=? _); reflexivity.
Qed.

(** *** A call, case by case *)

Lemma classify_s1_fields (th : Thresholds) (hv kf tilt : Z) (clk : nat -> Z) (n : nat)
    (tr : Tracker) :
  range_inv tr ->
  exists tr0,
    classify th (Some s1) hv kf tilt clk n tr = resolve_rep th clk n tr0
    /\ state_seq tr0 = state_seq tr
    /\ prev_state tr0 = prev_state tr
    /\ s3_hold_ok tr0 = s3_hold_ok tr
    /\ INCORRECT_POSTURE tr0 = INCORRECT_POSTURE tr
    /\ CORRECT_COUNT tr0 = CORRECT_COUNT tr
    /\ INCORRECT_COUNT tr0 = INCORRECT_COUNT tr
    /\ (if mem s2 (state_seq tr) then
          match rep_min_angle tr, rep_max_angle tr with
          | Some lo, Some hi =>
              rep_min_angle tr0 = Some (Z.min lo hv)
              /\ rep_max_angle tr0 = Some (Z.max hi hv)
          | _, _ => rep_min_angle tr0 = Some hv /\ rep_max_angle tr0 = Some hv
          end
        else rep_min_angle tr0 = rep_min_angle tr
             /\ rep_max_angle tr0 = rep_max_angle tr).
Proof.
  intros Hr.
  destruct tr as [seq prev cur ent hok rlo rhi ts ia tf iaf disp cnt bad cc ic].
  unfold range_inv in *. cbn [rep_min_angle rep_max_angle] in Hr.
  py_phase. cbn [next_state_seq].
  destruct (mem s2 seq).
  - destruct rlo as [lo|], rhi as [hi|]; try contradiction;
      (eexists; split; [reflexivity|]); cbn; repeat split; auto.
  - destruct rlo as [lo|], rhi as [hi|]; try contradiction;
      (eexists; split; [reflexivity|]); cbn; repeat split; auto.
Qed.

Lemma mem_s2_full : mem s2 [s2; s3; s2] = true.
Proof. reflexivity. Qed.

(** The verdict's test, read on the tracker the call starts with. *)
Lemma full_rep_counts_as_rep (th : Thresholds) (tr tr0 : Tracker) (fr : Frame) :
  range_inv tr ->
  state_seq tr0 = state_seq tr ->
  prev_state tr0 = prev_state tr ->
  s3_hold_ok tr0 = s3_hold_ok tr ->
  INCORRECT_POSTURE tr0 = INCORRECT_POSTURE tr ->
  (if mem s2 (state_seq tr) then
     match rep_min_angle tr, rep_max_angle tr with
     | Some lo, Some hi =>
         rep_min_angle tr0 = Some (Z.min lo (hip_vertical fr))
         /\ rep_max_angle tr0 = Some (Z.max hi (hip_vertical fr))
     | _, _ => rep_min_angle tr0 = Some (hip_vertical fr)
               /\ rep_max_angle tr0 = Some (hip_vertical fr)
     end
   else rep_min_angle tr0 = rep_min_angle tr
        /\ rep_max_angle tr0 = rep_max_angle tr) ->
  full_rep th (at_verdict tr0) <-> counts_as_rep th tr fr = true.
Proof.
  intros Hr Hs Hp Hh Hb Hrange.
  unfold counts_as_rep, full_rep, at_verdict, rep_range.
  rewrite Hp.
  destruct (opt_State_eqb (prev_state tr) (Some s3)) eqn:Hdrop.
  { split.
    - intros (_ & F & _). destruct tr0; discriminate F.
    - rewrite andb_false_r. cbn. discriminate. }
  rewrite Hs, Hh, Hb. cbn [negb]. rewrite andb_true_r.
  split.
  - intros (Hseq & Hpo & Hho & lo & hi & Hlo & Hhi & Hge).
    rewrite Hseq in *. rewrite mem_s2_full in Hrange.
    rewrite Hpo, Hho. cbn [seq_eqb State_eqb andb negb].
    unfold range_inv in Hr.
    destruct (rep_min_angle tr) as [lo0|], (rep_max_angle tr) as [hi0|];
      try contradiction; destruct Hrange as [E1 E2];
      rewrite E1 in Hlo; rewrite E2 in Hhi;
      injection Hlo as <-; injection Hhi as <-; apply Z.leb_le; lia.
  - intros H.
    apply andb_prop in H. destruct H as [H Hge].
    apply andb_prop in H. destruct H as [H Hho].
    apply andb_prop in H. destruct H as [Hseq Hpo].
    apply seq_eqb_eq in Hseq. apply negb_true_iff in Hpo.
    rewrite Hseq in *. rewrite mem_s2_full in Hrange.
    split; [reflexivity|]. split; [exact Hpo|]. split; [exact Hho|].
    apply Z.leb_le in Hge.
    unfold range_inv in Hr.
    destruct (rep_min_angle tr) as [lo0|], (rep_max_angle tr) as [hi0|];
      try contradiction; destruct Hrange as [E1 E2]; do 2 eexists;
      (split; [exact E1|]); (split; [exact E2|]); lia.
Qed.

(** A frame classified ['s1'], from any tracker with consistent range
    fields. *)
Lemma call_s1 (th : Thresholds) (tr : Tracker) (fr : Frame) :
  classified th fr (Some s1) ->
  range_inv tr ->
  exists tr',
    call th tr fr
    = Some (tr', by_priority (stalls th tr fr (Some s1))
                   (if counts_as_rep th tr fr
                    then Some (count_str (CORRECT_COUNT tr + 1))
                    else Some incorrect))
    /\ at_rest tr'
    /\ (stalls th tr fr (Some s1) = true ->
        CORRECT_COUNT tr' = 0 /\ INCORRECT_COUNT tr' = 0)
    /\ (stalls th tr fr (Some s1) = false ->
        (if counts_as_rep th tr fr
         then CORRECT_COUNT tr' = CORRECT_COUNT tr + 1
              /\ INCORRECT_COUNT tr' = INCORRECT_COUNT tr
         else CORRECT_COUNT tr' = CORRECT_COUNT tr
              /\ INCORRECT_COUNT tr' = INCORRECT_COUNT tr + 1)
        /\ start_inactive_time tr' = side_read (Some s1) fr
        /\ INACTIVE_TIME tr'
           = (if opt_State_eqb (Some s1) (prev_state tr)
              then INACTIVE_TIME tr + (side_read (Some s1) fr - start_inactive_time tr)
              else 0)).
Proof.
  intros Hc Hr.
  destruct (call_aligned th tr fr (Some s1) Hc Hr)
    as (ps1 & tr1 & tr' & Hcl & Hcall & Hprev & Hr1 & Hfire & Hquiet).
  assert (Hra : range_inv (front_reset fr tr)) by (destruct tr; exact Hr).
  destruct (classify_s1_fields th (180 - hip_angle fr) (Z.max 0 (180 - knee_internal fr))
              (torso_tilt fr) (perf_counter_at fr) 1%nat (front_reset fr tr) Hra)
    as (tr0 & Hcl0 & Hs0 & Hp0 & Hh0 & Hb0 & Hcc0 & Hic0 & Hrg0).
  destruct (resolve_rep_returns th (perf_counter_at fr) 1%nat tr0)
    as (ps0 & tr1' & Hres & Hclr & Hw & Hcur & Hok & Hko).
  rewrite Hcl0, Hres in Hcl. inversion Hcl; subst ps0 tr1'. clear Hcl.
  assert (Hiff : full_rep th (at_verdict tr0) <-> counts_as_rep th tr fr = true).
  { fold (hip_vertical fr) in Hrg0.
    apply (full_rep_counts_as_rep th tr tr0 fr Hr);
      [rewrite Hs0 | rewrite Hp0 | rewrite Hh0 | rewrite Hb0 | ];
      destruct tr; try reflexivity; exact Hrg0. }
  assert (Hcc : CORRECT_COUNT tr0 = CORRECT_COUNT tr)
    by (rewrite Hcc0; destruct tr; reflexivity).
  assert (Hic : INCORRECT_COUNT tr0 = INCORRECT_COUNT tr)
    by (rewrite Hic0; destruct tr; reflexivity).
  rewrite Hcc, Hic in Hok, Hko.
  assert (Hps : ps1 = if counts_as_rep th tr fr
                      then Some (count_str (CORRECT_COUNT tr + 1))
                      else Some incorrect).
  { destruct (counts_as_rep th tr fr).
    - apply Hok, Hiff. reflexivity.
    - apply Hko. intros F. apply Hiff in F. discriminate. }
  exists tr'. rewrite <- Hps. split; [exact Hcall|].
  destruct (stalls th tr fr (Some s1)).
  - destruct (Hfire eq_refl) as (Hclr' & Hc' & Hi' & _).
    split; [split; [exact Hprev|exact Hclr']|].
    split; [auto|]. intros F; discriminate F.
  - destruct (Hquiet eq_refl)
      as ((Hs' & _ & He' & Hh' & Hlo' & Hhi' & Hp' & Hc' & Hi' & _) & Hst' & Hin' & Hd' & Hn').
    destruct Hclr as (Hs1 & Hd1 & Hn1 & Hp1 & He1 & Hh1 & Hlo1 & Hhi1).
    destruct (swept_cleared th tr1 tr' Hd1 Hn1 Hd' Hn') as (Hd'' & Hn'').
    split.
    { split; [exact Hprev|]. unfold cleared_per_rep.
      repeat split; congruence. }
    split; [intros F; discriminate F|]. intros _.
    split.
    { rewrite Hc', Hi'.
      destruct (counts_as_rep th tr fr).
      - apply Hok, Hiff. reflexivity.
      - apply Hko. intros F. apply Hiff in F. discriminate. }
    split; [exact Hst'|exact Hin'].
Qed.

(** What one call does to the counters and the state sequence, with the
    sound it returns. *)
Lemma call_cases (th : Thresholds) (tr : Tracker) (fr : Frame) :
  range_inv tr ->
  exists tr' ps,
    call th tr fr = Some (tr', ps)
    /\ ((ps = Some reset_counters
         /\ CORRECT_COUNT tr' = 0 /\ INCORRECT_COUNT tr' = 0 /\ state_seq tr' = [])
        \/ (ps = None
            /\ CORRECT_COUNT tr' = CORRECT_COUNT tr
            /\ INCORRECT_COUNT tr' = INCORRECT_COUNT tr
            /\ (state_seq tr' = state_seq tr
                \/ exists st, state_seq tr' = next_state_seq st (state_seq tr)))
        \/ (classified th fr (Some s1)
            /\ stalls th tr fr (Some s1) = false
            /\ state_seq tr' = []
            /\ ((counts_as_rep th tr fr = true
                 /\ ps = Some (count_str (CORRECT_COUNT tr + 1))
                 /\ CORRECT_COUNT tr' = CORRECT_COUNT tr + 1
                 /\ INCORRECT_COUNT tr' = INCORRECT_COUNT tr)
                \/ (counts_as_rep th tr fr = false
                    /\ ps = Some incorrect
                    /\ CORRECT_COUNT tr' = CORRECT_COUNT tr
                    /\ INCORRECT_COUNT tr' = INCORRECT_COUNT tr + 1)))).
Proof.
  intros Hr.
  destruct (pose_landmarks fr) eqn:Hp.
  2:{ rewrite (call_no_landmarks th tr fr Hp).
      destruct (INACTIVE_THRESH th <=? idle_since tr fr);
        (do 2 eexists; split; [reflexivity|]).
      - left. repeat split; reflexivity.
      - right. left. destruct tr. cbn. auto. }
  destruct (OFFSET_THRESH th <? offset_angle fr) eqn:Ho.
  { apply Z.ltb_lt in Ho. rewrite (call_not_aligned th tr fr Hp Ho). cbv zeta.
    destruct (INACTIVE_THRESH th <=? _);
      (do 2 eexists; split; [reflexivity|]).
    - left. repeat split; reflexivity.
    - right. left. destruct tr. cbn. auto. }
  apply Z.ltb_ge in Ho.
  set (st := _get_state th (180 - hip_angle fr)).
  assert (Hc : classified th fr st) by (repeat split; auto).
  assert (Hd : st = Some s1 \/ st <> Some s1).
  { destruct st as [[| |]|]; auto; right; discriminate. }
  destruct Hd as [Hd|Hd].
  - rewrite Hd in Hc.
    destruct (call_s1 th tr fr Hc Hr) as (tr' & Hcall & (_ & Hclr) & Hfire & Hquiet).
    exists tr'. eexists. split; [exact Hcall|].
    destruct (stalls th tr fr (Some s1)); cbn [by_priority].
    + left. destruct (Hfire eq_refl). split; [reflexivity|]. repeat split; auto. apply Hclr.
    + right. right. destruct (Hquiet eq_refl) as (Hcnt & _).
      split; [exact Hc|]. split; [reflexivity|]. split; [apply Hclr|].
      destruct (counts_as_rep th tr fr); [left|right]; destruct Hcnt; auto.
  - destruct (call_aligned th tr fr st Hc Hr)
      as (ps1 & tr1 & tr' & Hcl & Hcall & _ & _ & Hfire & _).
    destruct (stalls th tr fr st) eqn:Hst.
    + exists tr'. eexists. split; [exact Hcall|]. left.
      destruct (Hfire eq_refl) as (Hclr & Hc' & Hi' & _).
      split; [reflexivity|]. repeat split; auto. apply Hclr.
    + destruct (call_moving th tr fr st Hc Hd Hr Hst)
        as (tr'' & Hcall' & _ & Hs' & Hc' & Hi' & _).
      exists tr'', None. split; [exact Hcall'|]. right. left.
      split; [reflexivity|]. split; [exact Hc'|]. split; [exact Hi'|].
      right. exists st. exact Hs'.
Qed.

Lemma counts_as_rep_spec (th : Thresholds) (tr : Tracker) (fr : Frame) :
  counts_as_rep th tr fr = true
  <-> state_seq tr = [s2; s3; s2]
      /\ INCORRECT_POSTURE tr = false
      /\ prev_state tr <> Some s3
      /\ s3_hold_ok tr = true
      /\ REP_MIN_RANGE th <= rep_range tr (hip_vertical fr).
Proof.
  unfold counts_as_rep. rewrite !andb_true_iff, !negb_true_iff, seq_eqb_eq, Z.leb_le.
  assert (Hp : opt_State_eqb (prev_state tr) (Some s3) = false
               <-> prev_state tr <> Some s3).
  { destruct (prev_state tr) as [[| |]|]; cbn; split; congruence. }
  rewrite Hp. tauto.
Qed.

(** X5.  When a rep is counted.  From a tracker with consistent range
    fields, a call returns the count [k] exactly when the frame has
    landmarks, is aligned and is classified ['s1'], the side-view watchdog
    does not fire, [state_seq] is [['s2', 's3', 's2']], no form error is
    latched, [prev_state] is not ['s3'], the hold is latched and
    the range, the frame's own angle included, reaches [REP_MIN_RANGE];
    [k] is then [CORRECT_COUNT + 1], the new [CORRECT_COUNT]. *)
Theorem count_only_for_full_rep (th : Thresholds) (tr : Tracker) (fr : Frame) (k : Z) :
  range_inv tr ->
  (exists tr', call th tr fr = Some (tr', Some (count_str k)))
  <-> (classified th fr (Some s1)
       /\ stalls th tr fr (Some s1) = false
       /\ state_seq tr = [s2; s3; s2]
       /\ INCORRECT_POSTURE tr = false
       /\ prev_state tr <> Some s3
       /\ s3_hold_ok tr = true
       /\ REP_MIN_RANGE th <= rep_range tr (hip_vertical fr)
       /\ k = CORRECT_COUNT tr + 1).
Proof.
  intros Hr.
  pose proof (counts_as_rep_spec th tr fr) as Hexp.
  split.
  - intros (tr' & Hcall).
    destruct (call_cases th tr fr Hr) as (tr2 & ps & Hcall2 & Hcases).
    rewrite Hcall in Hcall2. inversion Hcall2; subst tr2 ps. clear Hcall2.
    destruct Hcases as [(F & _)|[(F & _)|(Hc & Hq & _ & Hv)]]; try discriminate.
    destruct Hv as [(Hyes & Hps & _)|(_ & F & _)]; try discriminate.
    injection Hps as ->.
    apply Hexp in Hyes. tauto.
  - intros (Hc & Hq & Hrest).
    assert (Hyes : counts_as_rep th tr fr = true) by (apply Hexp; tauto).
    destruct (call_s1 th tr fr Hc Hr) as (tr' & Hcall & _).
    rewrite Hq, Hyes in Hcall. cbn [by_priority] in Hcall.
    exists tr'. rewrite Hcall.
    replace k with (CORRECT_COUNT tr + 1) by (symmetry; apply Hrest).
    reflexivity.
Qed.

(** A complete rep: the last lowering frame has been seen, the leg comes
    to rest. *)
Lemma count_only_for_full_rep_witness :
  let th := get_thresholds_leg_raises_beginner in
  let tr := set_state_seq [s2; s3; s2] (set_s3_hold_ok true
              (set_rep_min_angle (Some 30) (set_rep_max_angle (Some 70)
                 (set_prev_state (Some s2) (init_tracker 0 0))))) in
  (exists tr', call th tr (frame_at 5 5600) = Some (tr', Some (count_str 1)))
  <-> (classified th (frame_at 5 5600) (Some s1)
       /\ stalls th tr (frame_at 5 5600) (Some s1) = false
       /\ state_seq tr = [s2; s3; s2]
       /\ INCORRECT_POSTURE tr = false
       /\ prev_state tr <> Some s3
       /\ s3_hold_ok tr = true
       /\ REP_MIN_RANGE th <= rep_range tr (hip_vertical (frame_at 5 5600))
       /\ 1 = CORRECT_COUNT tr + 1).
Proof.
  cbv zeta.
  apply (count_only_for_full_rep get_thresholds_leg_raises_beginner).
  cbn. lia.
Defined.

(** X6.  The counters follow the sounds.  Along any run from a tracker
    whose range fields are consistent, every call returns, and the two
    counters at the end are those at the start updated once per returned
    sound: ['reset_counters'] zeroes both, a count adds one to
    [CORRECT_COUNT], ['incorrect'] adds one to [INCORRECT_COUNT], no sound
    leaves both; each announced count is the number of correct reps since
    the last reset. *)
Theorem counters_follow_sounds (th : Thresholds) (frames : list Frame) (tr : Tracker) :
  rep_open_inv tr ->
  exists tr' sounds,
    run th tr frames = Some (tr', sounds)
    /\ length sounds = length frames
    /\ (CORRECT_COUNT tr', INCORRECT_COUNT tr')
       = fold_left tally sounds (CORRECT_COUNT tr, INCORRECT_COUNT tr)
    /\ announces_from (CORRECT_COUNT tr) sounds = true.
Proof.
  revert tr. induction frames as [|fr frames IH]; intros tr Hinv; cbn [run].
  - exists tr, []. repeat split; reflexivity.
  - destruct (call_keeps_range th tr fr Hinv) as (tr1 & ps & Hcall & Hinv1).
    destruct (call_cases th tr fr (proj1 Hinv)) as (tr1' & ps' & Hcall' & Hcases).
    rewrite Hcall in Hcall'. inversion Hcall'; subst tr1' ps'. clear Hcall'.
    rewrite Hcall.
    destruct (IH tr1 Hinv1) as (tr' & sounds & Hrun & Hlen & Htally & Hann).
    rewrite Hrun. exists tr', (ps :: sounds).
    split; [reflexivity|]. split; [cbn [length]; congruence|].
    cbn [fold_left announces_from]. rewrite Htally.
    destruct Hcases as [(-> & Hc & Hi & _)|[(-> & Hc & Hi & _)|(_ & _ & _ & Hv)]].
    + rewrite Hc, Hi in *. cbn [tally]. auto.
    + rewrite Hc, Hi in *. cbn [tally]. auto.
    + destruct Hv as [(_ & -> & Hc & Hi)|(_ & -> & Hc & Hi)];
        rewrite Hc, Hi in *; cbn [tally fst snd]; rewrite ?Z.eqb_refl; auto.
Qed.

(** Scenario B of the specification, from a new session. *)
Lemma counters_follow_sounds_witness :
  exists tr' sounds,
    run get_thresholds_leg_raises_beginner (init_tracker 0 0) scenario_B
    = Some (tr', sounds)
    /\ length sounds = length scenario_B
    /\ (CORRECT_COUNT tr', INCORRECT_COUNT tr') = fold_left tally sounds (0, 0)
    /\ announces_from 0 sounds = true.
Proof.
  apply (counters_follow_sounds get_thresholds_leg_raises_beginner scenario_B
           (init_tracker 0 0)).
  split; [exact I|]. intros _. reflexivity.
Defined.

Lemma next_state_seq_length (st : option State) (seq : list State) :
  (length (next_state_seq st seq) <= S (length seq))%nat.
Proof.
  unfold next_state_seq.
  destruct st as [[| |]|]; try lia;
    match goal with |- context [if ?b then _ else _] => destruct b end;
    rewrite ?length_app; cbn [length]; lia.
Qed.

Lemma cleared_progress (tr : Tracker) :
  cleared_per_rep tr -> rep_progress tr = 0%nat /\ timer_inv tr.
Proof.
  intros (Hs & _ & _ & _ & He & Hh & _). unfold rep_progress, timer_inv.
  rewrite Hs, Hh, He. split; [reflexivity|]. intros F; contradiction F; reflexivity.
Qed.

(** One call advances the open rep by at most one step, and a count needs
    four. *)
Lemma call_progress (th : Thresholds) (tr : Tracker) (fr : Frame) :
  rep_open_inv tr ->
  timer_inv tr ->
  exists tr' ps,
    call th tr fr = Some (tr', ps)
    /\ rep_open_inv tr'
    /\ timer_inv tr'
    /\ (rep_progress tr' <= S (rep_progress tr))%nat
    /\ (is_count ps = true -> rep_progress tr = 4%nat /\ rep_progress tr' = 0%nat).
Proof.
  intros Hinv Hj.
  destruct (call_keeps_range th tr fr Hinv) as (tr1 & ps & Hcall & Hinv1).
  exists tr1, ps. split; [exact Hcall|]. split; [exact Hinv1|].
  pose proof (proj1 Hinv) as Hr.
  destruct (pose_landmarks fr) eqn:Hp.
  2:{ rewrite (call_no_landmarks th tr fr Hp) in Hcall.
      destruct (INACTIVE_THRESH th <=? idle_since tr fr);
        inversion Hcall; subst tr1 ps; clear Hcall.
      - split; [intros F; contradiction F; reflexivity|].
        split; [cbn; lia|discriminate].
      - split; [destruct tr; exact Hj|].
        split; [destruct tr; cbn; lia|discriminate]. }
  destruct (OFFSET_THRESH th <? offset_angle fr) eqn:Ho.
  { apply Z.ltb_lt in Ho. rewrite (call_not_aligned th tr fr Hp Ho) in Hcall.
    cbv zeta in Hcall.
    destruct (INACTIVE_THRESH th <=? _);
      inversion Hcall; subst tr1 ps; clear Hcall.
    - split; [intros F; contradiction F; reflexivity|].
      split; [cbn; lia|discriminate].
    - split; [destruct tr; exact Hj|].
      split; [destruct tr; cbn; lia|discriminate]. }
  apply Z.ltb_ge in Ho.
  set (st := _get_state th (180 - hip_angle fr)).
  assert (Hc : classified th fr st) by (repeat split; auto).
  assert (Hd : st = Some s1 \/ st <> Some s1).
  { destruct st as [[| |]|]; auto; right; discriminate. }
  destruct Hd as [Hd|Hd].
  - rewrite Hd in Hc.
    destruct (call_s1 th tr fr Hc Hr) as (tr' & Hcall' & (_ & Hclr) & _).
    rewrite Hcall in Hcall'. inversion Hcall'; subst tr' ps. clear Hcall'.
    destruct (cleared_progress tr1 Hclr) as (Hz & Hj1).
    split; [exact Hj1|]. split; [lia|].
    intros Hcount. split; [|exact Hz].
    destruct (stalls th tr fr (Some s1)); [discriminate Hcount|].
    cbn [by_priority] in Hcount.
    destruct (counts_as_rep th tr fr) eqn:Hyes; [|discriminate Hcount].
    unfold counts_as_rep in Hyes. rewrite !andb_true_iff in Hyes.
    destruct Hyes as ((((Hseq & _) & _) & Hh) & _).
    apply seq_eqb_eq in Hseq. unfold rep_progress. rewrite Hseq, Hh. reflexivity.
  - destruct (call_aligned th tr fr st Hc Hr)
      as (ps1 & tr1a & tr' & Hcl & Hcall' & _ & _ & Hfire & _).
    destruct (stalls th tr fr st) eqn:Hst.
    + rewrite Hcall in Hcall'. inversion Hcall'; subst tr' ps. clear Hcall'.
      destruct (Hfire eq_refl) as (Hclr & _).
      destruct (cleared_progress tr1 Hclr) as (Hz & Hj1).
      split; [exact Hj1|]. split; [lia|discriminate].
    + destruct (call_moving th tr fr st Hc Hd Hr Hst)
        as (tr'' & Hcall'' & _ & Hs' & _ & _ & _ & _ & _ & _ & _ & H3 & Hn3).
      rewrite Hcall in Hcall''. inversion Hcall''; subst tr'' ps. clear Hcall''.
      pose proof (next_state_seq_length st (state_seq tr)) as Hlen.
      assert (Hd3 : st = Some s3 \/ st <> Some s3).
      { destruct st as [[| |]|]; auto; right; discriminate. }
      unfold rep_progress, timer_inv in *. rewrite Hs'.
      destruct Hd3 as [Hd3|Hd3].
      * specialize (H3 Hd3). rewrite Hd3 in *.
        destruct (s3_enter_time tr) as [t0|] eqn:He.
        -- destruct H3 as (He' & Hh').
           assert (Hsame : next_state_seq (Some s3) (state_seq tr) = state_seq tr).
           { unfold next_state_seq.
             destruct (mem s2 (state_seq tr)) eqn:E2.
             - rewrite (Hj ltac:(discriminate) eq_refl). reflexivity.
             - rewrite andb_false_r. reflexivity. }
           rewrite Hsame.
           split; [intros _; apply Hj; discriminate|].
           split; [|discriminate].
           rewrite Hh'. destruct (s3_hold_ok tr), (TARGET_HOLD <=? hold_read fr - t0);
             cbn; lia.
        -- destruct H3 as (He' & Hh'). rewrite Hh'.
           split; [|split; [lia|discriminate]].
           intros _ Hm2. unfold next_state_seq in *.
           destruct (mem s3 (state_seq tr)) eqn:E3; cbn [negb andb] in *; [exact E3|].
           destruct (mem s2 (state_seq tr)) eqn:E2; [|congruence].
           unfold mem. rewrite existsb_app. cbn. apply orb_true_r.
      * destruct (Hn3 Hd3) as (He' & Hh'). rewrite Hh'.
        split; [intros F; contradiction|]. split; [lia|discriminate].
Qed.

Lemma no_early_count (th : Thresholds) (frames : list Frame) (tr : Tracker) (m : nat) :
  rep_open_inv tr ->
  timer_inv tr ->
  (rep_progress tr + m <= 4)%nat ->
  exists tr' sounds,
    run th tr frames = Some (tr', sounds)
    /\ forallb (fun s => negb (is_count s)) (firstn m sounds) = true.
Proof.
  revert tr m. induction frames as [|fr frames IH]; intros tr m Hinv Hj Hlen; cbn [run].
  - exists tr, []. split; [reflexivity|]. destruct m; reflexivity.
  - destruct (call_progress th tr fr Hinv Hj)
      as (tr1 & ps & Hcall & Hinv1 & Hj1 & Hstep & Hcount).
    rewrite Hcall.
    destruct m as [|m].
    { destruct (run_keeps_range th frames tr1 Hinv1) as (tr' & sounds & Hrun & _).
      rewrite Hrun. exists tr', (ps :: sounds). split; reflexivity. }
    assert (Hps : is_count ps = false).
    { destruct (is_count ps); [|reflexivity]. destruct (Hcount eq_refl). lia. }
    destruct (IH tr1 m Hinv1 Hj1 ltac:(lia)) as (tr' & sounds & Hrun & Hno).
    rewrite Hrun. exists tr', (ps :: sounds). split; [reflexivity|].
    cbn [firstn forallb]. rewrite Hps, Hno. reflexivity.
Qed.

(** X11.  No double counting.  After a call that returns a count, none of
    the next four calls returns a count, whatever the frames: the state
    sequence and the hold latch have been cleared, a call records at most
    one state or latches the hold, never both, and a count needs three
    recorded states and the latch. *)
Theorem no_count_within_four_calls (th : Thresholds) (tr tr1 : Tracker) (fr : Frame)
    (k : Z) (frames : list Frame) :
  rep_open_inv tr ->
  call th tr fr = Some (tr1, Some (count_str k)) ->
  exists tr' sounds,
    run th tr1 frames = Some (tr', sounds)
    /\ forallb (fun s => negb (is_count s)) (firstn 4 sounds) = true.
Proof.
  intros Hinv Hcall.
  destruct (call_keeps_range th tr fr Hinv) as (tr2 & ps & Hcall2 & Hinv1).
  rewrite Hcall in Hcall2. inversion Hcall2; subst tr2 ps. clear Hcall2.
  destruct (call_cases th tr fr (proj1 Hinv)) as (tr2 & ps & Hcall2 & Hcases).
  rewrite Hcall in Hcall2. inversion Hcall2; subst tr2 ps. clear Hcall2.
  destruct Hcases as [(F & _)|[(F & _)|(Hc & _)]]; try discriminate.
  destruct (call_s1 th tr fr Hc (proj1 Hinv)) as (tr2 & Hcall2 & (_ & Hclr) & _).
  rewrite Hcall in Hcall2. inversion Hcall2; subst tr2. clear Hcall2.
  destruct (cleared_progress tr1 Hclr) as (Hz & Hj1).
  apply no_early_count; [exact Hinv1|exact Hj1|]. rewrite Hz. lia.
Qed.

(** The rep of the witness above is counted; then the fastest next
    attempt: raise, top, top, lower, rest. *)
Lemma no_count_within_four_calls_witness :
  exists tr' sounds,
    run get_thresholds_leg_raises_beginner
      (set_CORRECT_COUNT 1
         (set_curr_state (Some s1) (set_prev_state (Some s1) (init_tracker 5600 5600))))
      [frame_at 30 5700; frame_at 70 5800; frame_at 70 10900; frame_at 30 11000;
       frame_at 5 11100] = Some (tr', sounds)
    /\ forallb (fun s => negb (is_count s)) (firstn 4 sounds) = true.
Proof.
  apply (no_count_within_four_calls get_thresholds_leg_raises_beginner
           (set_state_seq [s2; s3; s2] (set_s3_hold_ok true
              (set_rep_min_angle (Some 30) (set_rep_max_angle (Some 70)
                 (set_prev_state (Some s2) (init_tracker 0 0))))))
           (set_CORRECT_COUNT 1
              (set_curr_state (Some s1) (set_prev_state (Some s1) (init_tracker 5600 5600))))
           (frame_at 5 5600) 1).
  - split; [cbn; lia|]. intros F. discriminate F.
  - vm_compute. reflexivity.
Defined.

(** *** The side-view watchdog along a stretch *)

(** A stretch of frames in one state, once entered: the side-view
    accumulator is the time since the entering frame's reading. *)
Lemma stretch_watch (th : Thresholds) (st : option State) (f0 : Frame)
    (frames : list Frame) (tr : Tracker) :
  Forall (fun f => classified th f st) frames ->
  rep_open_inv tr ->
  prev_state tr = st ->
  INACTIVE_TIME tr = start_inactive_time tr - side_read st f0 ->
  within_watch th st f0 frames ->
  exists tr' sounds,
    run th tr frames = Some (tr', sounds)
    /\ length sounds = length frames
    /\ ~ In (Some reset_counters) sounds
    /\ rep_open_inv tr'
    /\ prev_state tr' = st
    /\ INACTIVE_TIME tr' = start_inactive_time tr' - side_read st f0.
Proof.
  revert tr. induction frames as [|f frames IH]; intros tr Hall Hinv Hprev Hacc Hw;
    cbn [run].
  - exists tr, []. split; [reflexivity|]. split; [reflexivity|].
    split; [intros F; exact F|]. auto.
  - inversion Hall as [|? ? Hf Hrest]; subst.
    inversion Hw as [|? ? Hwf Hwrest]; subst.
    set (st := prev_state tr) in *.
    destruct (call_keeps_range th tr f Hinv) as (tr1 & ps & Hcall & Hinv1).
    destruct (call_aligned th tr f st Hf (proj1 Hinv))
      as (ps1 & tr1a & tr1' & Hcl & Hcall' & Hprev1 & _ & _ & Hquiet).
    assert (Hq : stalls th tr f st = false).
    { unfold stalls. fold st. rewrite opt_State_eqb_refl. cbn [andb].
      apply Z.leb_gt. unfold side_read in *. lia. }
    rewrite Hq in Hcall'. cbn [by_priority] in Hcall'.
    rewrite Hcall in Hcall'. inversion Hcall'; subst tr1' ps. clear Hcall'.
    destruct (Hquiet Hq) as (_ & Hstart & Hin & _).
    fold st in Hin. rewrite opt_State_eqb_refl in Hin.
    assert (Hps : ps1 <> Some reset_counters).
    { assert (Hra : range_inv (front_reset f tr)) by (destruct tr; apply Hinv).
      destruct (classify_returns th st (180 - hip_angle f) (Z.max 0 (180 - knee_internal f))
                  (torso_tilt f) (perf_counter_at f) 1%nat (front_reset f tr) Hra)
        as (ps2 & tr2 & Hcl2 & _ & _ & _ & Hps).
      rewrite Hcl in Hcl2. inversion Hcl2; subst ps2.
      destruct Hps as [(-> & _)|[(-> & _)|(-> & _)]]; discriminate. }
    destruct (IH tr1 Hrest Hinv1 Hprev1) as (tr' & sounds & Hrun & Hlen & Hno & Hinv' & Hp' & Ha').
    { rewrite Hin, Hstart. unfold side_read in *. lia. }
    { exact Hwrest. }
    rewrite Hcall, Hrun. exists tr', (ps1 :: sounds).
    split; [reflexivity|]. split; [cbn [length]; congruence|].
    split; [|auto].
    intros [F|F]; [exact (Hps F)|exact (Hno F)].
Qed.

(** X2.  Side-view watchdog.  A stretch of aligned frames all classified
    alike (['s1'], ['s2'], ['s3'] or unclassified), entered from another
    state: as long as the watchdog's reading stays less than
    [INACTIVE_THRESH] after the entering frame's, no call returns
    ['reset_counters']; the first frame whose reading comes
    [INACTIVE_THRESH] or more after it returns ['reset_counters'], zeroes
    both counters and clears the open rep -- a leg held at the top
    included. *)
Theorem same_state_stretch_resets (th : Thresholds) (st : option State) (tr : Tracker)
    (f0 : Frame) (mid : list Frame) (g : Frame) :
  Forall (fun f => classified th f st) (f0 :: mid ++ [g]) ->
  rep_open_inv tr ->
  opt_State_eqb st (prev_state tr) = false ->
  within_watch th st f0 mid ->
  INACTIVE_THRESH th <= side_read st g - side_read st f0 ->
  exists tr' sounds,
    run th tr (f0 :: mid ++ [g]) = Some (tr', sounds ++ [Some reset_counters])
    /\ length sounds = S (length mid)
    /\ ~ In (Some reset_counters) sounds
    /\ CORRECT_COUNT tr' = 0
    /\ INCORRECT_COUNT tr' = 0
    /\ cleared_per_rep tr'
    /\ prev_state tr' = st.
Proof.
  intros Hall Hinv Hne Hw Hlate.
  inversion Hall as [|? ? Hf0 Hrest]; subst.
  apply Forall_app in Hrest. destruct Hrest as [Hmid Hg].
  apply Forall_inv in Hg.
  (* the entering frame *)
  destruct (call_keeps_range th tr f0 Hinv) as (tr1 & ps & Hcall & Hinv1).
  destruct (call_aligned th tr f0 st Hf0 (proj1 Hinv))
    as (ps1 & tr1a & tr1' & Hcl & Hcall' & Hprev1 & _ & _ & Hquiet).
  assert (Hq : stalls th tr f0 st = false) by (unfold stalls; rewrite Hne; reflexivity).
  rewrite Hq in Hcall'. cbn [by_priority] in Hcall'.
  rewrite Hcall in Hcall'. inversion Hcall'; subst tr1' ps. clear Hcall'.
  destruct (Hquiet Hq) as (_ & Hstart & Hin & _). rewrite Hne in Hin.
  assert (Hps : ps1 <> Some reset_counters).
  { assert (Hra : range_inv (front_reset f0 tr)) by (destruct tr; apply Hinv).
    destruct (classify_returns th st (180 - hip_angle f0) (Z.max 0 (180 - knee_internal f0))
                (torso_tilt f0) (perf_counter_at f0) 1%nat (front_reset f0 tr) Hra)
      as (ps2 & tr2 & Hcl2 & _ & _ & _ & Hps).
    rewrite Hcl in Hcl2. inversion Hcl2; subst ps2.
    destruct Hps as [(-> & _)|[(-> & _)|(-> & _)]]; discriminate. }
  (* the frames within the watch *)
  destruct (stretch_watch th st f0 mid tr1 Hmid Hinv1 Hprev1)
    as (tr2 & sounds & Hrun & Hlen & Hno & Hinv2 & Hprev2 & Hacc2).
  { rewrite Hin, Hstart. unfold side_read. lia. }
  { exact Hw. }
  (* the late frame *)
  destruct (call_aligned th tr2 g st Hg (proj1 Hinv2))
    as (ps3 & tr3a & tr3 & _ & Hcall3 & Hprev3 & _ & Hfire & _).
  assert (Hf : stalls th tr2 g st = true).
  { unfold stalls. rewrite Hprev2, opt_State_eqb_refl. cbn [andb].
    apply Z.leb_le. unfold side_read in *. lia. }
  rewrite Hf in Hcall3. cbn [by_priority] in Hcall3.
  destruct (Hfire Hf) as (Hclr & Hc & Hi & _).
  exists tr3, (ps1 :: sounds).
  split.
  { cbn [run]. rewrite Hcall. rewrite run_app, Hrun. cbn [run]. rewrite Hcall3.
    reflexivity. }
  split; [cbn [length]; congruence|].
  split; [intros [F|F]; [exact (Hps F)|exact (Hno F)]|].
  auto.
Qed.

(** Under the beginner profile: the leg is raised, reaches the top, and is
    held there; 15 s after the first frame at the top everything is
    reset. *)
Lemma same_state_stretch_resets_witness :
  exists tr' sounds,
    run get_thresholds_leg_raises_beginner
      (set_state_seq [s2] (set_prev_state (Some s2) (init_tracker 0 0)))
      (frame_at 70 1000 :: [frame_at 70 6000; frame_at 70 12000] ++ [frame_at 70 16000])
    = Some (tr', sounds ++ [Some reset_counters])
    /\ length sounds = 3%nat
    /\ ~ In (Some reset_counters) sounds
    /\ CORRECT_COUNT tr' = 0
    /\ INCORRECT_COUNT tr' = 0
    /\ cleared_per_rep tr'
    /\ prev_state tr' = Some s3.
Proof.
  apply (same_state_stretch_resets get_thresholds_leg_raises_beginner (Some s3)
           (set_state_seq [s2] (set_prev_state (Some s2) (init_tracker 0 0)))
           (frame_at 70 1000) [frame_at 70 6000; frame_at 70 12000] (frame_at 70 16000)).
  - repeat constructor; cbn; lia.
  - split; [exact I|]. intros F. discriminate F.
  - reflexivity.
  - repeat constructor; cbn; lia.
  - cbn. lia.
Defined.

(** *** Form errors and the hold, along a rep *)

(** A frame that is not at rest returns no sound unless the watchdog
    fires, and then latches a form error it finds. *)
Lemma call_moving_sound (th : Thresholds) (tr : Tracker) (fr : Frame) :
  moving th fr ->
  rep_open_inv tr ->
  exists tr' ps,
    call th tr fr = Some (tr', ps)
    /\ rep_open_inv tr'
    /\ (ps = None \/ ps = Some reset_counters)
    /\ (ps = None ->
        CORRECT_COUNT tr' = CORRECT_COUNT tr
        /\ INCORRECT_COUNT tr' = INCORRECT_COUNT tr
        /\ INCORRECT_POSTURE tr' = INCORRECT_POSTURE tr || misformed th fr).
Proof.
  intros (Hp & Ho & Hst) Hinv.
  destruct (call_keeps_range th tr fr Hinv) as (tr1 & ps & Hcall & Hinv1).
  exists tr1, ps. split; [exact Hcall|]. split; [exact Hinv1|].
  set (st := _get_state th (180 - hip_angle fr)) in *.
  assert (Hc : classified th fr st) by (repeat split; auto).
  destruct (call_aligned th tr fr st Hc (proj1 Hinv))
    as (ps1 & tr1a & tr' & _ & Hcall' & _).
  destruct (stalls th tr fr st) eqn:Hq.
  - rewrite Hcall in Hcall'. inversion Hcall'; subst.
    split; [right; reflexivity|]. discriminate.
  - destruct (call_moving th tr fr st Hc Hst (proj1 Hinv) Hq)
      as (tr'' & Hcall'' & _ & _ & Hcc & Hic & Hpo & _).
    rewrite Hcall in Hcall''. inversion Hcall''; subst.
    split; [left; reflexivity|]. intros _. auto.
Qed.

Lemma spoiled_run (th : Thresholds) (frames : list Frame) (d : Frame)
    (tr tr' : Tracker) (sounds : list (option Sound)) :
  rep_open_inv tr ->
  Forall (moving th) frames ->
  classified th d (Some s1) ->
  INCORRECT_POSTURE tr = true \/ Exists (fun f => misformed th f = true) frames ->
  run th tr (frames ++ [d]) = Some (tr', sounds) ->
  ~ In (Some reset_counters) sounds ->
  sounds = repeat None (length frames) ++ [Some incorrect]
  /\ CORRECT_COUNT tr' = CORRECT_COUNT tr
  /\ INCORRECT_COUNT tr' = INCORRECT_COUNT tr + 1.
Proof.
  revert tr sounds. induction frames as [|f frames IH];
    intros tr sounds Hinv Hall Hd Hbad Hrun Hno; cbn [app run] in Hrun.
  - destruct Hbad as [Hbad|Hbad]; [|inversion Hbad].
    destruct (call_s1 th tr d Hd (proj1 Hinv)) as (tr1 & Hcall & _ & _ & Hquiet).
    rewrite Hcall in Hrun. inversion Hrun; subst tr' sounds. clear Hrun.
    assert (Hn : counts_as_rep th tr d = false).
    { unfold counts_as_rep. rewrite Hbad. cbn [negb]. rewrite andb_false_r. reflexivity. }
    rewrite Hn in *.
    destruct (stalls th tr d (Some s1)).
    { contradiction Hno. left. reflexivity. }
    destruct (Hquiet eq_refl) as ((Hc & Hi) & _).
    cbn [by_priority length repeat app]. auto.
  - inversion Hall as [|? ? Hf Hrest]; subst.
    destruct (call_moving_sound th tr f Hf Hinv) as (tr1 & ps & Hcall & Hinv1 & Hps & Hnone).
    rewrite Hcall in Hrun.
    destruct (run th tr1 (frames ++ [d])) as [[tr2 sounds2]|] eqn:Hrun2; [|discriminate].
    inversion Hrun; subst tr2 sounds. clear Hrun.
    destruct Hps as [-> | ->]; [|contradiction Hno; left; reflexivity].
    destruct (Hnone eq_refl) as (Hc & Hi & Hpo).
    assert (Hbad1 : INCORRECT_POSTURE tr1 = true
                    \/ Exists (fun f0 => misformed th f0 = true) frames).
    { rewrite Hpo. destruct Hbad as [Hbad|Hbad].
      - left. rewrite Hbad. reflexivity.
      - inversion Hbad as [? ? Hm|? ? Hm]; subst.
        + left. rewrite Hm. apply orb_true_r.
        + right. exact Hm. }
    destruct (IH tr1 sounds2 Hinv1 Hrest Hd Hbad1 Hrun2) as (Hs & Hc' & Hi').
    { intros F. apply Hno. right. exact F. }
    rewrite Hs. cbn [length repeat app]. split; [reflexivity|]. split; congruence.
Qed.

(** X4.  A form error spoils the rep.  Frames that are aligned and not at
    rest, then a frame classified ['s1']: if a form error was already
    latched, or the knee is bent beyond [KNEE_LOCK_MAX] or the torso tilted
    beyond [TORSO_TILT_MAX] on one of the frames, outside ['s3'], then,
    unless a watchdog resets the session on the way, the moving frames
    return no sound and the resting frame returns ['incorrect'] and adds
    one to [INCORRECT_COUNT], whatever sequence, hold and range the rep
    has reached. *)
Theorem form_error_spoils_rep (th : Thresholds) (tr : Tracker) (frames : list Frame)
    (d : Frame) :
  rep_open_inv tr ->
  Forall (moving th) frames ->
  classified th d (Some s1) ->
  INCORRECT_POSTURE tr = true \/ Exists (fun f => misformed th f = true) frames ->
  exists tr' sounds,
    run th tr (frames ++ [d]) = Some (tr', sounds)
    /\ (~ In (Some reset_counters) sounds ->
        sounds = repeat None (length frames) ++ [Some incorrect]
        /\ CORRECT_COUNT tr' = CORRECT_COUNT tr
        /\ INCORRECT_COUNT tr' = INCORRECT_COUNT tr + 1).
Proof.
  intros Hinv Hall Hd Hbad.
  destruct (run_keeps_range th (frames ++ [d]) tr Hinv) as (tr' & sounds & Hrun & _).
  exists tr', sounds. split; [exact Hrun|].
  apply (spoiled_run th frames d tr tr' sounds); assumption.
Qed.

(** The rep of Scenario A with its hold lengthened to 5 s, but the knee
    bent by 30 degrees on the first raising frame. *)
Lemma form_error_spoils_rep_witness :
  exists tr' sounds,
    run get_thresholds_leg_raises_beginner (set_prev_state (Some s1) (init_tracker 0 0))
      ([mkFrame true 0 150 150 0 (fun _ => 200); frame_at 70 300; frame_at 70 5300;
        frame_at 30 5500] ++ [frame_at 5 5600])
    = Some (tr', sounds)
    /\ (~ In (Some reset_counters) sounds ->
        sounds = repeat None 4 ++ [Some incorrect]
        /\ CORRECT_COUNT tr' = 0
        /\ INCORRECT_COUNT tr' = 0 + 1).
Proof.
  apply (form_error_spoils_rep get_thresholds_leg_raises_beginner
           (set_prev_state (Some s1) (init_tracker 0 0))
           [mkFrame true 0 150 150 0 (fun _ => 200); frame_at 70 300; frame_at 70 5300;
            frame_at 30 5500] (frame_at 5 5600)).
  - split; [exact I|]. intros _. reflexivity.
  - repeat constructor; cbn; try lia; discriminate.
  - repeat constructor; cbn; lia.
  - right. left. reflexivity.
Defined.

(** A stay at the top from its first frame. *)
Lemma hold_stretch (th : Thresholds) (b0 : Frame) (bs : list Frame) (tr : Tracker) :
  Forall (fun b => classified th b (Some s3)) (b0 :: bs) ->
  rep_open_inv tr ->
  s3_enter_time tr = None ->
  exists tr' sounds,
    run th tr (b0 :: bs) = Some (tr', sounds)
    /\ rep_open_inv tr'
    /\ (~ In (Some reset_counters) sounds ->
        s3_enter_time tr' = Some (hold_read b0)
        /\ (s3_hold_ok tr' = true
            <-> s3_hold_ok tr = true
                \/ exists b, In b bs /\ TARGET_HOLD <= hold_read b - hold_read b0)).
Proof.
  intros Hall Hinv Hent.
  inversion Hall as [|? ? Hb0 Hbs]; subst.
  destruct (run_keeps_range th (b0 :: bs) tr Hinv) as (tr' & sounds & Hrun & Hinv').
  exists tr', sounds. split; [exact Hrun|]. split; [exact Hinv'|].
  cbn [run] in Hrun.
  destruct (call_keeps_range th tr b0 Hinv) as (tr1 & ps & Hcall & Hinv1).
  destruct (call_hold th tr b0 (Some s3) Hb0 ltac:(discriminate) (proj1 Hinv))
    as (tr1' & ps' & Hcall' & Hhold).
  rewrite Hcall in Hcall'. inversion Hcall'; subst tr1' ps'. clear Hcall'.
  rewrite Hcall in Hrun.
  destruct (run th tr1 bs) as [[tr2 sounds2]|] eqn:Hrun2; [|discriminate].
  inversion Hrun; subst tr2 sounds. clear Hrun.
  intros Hno.
  assert (Hps : ps <> Some reset_counters) by (intros F; apply Hno; left; exact F).
  destruct (Hhold Hps) as (H3 & _). specialize (H3 eq_refl). rewrite Hent in H3.
  destruct H3 as (He1 & Hh1).
  destruct (dwell_in_s3 th bs tr1 (hold_read b0) Hbs Hinv1 He1)
    as (tr2 & sounds2' & Hrun2' & Hdwell).
  rewrite Hrun2 in Hrun2'. inversion Hrun2'; subst tr2 sounds2'. clear Hrun2'.
  destruct (Hdwell ltac:(intros F; apply Hno; right; exact F)) as (He' & Hh').
  split; [exact He'|]. rewrite Hh', Hh1. reflexivity.
Qed.

(** X3.  The hold must be continuous.  Two stays at the top separated by
    one aligned frame outside the top band and not at rest, each stay
    shorter than [TARGET_HOLD] by the hold timer's readings: the hold is
    not latched, however long the two stays are together, and the timer is
    anchored at the first frame of the second stay. *)
Theorem interrupted_hold_starts_over (th : Thresholds) (tr : Tracker)
    (b0 : Frame) (B : list Frame) (u : Frame) (st : option State)
    (c0 : Frame) (C : list Frame) :
  Forall (fun b => classified th b (Some s3)) (b0 :: B) ->
  classified th u st -> st <> Some s1 -> st <> Some s3 ->
  Forall (fun c => classified th c (Some s3)) (c0 :: C) ->
  rep_open_inv tr ->
  s3_enter_time tr = None ->
  s3_hold_ok tr = false ->
  (forall b, In b B -> hold_read b - hold_read b0 < TARGET_HOLD) ->
  (forall c, In c C -> hold_read c - hold_read c0 < TARGET_HOLD) ->
  exists tr' sounds,
    run th tr ((b0 :: B) ++ u :: c0 :: C) = Some (tr', sounds)
    /\ (~ In (Some reset_counters) sounds ->
        s3_hold_ok tr' = false
        /\ s3_enter_time tr' = Some (hold_read c0)).
Proof.
  intros HB Hu Hn1 Hn3 HC Hinv Hent Hhold HshortB HshortC.
  destruct (hold_stretch th b0 B tr HB Hinv Hent) as (tr1 & s_1 & Hrun1 & Hinv1 & H1).
  destruct (call_keeps_range th tr1 u Hinv1) as (tr2 & ps & Hcall & Hinv2).
  destruct (call_hold th tr1 u st Hu Hn1 (proj1 Hinv1)) as (tr2' & ps' & Hcall' & H2).
  rewrite Hcall in Hcall'. inversion Hcall'; subst tr2' ps'. clear Hcall'.
  assert (Hlatch : forall (t : Tracker) (x0 : Frame) (X : list Frame),
             (forall x, In x X -> hold_read x - hold_read x0 < TARGET_HOLD) ->
             s3_hold_ok t = false ->
             forall t', (s3_hold_ok t' = true
                         <-> s3_hold_ok t = true
                             \/ exists b, In b X /\ TARGET_HOLD <= hold_read b - hold_read x0) ->
                        s3_hold_ok t' = false).
  { intros t x0 X Hshort Hf t' Hiff.
    destruct (s3_hold_ok t') eqn:E; [|reflexivity].
    destruct (proj1 Hiff eq_refl) as [F|(b & Hin & Hge)]; [congruence|].
    specialize (Hshort b Hin). lia. }
  assert (Hgo : forall s_3 tr3,
             run th tr2 (c0 :: C) = Some (tr3, s_3) ->
             run th tr ((b0 :: B) ++ u :: c0 :: C) = Some (tr3, s_1 ++ ps :: s_3)).
  { intros s_3 tr3 Hrun3.
    assert (Hu1 : run th tr1 [u] = Some (tr2, [ps]))
      by (cbn [run]; rewrite Hcall; reflexivity).
    rewrite run_app, Hrun1.
    change (u :: c0 :: C) with ([u] ++ c0 :: C).
    rewrite run_app, Hu1, Hrun3. reflexivity. }
  destruct (run_keeps_range th (c0 :: C) tr2 Hinv2) as (tr3 & s_3 & Hrun3 & _).
  exists tr3, (s_1 ++ ps :: s_3). split; [exact (Hgo s_3 tr3 Hrun3)|].
  intros Hno.
  assert (Hno1 : ~ In (Some reset_counters) s_1).
  { intros F. apply Hno. apply in_or_app. left. exact F. }
  assert (Hnops : ps <> Some reset_counters).
  { intros F. apply Hno. apply in_or_app. right. left. exact F. }
  assert (Hno3 : ~ In (Some reset_counters) s_3).
  { intros F. apply Hno. apply in_or_app. right. right. exact F. }
  destruct (H1 Hno1) as (_ & Hiff1).
  pose proof (Hlatch tr b0 B HshortB Hhold tr1 Hiff1) as Hh1.
  destruct (H2 Hnops) as (_ & Hleft). destruct (Hleft Hn3) as (He2 & Hh2).
  destruct (hold_stretch th c0 C tr2 HC Hinv2 He2) as (tr3' & s_3' & Hrun3' & _ & H3).
  rewrite Hrun3 in Hrun3'. inversion Hrun3'; subst tr3' s_3'. clear Hrun3'.
  destruct (H3 Hno3) as (He3 & Hiff3).
  split; [|exact He3].
  apply (Hlatch tr2 c0 C HshortC); [congruence|exact Hiff3].
Qed.

(** Under the beginner profile: 3 s at the top, one frame back in the
    transition band, 3 s at the top again. *)
Lemma interrupted_hold_starts_over_witness :
  exists tr' sounds,
    run get_thresholds_leg_raises_beginner
      (set_state_seq [s2] (set_prev_state (Some s2) (init_tracker 0 0)))
      ((frame_at 70 1000 :: [frame_at 70 4000]) ++ frame_at 55 4100
         :: frame_at 70 4200 :: [frame_at 70 7200])
    = Some (tr', sounds)
    /\ (~ In (Some reset_counters) sounds ->
        s3_hold_ok tr' = false
        /\ s3_enter_time tr' = Some (hold_read (frame_at 70 4200))).
Proof.
  apply (interrupted_hold_starts_over get_thresholds_leg_raises_beginner
           (set_state_seq [s2] (set_prev_state (Some s2) (init_tracker 0 0)))
           (frame_at 70 1000) [frame_at 70 4000] (frame_at 55 4100) (Some s2)
           (frame_at 70 4200) [frame_at 70 7200]).
  - repeat constructor; cbn; lia.
  - repeat constructor; cbn; lia.
  - discriminate.
  - discriminate.
  - repeat constructor; cbn; lia.
  - split; [exact I|]. intros F. discriminate F.
  - reflexivity.
  - reflexivity.
  - intros b [<-|[]]. unfold TARGET_HOLD, hold_read. cbn. lia.
  - intros c [<-|[]]. unfold TARGET_HOLD, hold_read. cbn. lia.
Defined.

Lemma rep_logic_untouched_trans (a b c : Tracker) :
  rep_logic_untouched a b -> rep_logic_untouched b c -> rep_logic_untouched a c.
Proof.
  unfold rep_logic_untouched.
  intros (A1 & A2 & A3 & A4 & A5 & A6 & A7 & A8 & A9 & A10 & A11 & A12)
         (B1 & B2 & B3 & B4 & B5 & B6 & B7 & B8 & B9 & B10 & B11 & B12).
  repeat split; congruence.
Qed.

(** Frames on which [process] returns early leave the rep as it is, unless
    a watchdog fires. *)
Lemma gated_run (th : Thresholds) (frames : list Frame) (tr : Tracker) :
  Forall (gated th) frames ->
  rep_open_inv tr ->
  exists tr' sounds,
    run th tr frames = Some (tr', sounds)
    /\ rep_open_inv tr'
    /\ (~ In (Some reset_counters) sounds ->
        sounds = repeat None (length frames) /\ rep_logic_untouched tr tr').
Proof.
  revert tr. induction frames as [|f frames IH]; intros tr Hall Hinv; cbn [run].
  - exists tr, []. split; [reflexivity|]. split; [exact Hinv|]. intros _.
    split; [reflexivity|]. unfold rep_logic_untouched. repeat split; reflexivity.
  - inversion Hall as [|? ? Hf Hrest]; subst.
    destruct (call_keeps_range th tr f Hinv) as (tr1 & ps & Hcall & Hinv1).
    assert (Hstep : ps = Some reset_counters
                    \/ (ps = None /\ rep_logic_untouched tr tr1)).
    { destruct Hf as [Hp|(Hp & Ho)].
      - rewrite (call_no_landmarks th tr f Hp) in Hcall.
        destruct (INACTIVE_THRESH th <=? idle_since tr f);
          inversion Hcall; subst tr1 ps; [left; reflexivity|right].
        split; [reflexivity|]. destruct tr. unfold rep_logic_untouched. cbn.
        repeat split; reflexivity.
      - rewrite (call_not_aligned th tr f Hp Ho) in Hcall. cbv zeta in Hcall.
        destruct (INACTIVE_THRESH th <=? _);
          inversion Hcall; subst tr1 ps; [left; reflexivity|right].
        split; [reflexivity|]. destruct tr. unfold rep_logic_untouched. cbn.
        repeat split; reflexivity. }
    rewrite Hcall.
    destruct (IH tr1 Hrest Hinv1) as (tr' & sounds & Hrun & Hinv' & Hquiet).
    rewrite Hrun. exists tr', (ps :: sounds).
    split; [reflexivity|]. split; [exact Hinv'|].
    intros Hno.
    destruct Hstep as [F|(Hps & Hun)]; [contradiction Hno; left; exact F|].
    destruct (Hquiet ltac:(intros F; apply Hno; right; exact F)) as (Hs & Hun').
    rewrite Hps, Hs. split; [reflexivity|].
    apply (rep_logic_untouched_trans tr tr1 tr'); assumption.
Qed.

(** *** The two paths that return early *)





(** X12.  Misalignment restarts the side-view watchdog.  Over consecutive
    misaligned frames, as long as no call returns ['reset_counters'],
    every call returns no sound and the rep logic is untouched; each frame
    zeroes the side-view accumulator and anchors it at its second clock
    reading, the front-view anchor being its first.  So the aligned frame
    that follows does not reset the session, whatever its state and
    however long that state has lasted, if the side-view watchdog's
    reading on it is less than [INACTIVE_THRESH] after the last misaligned
    frame's. *)
Theorem misalignment_restarts_watchdog (th : Thresholds) (tr : Tracker)
    (pre : list Frame) (g d : Frame) (st : option State) :
  misaligned th (pre ++ [g]) ->
  rep_open_inv tr ->
  classified th d st ->
  exists tr1 sounds,
    run th tr (pre ++ [g]) = Some (tr1, sounds)
    /\ (~ In (Some reset_counters) sounds ->
        sounds = repeat None (length pre + 1)
        /\ rep_logic_untouched tr tr1
        /\ INACTIVE_TIME tr1 = 0
        /\ start_inactive_time tr1 = perf_counter_at g 1%nat
        /\ start_inactive_time_front tr1 = perf_counter_at g 0%nat
        /\ (side_read st d - perf_counter_at g 1%nat < INACTIVE_THRESH th ->
            exists tr2 ps,
              call th tr1 d = Some (tr2, ps)
              /\ ps <> Some reset_counters
              /\ prev_state tr2 = st)).
Proof.
  intros Hmis Hinv Hd.
  assert (Hg : Forall (gated th) (pre ++ [g])).
  { eapply Forall_impl; [|exact Hmis]. intros a Ha. right. exact Ha. }
  destruct (gated_run th pre tr) as (tr0 & sounds0 & Hrun0 & Hinv0 & Hquiet0).
  { apply Forall_app in Hg. apply Hg. }
  { exact Hinv. }
  apply Forall_app in Hmis. destruct Hmis as (_ & Hgm).
  apply Forall_inv in Hgm. destruct Hgm as (Hp & Ho).
  pose proof (call_not_aligned th tr0 g Hp Ho) as Hcall. cbv zeta in Hcall.
  destruct (INACTIVE_THRESH th <=? _) eqn:Hq in Hcall.
  - exists (zeroed (perf_counter_at g 3%nat) (perf_counter_at g 2%nat)),
      (sounds0 ++ [Some reset_counters]).
    split.
    { rewrite (run_app th pre [g] tr), Hrun0. cbn [run]. rewrite Hcall. reflexivity. }
    intros Hno. contradiction Hno. apply in_or_app. right. left. reflexivity.
  - eexists. exists (sounds0 ++ [None]).
    split.
    { rewrite (run_app th pre [g] tr), Hrun0. cbn [run]. rewrite Hcall. reflexivity. }
    intros Hno.
    destruct Hquiet0 as (Hs0 & Hun0).
    { intros F. apply Hno. apply in_or_app. left. exact F. }
    set (tr1 := set_start_inactive_time _ _).
    assert (Hun1 : rep_logic_untouched tr0 tr1).
    { destruct tr0. unfold rep_logic_untouched. cbn. repeat split; reflexivity. }
    assert (Hinv1 : range_inv tr1).
    { destruct Hinv0 as (Hr0 & _). destruct tr0. exact Hr0. }
    split.
    { rewrite Hs0. rewrite repeat_app. reflexivity. }
    split; [apply (rep_logic_untouched_trans tr tr0 tr1); assumption|].
    split; [destruct tr0; reflexivity|].
    split; [destruct tr0; reflexivity|].
    split; [destruct tr0; reflexivity|].
    intros Hlt.
    assert (Hstall : stalls th tr1 d st = false).
    { unfold stalls.
      replace (INACTIVE_TIME tr1) with 0 by (destruct tr0; reflexivity).
      replace (start_inactive_time tr1) with (perf_counter_at g 1%nat)
        by (destruct tr0; reflexivity).
      unfold side_read in Hlt.
      assert (E : (INACTIVE_THRESH th
                   <=? 0 + (perf_counter_at d (S (hold_reads st)) - perf_counter_at g 1%nat))
                  = false) by (apply Z.leb_gt; lia).
      rewrite E. apply andb_false_r. }
    assert (Hcase : st = Some s1 \/ st <> Some s1).
    { destruct st as [[| |]|]; auto; right; discriminate. }
    destruct Hcase as [E|Hne].
    + subst st.
      destruct (call_s1 th tr1 d Hd Hinv1) as (tr2 & Hcall2 & (Hprev & _) & _).
      rewrite Hstall in Hcall2. cbn [by_priority] in Hcall2.
      do 2 eexists. split; [exact Hcall2|]. split; [|exact Hprev].
      destruct (counts_as_rep th tr1 d); discriminate.
    + destruct (call_moving th tr1 d st Hd Hne Hinv1 Hstall) as (tr2 & Hcall2 & Hprev & _).
      do 2 eexists. split; [exact Hcall2|]. split; [discriminate|exact Hprev].
Qed.

(** A rest of 14 s in a new session under the beginner profile, then two
    misaligned frames, then rest again: the frame at rest 17 s after the
    session started does not reset it. *)
Lemma misalignment_restarts_watchdog_witness :
  exists tr tr1 tr2 ps,
    run get_thresholds_leg_raises_beginner (init_tracker 0 0)
      [frame_at 5 0; frame_at 5 14000] = Some (tr, [Some incorrect; Some incorrect])
    /\ run get_thresholds_leg_raises_beginner tr
         ([misaligned_at 14500] ++ [misaligned_at 15000]) = Some (tr1, [None; None])
    /\ call get_thresholds_leg_raises_beginner tr1 (frame_at 5 17000) = Some (tr2, ps)
    /\ ps <> Some reset_counters.
Proof.
  assert (Hrun0 : exists tr,
             run get_thresholds_leg_raises_beginner (init_tracker 0 0)
               [frame_at 5 0; frame_at 5 14000]
             = Some (tr, [Some incorrect; Some incorrect])
             /\ rep_open_inv tr).
  { eexists. split; [vm_compute; reflexivity|].
    split; [exact I|]. intros _. reflexivity. }
  destruct Hrun0 as (tr & Hrun0 & Hinv).
  destruct (misalignment_restarts_watchdog get_thresholds_leg_raises_beginner tr
              [misaligned_at 14500] (misaligned_at 15000) (frame_at 5 17000) (Some s1))
    as (tr1 & sounds & Hrun & Hquiet).
  - repeat constructor; cbn; lia.
  - exact Hinv.
  - repeat split; cbn; lia.
  - pose proof Hrun0 as Hrun0'. vm_compute in Hrun0'. inversion Hrun0'; subst tr.
    pose proof Hrun as Hrun'. vm_compute in Hrun'. inversion Hrun'; subst tr1 sounds.
    destruct Hquiet as (_ & _ & _ & _ & _ & Hnext).
    { cbn. intros [F|[F|[]]]; discriminate F. }
    destruct Hnext as (tr2 & ps & Hcall & Hps & _).
    { cbn. lia. }
    eexists. eexists. exists tr2, ps.
    split; [exact Hrun0|]. split; [exact Hrun|]. split; [exact Hcall|exact Hps].
Defined.

(** X16.  The hold timer runs through gaps.  A frame classified ['s3']
    that starts the timer, then frames on which [process] returns early
    (no landmarks, or camera misaligned), then a frame classified ['s3']:
    unless a watchdog resets the session on the way, the timer is still
    anchored at the first frame, and the hold is latched when the last
    frame's reading comes [TARGET_HOLD] or more after the first's, the
    time of the gap included. *)
Theorem hold_runs_through_gaps (th : Thresholds) (tr : Tracker) (b0 : Frame)
    (G : list Frame) (b : Frame) :
  classified th b0 (Some s3) ->
  Forall (gated th) G ->
  classified th b (Some s3) ->
  rep_open_inv tr ->
  s3_enter_time tr = None ->
  exists tr' sounds,
    run th tr (b0 :: G ++ [b]) = Some (tr', sounds)
    /\ (~ In (Some reset_counters) sounds ->
        s3_enter_time tr' = Some (hold_read b0)
        /\ s3_hold_ok tr'
           = s3_hold_ok tr || (TARGET_HOLD <=? hold_read b - hold_read b0)).
Proof.
  intros Hb0 HG Hb Hinv Hent.
  destruct (call_keeps_range th tr b0 Hinv) as (tr1 & ps0 & Hcall0 & Hinv1).
  destruct (call_hold th tr b0 (Some s3) Hb0 ltac:(discriminate) (proj1 Hinv))
    as (tr1' & ps0' & Hcall0' & Hhold0).
  assert (E : tr1' = tr1 /\ ps0' = ps0)
    by (rewrite Hcall0 in Hcall0'; inversion Hcall0'; auto).
  destruct E as [-> ->]. clear Hcall0'.
  destruct (gated_run th G tr1 HG Hinv1) as (tr2 & s_2 & Hrun2 & Hinv2 & Hgap).
  destruct (call_hold th tr2 b (Some s3) Hb ltac:(discriminate) (proj1 Hinv2))
    as (tr3 & ps3 & Hcall3 & Hhold3).
  exists tr3, (ps0 :: s_2 ++ [ps3]).
  split.
  { cbn [run]. rewrite Hcall0, run_app, Hrun2. cbn [run]. rewrite Hcall3. reflexivity. }
  intros Hno.
  assert (Hn0 : ps0 <> Some reset_counters) by (intros F; apply Hno; left; exact F).
  assert (Hn2 : ~ In (Some reset_counters) s_2).
  { intros F. apply Hno. right. apply in_or_app. left. exact F. }
  assert (Hn3 : ps3 <> Some reset_counters).
  { intros F. apply Hno. right. apply in_or_app. right. left. exact F. }
  destruct (Hhold0 Hn0) as (H0 & _). specialize (H0 eq_refl). rewrite Hent in H0.
  destruct H0 as (He1 & Hh1).
  destruct (Hgap Hn2) as (_ & Hun).
  destruct Hun as (_ & _ & _ & _ & _ & He2 & Hh2 & _).
  destruct (Hhold3 Hn3) as (H3 & _). specialize (H3 eq_refl).
  rewrite He2, He1 in H3. destruct H3 as (He3 & Hh3).
  split; [exact He3|]. rewrite Hh3, Hh2, Hh1. reflexivity.
Qed.

(** Under the beginner profile: the leg reaches the top, the pose is lost
    for two frames, and is found again at the top 5.2 s later. *)
Lemma hold_runs_through_gaps_witness :
  exists tr' sounds,
    run get_thresholds_leg_raises_beginner
      (set_state_seq [s2] (set_prev_state (Some s2) (init_tracker 0 0)))
      (frame_at 70 1000
         :: [mkFrame false 0 0 0 0 (fun _ => 3000); mkFrame false 0 0 0 0 (fun _ => 6000)]
         ++ [frame_at 70 6200])
    = Some (tr', sounds)
    /\ (~ In (Some reset_counters) sounds ->
        s3_enter_time tr' = Some (hold_read (frame_at 70 1000))
        /\ s3_hold_ok tr'
           = false || (TARGET_HOLD <=? hold_read (frame_at 70 6200)
                                       - hold_read (frame_at 70 1000))).
Proof.
  apply (hold_runs_through_gaps get_thresholds_leg_raises_beginner
           (set_state_seq [s2] (set_prev_state (Some s2) (init_tracker 0 0)))
           (frame_at 70 1000)
           [mkFrame false 0 0 0 0 (fun _ => 3000); mkFrame false 0 0 0 0 (fun _ => 6000)]
           (frame_at 70 6200)).
  - repeat split; cbn; lia.
  - repeat constructor.
  - repeat split; cbn; lia.
  - split; [exact I|]. intros F. discriminate F.
  - reflexivity.
Defined.

(** *** Banners *)

(** The flags and counters that the classification of a frame that is not
    at rest leaves. *)
Lemma classify_flags (th : Thresholds) (st : option State) (hv kf tilt : Z)
    (clk : nat -> Z) (n : nat) (tr : Tracker) :
  st <> Some s1 ->
  match classify th st hv kf tilt clk n tr with
  | Returns _ _ tr1 =>
      let top := opt_State_eqb st (Some s3) in
      DISPLAY_TEXT tr1
      = mkArr4 (negb top && (get4 I0 (DISPLAY_TEXT tr) || (KNEE_LOCK_MAX th <? kf)))
               (negb top && (get4 I1 (DISPLAY_TEXT tr) || (TORSO_TILT_MAX th <? tilt)))
               (get4 I2 (DISPLAY_TEXT tr)
                || (opt_State_eqb st (Some s2) && (hv <? fst (PASS (HIP_KNEE_VERT th)))))
               (get4 I3 (DISPLAY_TEXT tr))
      /\ COUNT_FRAMES tr1
         = mkArr4 (if top then 0 else get4 I0 (COUNT_FRAMES tr))
                  (if top then 0 else get4 I1 (COUNT_FRAMES tr))
                  (get4 I2 (COUNT_FRAMES tr))
                  (get4 I3 (COUNT_FRAMES tr))
  | Raises _ => True
  end.
Proof.
  intros Hst.
  destruct tr as [seq prev cur ent hok rlo rhi ts ia tf iaf [d0 d1 d2 d3] [c0 c1 c2 c3]
                  bad cc ic].
  destruct st as [[| |]|]; try congruence; clear Hst.
  all: py_unfold.
  all: repeat split_outcome.
  all: try exact I.
  all: py_fields; split; destruct d0, d1, d2; reflexivity.
Qed.

Lemma aligned_feedback_phases (th : Thresholds) (fr : Frame) (clk : nat -> Z) (n : nat)
    (tr : Tracker) :
  aligned_feedback th fr clk n tr
  = let st := _get_state th (180 - hip_angle fr) in
    match classify th st (180 - hip_angle fr) (Z.max 0 (180 - knee_internal fr))
            (torso_tilt fr) clk (S n)
            (set_start_inactive_time_front (clk n) (set_INACTIVE_TIME_FRONT 0 tr)) with
    | Returns ps n1 tr1 =>
        match side_inactivity th ps clk n1 tr1 with
        | Returns _ n2 tr2 =>
            let counted := where4 (DISPLAY_TEXT tr2) (fun c => c + 1) (COUNT_FRAMES tr2) in
            Returns (_show_feedback counted FEEDBACK_ID_MAP) n2 (set_COUNT_FRAMES counted tr2)
        | Raises e => Raises e
        end
    | Raises e => Raises e
    end.
Proof. reflexivity. Qed.

(** An aligned frame, as far as the banners go: the flags and counters
    [shown] and [counted] that the classification leaves, the banners
    drawn from them, and the sweep. *)
Lemma aligned_sweep (th : Thresholds) (tr : Tracker) (fr : Frame) (st : option State) :
  classified th fr st ->
  range_inv tr ->
  exists shown counted tr' ps,
    call th tr fr = Some (tr', ps)
    /\ (st = Some s1 -> shown = full4 false /\ counted = full4 0)
    /\ (st <> Some s1 ->
        let top := opt_State_eqb st (Some s3) in
        shown
        = mkArr4 (negb top && (get4 I0 (DISPLAY_TEXT tr)
                               || (KNEE_LOCK_MAX th <? Z.max 0 (180 - knee_internal fr))))
                 (negb top && (get4 I1 (DISPLAY_TEXT tr)
                               || (TORSO_TILT_MAX th <? torso_tilt fr)))
                 (get4 I2 (DISPLAY_TEXT tr)
                  || (opt_State_eqb st (Some s2)
                      && (180 - hip_angle fr <? fst (PASS (HIP_KNEE_VERT th)))))
                 (get4 I3 (DISPLAY_TEXT tr))
        /\ counted
           = mkArr4 (if top then 0 else get4 I0 (COUNT_FRAMES tr))
                    (if top then 0 else get4 I1 (COUNT_FRAMES tr))
                    (get4 I2 (COUNT_FRAMES tr))
                    (get4 I3 (COUNT_FRAMES tr)))
    /\ (ps = Some reset_counters ->
        feedback_drawn th tr fr = Some []
        /\ DISPLAY_TEXT tr' = full4 false /\ COUNT_FRAMES tr' = full4 0)
    /\ (ps <> Some reset_counters ->
        feedback_drawn th tr fr
        = Some (_show_feedback (where4 shown (fun c => c + 1) counted) FEEDBACK_ID_MAP)
        /\ (forall i, get4 i (DISPLAY_TEXT tr')
                      = swept_flag th (get4 i shown) (get4 i counted))
        /\ (forall i, get4 i (COUNT_FRAMES tr')
                      = swept_count th (get4 i shown) (get4 i counted))).
Proof.
  intros Hc Hr.
  destruct (call_aligned th tr fr st Hc Hr)
    as (ps1 & tr1 & tr' & Hcl & Hcall & _ & _ & Hfire & Hquiet).
  exists (DISPLAY_TEXT tr1), (COUNT_FRAMES tr1), tr', (by_priority (stalls th tr fr st) ps1).
  split; [exact Hcall|].
  assert (Hra : range_inv (front_reset fr tr)) by (destruct tr; exact Hr).
  set (hv := 180 - hip_angle fr) in *.
  set (kf := Z.max 0 (180 - knee_internal fr)) in *.
  set (clk := perf_counter_at fr) in *.
  destruct (classify_returns th st hv kf (torso_tilt fr) clk 1%nat (front_reset fr tr) Hra)
    as (ps2 & tr2 & Hcl2 & Hcur & (Hw1 & Hw2 & Hw3 & _) & _ & Hps).
  assert (E : ps2 = ps1 /\ tr2 = tr1) by (rewrite Hcl in Hcl2; inversion Hcl2; auto).
  destruct E as [-> ->]. clear Hcl2.
  split.
  { intros Hs. rewrite Hs in Hcl.
    destruct (classify_s1 th hv kf (torso_tilt fr) clk 1%nat (front_reset fr tr) Hra)
      as (tr0 & Hcl0 & _).
    destruct (resolve_rep_returns th clk 1%nat tr0) as (ps0 & tr1' & Hres & Hclr & _).
    rewrite Hcl0, Hres in Hcl. inversion Hcl; subst. split; apply Hclr. }
  split.
  { intros Hs.
    pose proof (classify_flags th st hv kf (torso_tilt fr) clk 1%nat (front_reset fr tr) Hs)
      as Hfl.
    rewrite Hcl in Hfl. cbv zeta in Hfl. cbv zeta.
    replace (DISPLAY_TEXT (front_reset fr tr)) with (DISPLAY_TEXT tr) in Hfl
      by (destruct tr; reflexivity).
    replace (COUNT_FRAMES (front_reset fr tr)) with (COUNT_FRAMES tr) in Hfl
      by (destruct tr; reflexivity).
    exact Hfl. }
  assert (Hfd : feedback_drawn th tr fr
                = if stalls th tr fr st then Some []
                  else Some (_show_feedback
                               (where4 (DISPLAY_TEXT tr1) (fun c => c + 1) (COUNT_FRAMES tr1))
                               FEEDBACK_ID_MAP)).
  { destruct Hc as (Hp & Ho & Hst).
    unfold feedback_drawn. rewrite Hp. cbn [negb].
    apply Z.ltb_ge in Ho. rewrite Ho.
    rewrite aligned_feedback_phases. cbv zeta. rewrite Hst.
    fold (front_reset fr tr). fold hv kf clk. rewrite Hcl.
    rewrite side_inactivity_returns.
    unfold stalls. fold clk.
    rewrite Hcur, Hw1, Hw2, Hw3.
    replace (hold_reads st + 1)%nat with (S (hold_reads st)) by lia.
    replace (prev_state (front_reset fr tr)) with (prev_state tr)
      by (destruct tr; reflexivity).
    replace (INACTIVE_TIME (front_reset fr tr)) with (INACTIVE_TIME tr)
      by (destruct tr; reflexivity).
    replace (start_inactive_time (front_reset fr tr)) with (start_inactive_time tr)
      by (destruct tr; reflexivity).
    destruct (opt_State_eqb st (prev_state tr)); cbn [andb].
    - destruct (INACTIVE_THRESH th <=? _); [reflexivity|].
      destruct tr1; reflexivity.
    - destruct tr1; reflexivity. }
  assert (Hnr : ps1 <> Some reset_counters).
  { destruct Hps as [(-> & _)|[(-> & _)|(-> & _)]]; discriminate. }
  rewrite Hfd.
  destruct (stalls th tr fr st); cbn [by_priority].
  - split.
    + intros _. destruct (Hfire eq_refl) as ((_ & Hd & Hn & _) & _). auto.
    + intros F. contradiction F. reflexivity.
  - split.
    + intros F. contradiction (Hnr F).
    + intros _. destruct (Hquiet eq_refl) as (_ & _ & _ & Hd & Hn). auto.
Qed.

(** Flag and counter of a banner when the sweep starts, from a frame
    boundary: a flag raised during the call still has counter 0. *)
Lemma raised_flag_ok (th : Thresholds) (d x : bool) (c : Z) :
  (if d then 1 <= c <= CNT_FRAME_THRESH th else c = 0) ->
  if d || x then c = 0 \/ 1 <= c <= CNT_FRAME_THRESH th else c = 0.
Proof. destruct d, x; cbn; auto. Qed.

Lemma swept_ok (th : Thresholds) (d : bool) (c : Z) :
  (if d then c = 0 \/ 1 <= c <= CNT_FRAME_THRESH th else c = 0) ->
  (if swept_flag th d c
   then 1 <= swept_count th d c <= CNT_FRAME_THRESH th
   else swept_count th d c = 0)
  /\ (swept_flag th d c = true -> d = true)
  /\ (negb ((if d then c + 1 else c) =? 0) = d).
Proof.
  unfold swept_flag, swept_count. cbv zeta.
  destruct d; intros H.
  - destruct (CNT_FRAME_THRESH th <? c + 1) eqn:E.
    + split; [reflexivity|]. split; [discriminate|].
      destruct (c + 1 =? 0) eqn:E0; [apply Z.eqb_eq in E0; lia|reflexivity].
    + apply Z.ltb_ge in E. split; [lia|]. split; [reflexivity|].
      destruct (c + 1 =? 0) eqn:E0; [apply Z.eqb_eq in E0; lia|reflexivity].
  - subst c. destruct (CNT_FRAME_THRESH th <? 0); repeat split; auto; discriminate.
Qed.

(** The flags and counters when the sweep of an aligned frame starts. *)
Lemma sweep_start_ok (th : Thresholds) (tr : Tracker) (fr : Frame) (st : option State)
    (shown : Arr4 bool) (counted : Arr4 Z) :
  banner_inv th tr ->
  (st = Some s1 -> shown = full4 false /\ counted = full4 0) ->
  (st <> Some s1 ->
   let top := opt_State_eqb st (Some s3) in
   shown
   = mkArr4 (negb top && (get4 I0 (DISPLAY_TEXT tr)
                          || (KNEE_LOCK_MAX th <? Z.max 0 (180 - knee_internal fr))))
            (negb top && (get4 I1 (DISPLAY_TEXT tr)
                          || (TORSO_TILT_MAX th <? torso_tilt fr)))
            (get4 I2 (DISPLAY_TEXT tr)
             || (opt_State_eqb st (Some s2)
                 && (180 - hip_angle fr <? fst (PASS (HIP_KNEE_VERT th)))))
            (get4 I3 (DISPLAY_TEXT tr))
   /\ counted
      = mkArr4 (if top then 0 else get4 I0 (COUNT_FRAMES tr))
               (if top then 0 else get4 I1 (COUNT_FRAMES tr))
               (get4 I2 (COUNT_FRAMES tr))
               (get4 I3 (COUNT_FRAMES tr))) ->
  (forall i, if get4 i shown
             then get4 i counted = 0 \/ 1 <= get4 i counted <= CNT_FRAME_THRESH th
             else get4 i counted = 0)
  /\ get4 I3 shown = false.
Proof.
  intros (Hb & H3) Hs1 Hmv.
  assert (Hd : st = Some s1 \/ st <> Some s1).
  { destruct st as [[| |]|]; auto; right; discriminate. }
  destruct Hd as [Hd|Hd].
  - destruct (Hs1 Hd) as (-> & ->). split; [|reflexivity]. intros []; reflexivity.
  - destruct (Hmv Hd) as (-> & ->). cbv zeta. split; [|exact H3].
    intros i.
    pose proof (Hb I0) as B0. pose proof (Hb I1) as B1.
    pose proof (Hb I2) as B2. pose proof (Hb I3) as B3.
    destruct i; cbn [get4 at0 at1 at2 at3].
    + destruct (opt_State_eqb st (Some s3)); cbn [negb andb]; [reflexivity|].
      apply raised_flag_ok, B0.
    + destruct (opt_State_eqb st (Some s3)); cbn [negb andb]; [reflexivity|].
      apply raised_flag_ok, B1.
    + apply raised_flag_ok, B2.
    + pose proof (raised_flag_ok th _ false _ B3) as H. rewrite orb_false_r in H. exact H.
Qed.

Lemma call_keeps_banners (th : Thresholds) (tr : Tracker) (fr : Frame) :
  rep_open_inv tr ->
  banner_inv th tr ->
  exists tr' ps,
    call th tr fr = Some (tr', ps) /\ rep_open_inv tr' /\ banner_inv th tr'.
Proof.
  intros Hinv Hb.
  destruct (call_keeps_range th tr fr Hinv) as (tr1 & ps & Hcall & Hinv1).
  exists tr1, ps. split; [exact Hcall|]. split; [exact Hinv1|].
  assert (Hz : forall a b, banner_inv th (zeroed a b)).
  { intros a b. split; [intros []; reflexivity|reflexivity]. }
  destruct (pose_landmarks fr) eqn:Hp.
  2:{ rewrite (call_no_landmarks th tr fr Hp) in Hcall.
      destruct (INACTIVE_THRESH th <=? idle_since tr fr);
        inversion Hcall; subst tr1 ps; clear Hcall; [apply Hz|].
      destruct tr; exact Hb. }
  destruct (OFFSET_THRESH th <? offset_angle fr) eqn:Ho.
  { apply Z.ltb_lt in Ho. rewrite (call_not_aligned th tr fr Hp Ho) in Hcall.
    cbv zeta in Hcall.
    destruct (INACTIVE_THRESH th <=? _);
      inversion Hcall; subst tr1 ps; clear Hcall; [apply Hz|].
    destruct tr; exact Hb. }
  apply Z.ltb_ge in Ho.
  set (st := _get_state th (180 - hip_angle fr)).
  assert (Hc : classified th fr st) by (repeat split; auto).
  destruct (aligned_sweep th tr fr st Hc (proj1 Hinv))
    as (shown & counted & tr' & ps' & Hcall' & Hs1 & Hmv & Hreset & Hsweep).
  rewrite Hcall in Hcall'. inversion Hcall'; subst tr' ps'. clear Hcall'.
  destruct (sweep_start_ok th tr fr st shown counted Hb Hs1 Hmv) as (Hmid & Hmid3).
  assert (Hd : ps = Some reset_counters \/ ps <> Some reset_counters).
  { destruct ps as [[]|]; auto; right; discriminate. }
  destruct Hd as [Hd|Hd].
  - destruct (Hreset Hd) as (_ & HD & HC). unfold banner_inv. rewrite HD, HC.
    split; [intros []; reflexivity|reflexivity].
  - destruct (Hsweep Hd) as (_ & HD & HC). split.
    + intros i. rewrite HD, HC. apply swept_ok, Hmid.
    + rewrite HD.
      destruct (swept_flag th (get4 I3 shown) (get4 I3 counted)) eqn:E; [|reflexivity].
      apply (swept_ok th _ _ (Hmid I3)) in E. congruence.
Qed.

Lemma run_keeps_banners (th : Thresholds) (frames : list Frame) (tr : Tracker) :
  rep_open_inv tr ->
  banner_inv th tr ->
  exists tr' sounds,
    run th tr frames = Some (tr', sounds) /\ rep_open_inv tr' /\ banner_inv th tr'.
Proof.
  revert tr. induction frames as [|fr frames IH]; intros tr Hinv Hb; cbn [run].
  - exists tr, []. auto.
  - destruct (call_keeps_banners th tr fr Hinv Hb) as (tr1 & ps & Hcall & Hinv1 & Hb1).
    rewrite Hcall.
    destruct (IH tr1 Hinv1 Hb1) as (tr' & sounds & Hrun & Hinv' & Hb').
    rewrite Hrun. exists tr', (ps :: sounds). auto.
Qed.

Lemma init_invs (th : Thresholds) (t0 t1 : Z) :
  rep_open_inv (init_tracker t0 t1) /\ banner_inv th (init_tracker t0 t1).
Proof.
  split; [split; [exact I|intros _; reflexivity]|].
  split; [intros []; reflexivity|reflexivity].
Qed.

(** X7.  Banner flags and counters.  At every frame boundary of every run
    from a new session, each banner whose flag is set has a frame counter
    between 1 and [CNT_FRAME_THRESH], each banner whose flag is clear has
    counter 0, and the flag of CONTROL LOWERING is clear: the one place
    that sets it, the drop check of the branch on ['s1'], is followed in
    the same call by [_reset_live_flags]. *)
Theorem banner_counters_consistent (th : Thresholds) (t0 t1 : Z) (frames : list Frame) :
  exists tr sounds,
    run th (init_tracker t0 t1) frames = Some (tr, sounds)
    /\ (forall i,
          (get4 i (DISPLAY_TEXT tr) = true ->
           1 <= get4 i (COUNT_FRAMES tr) <= CNT_FRAME_THRESH th)
          /\ (get4 i (DISPLAY_TEXT tr) = false -> get4 i (COUNT_FRAMES tr) = 0))
    /\ get4 I3 (DISPLAY_TEXT tr) = false
    /\ get4 I3 (COUNT_FRAMES tr) = 0.
Proof.
  destruct (init_invs th t0 t1) as (Hinv & Hb).
  destruct (run_keeps_banners th frames (init_tracker t0 t1) Hinv Hb)
    as (tr & sounds & Hrun & _ & (Hall & H3)).
  exists tr, sounds. split; [exact Hrun|].
  split.
  - intros i. specialize (Hall i).
    destruct (get4 i (DISPLAY_TEXT tr)); split; auto; discriminate.
  - split; [exact H3|]. specialize (Hall I3). rewrite H3 in Hall. exact Hall.
Qed.

Lemma get4_where4 {A} (i : Idx4) (mask : Arr4 bool) (f : A -> A) (a : Arr4 A) :
  get4 i (where4 mask f a) = if get4 i mask then f (get4 i a) else get4 i a.
Proof. destruct i; reflexivity. Qed.

Lemma banner_inj (i j : Idx4) :
  banner FEEDBACK_ID_MAP i = banner FEEDBACK_ID_MAP j -> i = j.
Proof.
  intros H. apply (f_equal (fun b => snd (pos b))) in H.
  destruct i, j; cbn in H; try reflexivity; discriminate H.
Qed.

(** [_show_feedback] draws the banners whose counter is not zero. *)
Lemma shown_iff (c_frame : Arr4 Z) (i : Idx4) :
  In (banner FEEDBACK_ID_MAP i) (_show_feedback c_frame FEEDBACK_ID_MAP)
  <-> get4 i c_frame <> 0.
Proof.
  unfold _show_feedback, np_where. rewrite in_map_iff.
  split.
  - intros (j & Hj & Hin). apply banner_inj in Hj. subst j.
    apply filter_In in Hin. destruct Hin as (_ & Hnz).
    apply negb_true_iff, Z.eqb_neq in Hnz. exact Hnz.
  - intros Hnz. exists i. split; [reflexivity|].
    apply filter_In. split; [destruct i; cbn; tauto|].
    apply negb_true_iff, Z.eqb_neq. exact Hnz.
Qed.

(** X8.  Which banners are drawn.  On an aligned frame of a session, at
    any point of any run from a new session: every banner whose flag is
    set when the call ends has been drawn by [_show_feedback] during the
    call; CONTROL LOWERING is never drawn; nothing is drawn on a frame
    classified ['s1'] (the flags that the rep resolution raises are
    cleared before the banners are drawn) nor on a frame that resets the
    session;
    LOCK YOUR KNEE and DON'T ARCH YOUR BACK are not drawn on a frame
    classified ['s3']; on other frames that do not reset the session, LOCK
    YOUR KNEE is drawn when the knee is bent beyond [KNEE_LOCK_MAX], DON'T
    ARCH YOUR BACK when the torso is tilted beyond [TORSO_TILT_MAX], and
    RAISE HIGHER on a frame classified ['s2'] below the PASS band. *)
Theorem banners_drawn (th : Thresholds) (t0 t1 : Z) (frames : list Frame)
    (tr : Tracker) (sounds : list (option Sound)) (fr : Frame) :
  run th (init_tracker t0 t1) frames = Some (tr, sounds) ->
  sweeping th fr ->
  let st := _get_state th (180 - hip_angle fr) in
  let label := banner FEEDBACK_ID_MAP in
  exists drawn tr' ps,
    feedback_drawn th tr fr = Some drawn
    /\ call th tr fr = Some (tr', ps)
    /\ (forall i, get4 i (DISPLAY_TEXT tr') = true -> In (label i) drawn)
    /\ ~ In (label I3) drawn
    /\ (st = Some s1 -> drawn = [])
    /\ (ps = Some reset_counters -> drawn = [])
    /\ (st = Some s3 -> ~ In (label I0) drawn /\ ~ In (label I1) drawn)
    /\ (ps <> Some reset_counters -> st <> Some s1 -> st <> Some s3 ->
        (KNEE_LOCK_MAX th < Z.max 0 (180 - knee_internal fr) -> In (label I0) drawn)
        /\ (TORSO_TILT_MAX th < torso_tilt fr -> In (label I1) drawn))
    /\ (ps <> Some reset_counters -> st = Some s2 ->
        180 - hip_angle fr < fst (PASS (HIP_KNEE_VERT th)) -> In (label I2) drawn).
Proof.
  intros Hrun (Hp & Ho) st label.
  destruct (init_invs th t0 t1) as (Hinv0 & Hb0).
  destruct (run_keeps_banners th frames (init_tracker t0 t1) Hinv0 Hb0)
    as (tr0 & sounds0 & Hrun0 & Hinv & Hb).
  rewrite Hrun in Hrun0. inversion Hrun0; subst tr0 sounds0. clear Hrun0.
  assert (Hc : classified th fr st) by (repeat split; auto).
  destruct (aligned_sweep th tr fr st Hc (proj1 Hinv))
    as (shown & counted & tr' & ps & Hcall & Hs1 & Hmv & Hreset & Hsweep).
  destruct (sweep_start_ok th tr fr st shown counted Hb Hs1 Hmv) as (Hmid & Hmid3).
  assert (Hd : ps = Some reset_counters \/ ps <> Some reset_counters).
  { destruct ps as [[]|]; auto; right; discriminate. }
  destruct Hd as [Hd|Hd].
  { destruct (Hreset Hd) as (Hfd & HD & _).
    exists [], tr', ps. split; [exact Hfd|]. split; [exact Hcall|].
    split; [intros i F; rewrite HD in F; destruct i; discriminate F|].
    split; [intros F; exact F|].
    split; [reflexivity|]. split; [reflexivity|].
    split; [intros _; split; intros F; exact F|].
    split; intros F; contradiction (F Hd). }
  destruct (Hsweep Hd) as (Hfd & HD & _).
  set (drawn := _show_feedback (where4 shown (fun c => c + 1) counted) FEEDBACK_ID_MAP) in *.
  assert (Hkey : forall i, In (label i) drawn <-> get4 i shown = true).
  { intros i. unfold label, drawn. rewrite shown_iff, get4_where4.
    destruct (swept_ok th _ _ (Hmid i)) as (_ & _ & Hnz).
    rewrite <- Hnz at 2. rewrite negb_true_iff, Z.eqb_neq. reflexivity. }
  exists drawn, tr', ps. split; [exact Hfd|]. split; [exact Hcall|].
  split.
  { intros i Hi. apply Hkey. rewrite HD in Hi.
    apply (swept_ok th _ _ (Hmid i)). exact Hi. }
  split.
  { intros F. apply Hkey in F. congruence. }
  split.
  { intros E. destruct (Hs1 E) as (Es & Ec). unfold drawn. rewrite Es, Ec. reflexivity. }
  split; [intros F; contradiction (Hd F)|].
  assert (Hn1 : st <> Some s1 ->
                get4 I0 shown
                = negb (opt_State_eqb st (Some s3))
                  && (get4 I0 (DISPLAY_TEXT tr)
                      || (KNEE_LOCK_MAX th <? Z.max 0 (180 - knee_internal fr)))
                /\ get4 I1 shown
                   = negb (opt_State_eqb st (Some s3))
                     && (get4 I1 (DISPLAY_TEXT tr) || (TORSO_TILT_MAX th <? torso_tilt fr))
                /\ get4 I2 shown
                   = get4 I2 (DISPLAY_TEXT tr)
                     || (opt_State_eqb st (Some s2)
                         && (180 - hip_angle fr <? fst (PASS (HIP_KNEE_VERT th))))).
  { intros E. destruct (Hmv E) as (Es & _). rewrite Es. auto. }
  split.
  { intros E.
    destruct (Hn1 ltac:(rewrite E; discriminate)) as (E0 & E1 & _).
    rewrite E in E0, E1. cbn [opt_State_eqb State_eqb negb andb] in E0, E1.
    split; intros F; apply Hkey in F; congruence. }
  split.
  { intros _ E1 E3. destruct (Hn1 E1) as (E0 & E1' & _).
    assert (Hnt : opt_State_eqb st (Some s3) = false).
    { destruct st as [[| |]|]; try reflexivity; congruence. }
    rewrite Hnt in E0, E1'. cbn [negb andb] in E0, E1'.
    split; intros Hlt; apply Hkey; apply Z.ltb_lt in Hlt.
    - rewrite E0, Hlt. apply orb_true_r.
    - rewrite E1', Hlt. apply orb_true_r. }
  intros _ E2 Hlt. apply Hkey.
  destruct (Hn1 ltac:(rewrite E2; discriminate)) as (_ & _ & E2').
  apply Z.ltb_lt in Hlt. rewrite E2', E2, Hlt. apply orb_true_r.
Qed.

(** Under the beginner profile, after one resting frame: a raising frame
    with the knee bent by 30 degrees draws LOCK YOUR KNEE and RAISE
    HIGHER. *)
Lemma banners_drawn_witness :
  let th := get_thresholds_leg_raises_beginner in
  let tr := set_INCORRECT_COUNT 1
              (set_curr_state (Some s1) (set_prev_state (Some s1) (init_tracker 0 0))) in
  let fr := mkFrame true 0 150 150 0 (fun _ => 100) in
  exists drawn tr' ps,
    feedback_drawn th tr fr = Some drawn
    /\ call th tr fr = Some (tr', ps)
    /\ (forall i, get4 i (DISPLAY_TEXT tr') = true -> In (banner FEEDBACK_ID_MAP i) drawn)
    /\ ~ In (banner FEEDBACK_ID_MAP I3) drawn.
Proof.
  cbv zeta.
  destruct (banners_drawn get_thresholds_leg_raises_beginner 0 0 [frame_at 5 0]
              (set_INCORRECT_COUNT 1
                 (set_curr_state (Some s1) (set_prev_state (Some s1) (init_tracker 0 0))))
              [Some incorrect] (mkFrame true 0 150 150 0 (fun _ => 100)))
    as (drawn & tr' & ps & Hfd & Hcall & Hset & H3 & _).
  - vm_compute. reflexivity.
  - split; [reflexivity|]. cbn. lia.
  - exists drawn, tr', ps. auto.
Defined.

(** *** The range check *)

Lemma get_state_in_band (th : Thresholds) (a : Z) :
  match _get_state th a with
  | Some s1 => in_band (NORMAL (HIP_KNEE_VERT th)) a = true
  | Some s2 => in_band (TRANS (HIP_KNEE_VERT th)) a = true
  | Some s3 => in_band (PASS (HIP_KNEE_VERT th)) a = true
  | None => True
  end.
Proof.
  unfold _get_state. cbv zeta.
  destruct (in_band (NORMAL (HIP_KNEE_VERT th)) a) eqn:E1; [reflexivity|].
  destruct (in_band (TRANS (HIP_KNEE_VERT th)) a) eqn:E2; [reflexivity|].
  destruct (in_band (PASS (HIP_KNEE_VERT th)) a) eqn:E3; [reflexivity|exact I].
Qed.

Lemma in_band_bounds (band : Z * Z) (a : Z) :
  in_band band a = true <-> fst band <= a <= snd band.
Proof. unfold in_band. rewrite andb_true_iff, !Z.leb_le. tauto. Qed.

Lemma call_keeps_top (th : Thresholds) (tr : Tracker) (fr : Frame) :
  rep_open_inv tr ->
  top_inv th tr ->
  exists tr' ps,
    call th tr fr = Some (tr', ps) /\ rep_open_inv tr' /\ top_inv th tr'.
Proof.
  intros Hinv Ht.
  destruct (call_keeps_range th tr fr Hinv) as (tr1 & ps & Hcall & Hinv1).
  exists tr1, ps. split; [exact Hcall|]. split; [exact Hinv1|].
  assert (Hempty : forall t, state_seq t = [] -> top_inv th t).
  { intros t E F. rewrite E in F. discriminate F. }
  destruct (pose_landmarks fr) eqn:Hp.
  2:{ rewrite (call_no_landmarks th tr fr Hp) in Hcall.
      destruct (INACTIVE_THRESH th <=? idle_since tr fr);
        inversion Hcall; subst tr1 ps; clear Hcall; [apply Hempty; reflexivity|].
      destruct tr; exact Ht. }
  destruct (OFFSET_THRESH th <? offset_angle fr) eqn:Ho.
  { apply Z.ltb_lt in Ho. rewrite (call_not_aligned th tr fr Hp Ho) in Hcall.
    cbv zeta in Hcall.
    destruct (INACTIVE_THRESH th <=? _);
      inversion Hcall; subst tr1 ps; clear Hcall; [apply Hempty; reflexivity|].
    destruct tr; exact Ht. }
  apply Z.ltb_ge in Ho.
  destruct (call_cases th tr fr (proj1 Hinv)) as (tr2 & ps2 & Hcall2 & Hcases).
  assert (E : tr2 = tr1 /\ ps2 = ps) by (rewrite Hcall in Hcall2; inversion Hcall2; auto).
  destruct E as [-> ->]. clear Hcall2.
  destruct Hcases as [(_ & _ & _ & Hs)|[(Hnone & _)|(_ & _ & Hs & _)]];
    [apply Hempty, Hs| |apply Hempty, Hs].
  set (st := _get_state th (180 - hip_angle fr)).
  assert (Hc : classified th fr st) by (repeat split; auto).
  assert (Hst : st <> Some s1).
  { intros E. rewrite E in Hc.
    destruct (call_s1 th tr fr Hc (proj1 Hinv)) as (tr2 & Hcall2 & _).
    rewrite Hcall in Hcall2. inversion Hcall2 as [[Et Ep]].
    rewrite Hnone in Ep.
    destruct (stalls th tr fr (Some s1)), (counts_as_rep th tr fr); discriminate Ep. }
  assert (Hq : stalls th tr fr st = false).
  { destruct (stalls th tr fr st) eqn:E; [|reflexivity].
    destruct (call_aligned th tr fr st Hc (proj1 Hinv)) as (ps1 & t1 & t' & _ & Hcall2 & _).
    rewrite Hcall, E in Hcall2. inversion Hcall2 as [[Et Ep]].
    rewrite Hnone in Ep. discriminate Ep. }
  destruct (call_moving th tr fr st Hc Hst (proj1 Hinv) Hq)
    as (tr2 & Hcall2 & _ & Hs' & _ & _ & _ & Hrange & _).
  assert (E : tr2 = tr1) by (rewrite Hcall in Hcall2; inversion Hcall2; auto).
  subst tr2. clear Hcall2.
  unfold top_inv in *. rewrite Hs'. intros Hm3.
  pose proof (proj1 Hinv) as Hr. unfold range_inv in Hr.
  destruct (mem s3 (state_seq tr)) eqn:E3.
  - destruct (Ht eq_refl) as (hi & Hhi & Hge).
    rewrite Hhi in Hrange, Hr.
    destruct (rep_min_angle tr) as [lo|]; [|contradiction].
    destruct (mem s2 (next_state_seq st (state_seq tr))).
    + destruct Hrange as (_ & Hmax). exists (Z.max hi (hip_vertical fr)).
      split; [exact Hmax|lia].
    + destruct Hrange as (_ & Hmax). exists hi. rewrite Hmax. auto.
  - assert (Hnew : st = Some s3 /\ mem s2 (state_seq tr) = true).
    { unfold next_state_seq in Hm3.
      destruct st as [[| |]|]; try congruence.
      - destruct (_ || _) in Hm3; [|congruence].
        unfold mem in Hm3, E3. rewrite existsb_app, E3 in Hm3. discriminate Hm3.
      - rewrite E3 in Hm3. cbn [negb andb] in Hm3.
        destruct (mem s2 (state_seq tr)); [auto|congruence]. }
    destruct Hnew as (E & Hm2).
    rewrite (mem_next_state_seq s2 st _ Hm2) in Hrange.
    pose proof (get_state_in_band th (180 - hip_angle fr)) as Hband.
    fold st in Hband. rewrite E in Hband. apply in_band_bounds in Hband.
    fold (hip_vertical fr) in Hband.
    destruct (rep_min_angle tr) as [lo|], (rep_max_angle tr) as [hi|]; try contradiction;
      destruct Hrange as (_ & Hmax); eexists; (split; [exact Hmax|lia]).
Qed.

Lemma run_keeps_top (th : Thresholds) (frames : list Frame) (tr : Tracker) :
  rep_open_inv tr ->
  top_inv th tr ->
  exists tr' sounds,
    run th tr frames = Some (tr', sounds) /\ rep_open_inv tr' /\ top_inv th tr'.
Proof.
  revert tr. induction frames as [|fr frames IH]; intros tr Hinv Ht; cbn [run].
  - exists tr, []. auto.
  - destruct (call_keeps_top th tr fr Hinv Ht) as (tr1 & ps & Hcall & Hinv1 & Ht1).
    rewrite Hcall.
    destruct (IH tr1 Hinv1 Ht1) as (tr' & sounds & Hrun & Hinv' & Ht').
    rewrite Hrun. exists tr', (ps :: sounds). auto.
Qed.

(** X9.  The range check never rejects a full sequence.  For thresholds
    whose [REP_MIN_RANGE] is at most the distance from the top of the
    NORMAL band to the bottom of the PASS band, as in both leg-raise
    profiles: at any point of any run from a new session, when [state_seq]
    is [['s2', 's3', 's2']] and a frame classified ['s1'] arrives, the
    tracked range reaches [REP_MIN_RANGE]; so the rep is counted as soon as
    the hold is latched, no form error is latched, the previous frame was
    not in ['s3'] and the watchdog does not fire. *)
Theorem range_check_implied :
  (forall (th : Thresholds) (t0 t1 : Z) (frames : list Frame) (tr : Tracker)
          (sounds : list (option Sound)) (d : Frame),
     REP_MIN_RANGE th
     <= fst (PASS (HIP_KNEE_VERT th)) - snd (NORMAL (HIP_KNEE_VERT th)) ->
     run th (init_tracker t0 t1) frames = Some (tr, sounds) ->
     classified th d (Some s1) ->
     state_seq tr = [s2; s3; s2] ->
     REP_MIN_RANGE th <= rep_range tr (hip_vertical d)
     /\ (s3_hold_ok tr = true -> INCORRECT_POSTURE tr = false ->
         prev_state tr <> Some s3 -> stalls th tr d (Some s1) = false ->
         exists tr',
           call th tr d = Some (tr', Some (count_str (CORRECT_COUNT tr + 1)))))
  /\ (let th := get_thresholds_leg_raises_beginner in
      REP_MIN_RANGE th
      <= fst (PASS (HIP_KNEE_VERT th)) - snd (NORMAL (HIP_KNEE_VERT th)))
  /\ (let th := get_thresholds_leg_raises_pro in
      REP_MIN_RANGE th
      <= fst (PASS (HIP_KNEE_VERT th)) - snd (NORMAL (HIP_KNEE_VERT th))).
Proof.
  split; [|split; cbn; lia].
  intros th t0 t1 frames tr sounds d Hmargin Hrun Hd Hseq.
  destruct (init_invs th t0 t1) as (Hinv0 & _).
  assert (Ht0 : top_inv th (init_tracker t0 t1)) by (intros F; discriminate F).
  destruct (run_keeps_top th frames (init_tracker t0 t1) Hinv0 Ht0)
    as (tr0 & sounds0 & Hrun0 & Hinv & Ht).
  rewrite Hrun in Hrun0. inversion Hrun0; subst tr0 sounds0. clear Hrun0.
  assert (Hrange : REP_MIN_RANGE th <= rep_range tr (hip_vertical d)).
  { unfold top_inv in Ht. rewrite Hseq in Ht.
    destruct (Ht eq_refl) as (hi & Hhi & Hge).
    pose proof (proj1 Hinv) as Hr. unfold range_inv in Hr. unfold rep_range.
    rewrite Hhi in *.
    destruct (rep_min_angle tr) as [lo|]; [|contradiction].
    destruct Hd as (_ & _ & Hst).
    pose proof (get_state_in_band th (180 - hip_angle d)) as Hband.
    rewrite Hst in Hband. apply in_band_bounds in Hband.
    fold (hip_vertical d) in Hband. lia. }
  split; [exact Hrange|].
  intros Hh Hpo Hprev Hq.
  assert (Hyes : counts_as_rep th tr d = true).
  { apply counts_as_rep_spec. auto. }
  destruct (call_s1 th tr d Hd (proj1 Hinv)) as (tr' & Hcall & _).
  rewrite Hq, Hyes in Hcall. cbn [by_priority] in Hcall.
  exists tr'. exact Hcall.
Qed.

(** Under the beginner profile: raise, top, 5 s at the top, lower; the
    next resting frame is counted. *)
Lemma range_check_implied_witness :
  let th := get_thresholds_leg_raises_beginner in
  let tr := {| state_seq := [s2; s3; s2];
               prev_state := Some s2;
               curr_state := Some s2;
               s3_enter_time := None;
               s3_hold_ok := true;
               rep_min_angle := Some 30;
               rep_max_angle := Some 70;
               start_inactive_time := 5500;
               INACTIVE_TIME := 0;
               start_inactive_time_front := 5500;
               INACTIVE_TIME_FRONT := 0;
               DISPLAY_TEXT := mkArr4 false false true false;
               COUNT_FRAMES := mkArr4 0 0 4 0;
               INCORRECT_POSTURE := false;
               CORRECT_COUNT := 0;
               INCORRECT_COUNT := 0 |} in
  REP_MIN_RANGE th <= rep_range tr (hip_vertical (frame_at 5 5600))
  /\ exists tr', call th tr (frame_at 5 5600) = Some (tr', Some (count_str (0 + 1))).
Proof.
  cbv zeta.
  destruct (proj1 range_check_implied get_thresholds_leg_raises_beginner 0 0
              [frame_at 30 200; frame_at 70 300; frame_at 70 5300; frame_at 30 5500]
              {| state_seq := [s2; s3; s2];
                 prev_state := Some s2;
                 curr_state := Some s2;
                 s3_enter_time := None;
                 s3_hold_ok := true;
                 rep_min_angle := Some 30;
                 rep_max_angle := Some 70;
                 start_inactive_time := 5500;
                 INACTIVE_TIME := 0;
                 start_inactive_time_front := 5500;
                 INACTIVE_TIME_FRONT := 0;
                 DISPLAY_TEXT := mkArr4 false false true false;
                 COUNT_FRAMES := mkArr4 0 0 4 0;
                 INCORRECT_POSTURE := false;
                 CORRECT_COUNT := 0;
                 INCORRECT_COUNT := 0 |}
              [None; None; None; None] (frame_at 5 5600)) as (Hrange & Hcount).
  - cbn. lia.
  - vm_compute. reflexivity.
  - repeat split; cbn; lia.
  - reflexivity.
  - split; [exact Hrange|].
    apply Hcount; [reflexivity|reflexivity|discriminate|reflexivity].
Defined.

(** X10.  The bands of the leg-raise profiles.  When the three bands
    follow one another without a gap, as in both leg-raise profiles,
    [_get_state] gives ['s1'], ['s2'], ['s3'] exactly on the NORMAL, TRANS
    and PASS band and [None] exactly below the first and above the last:
    under either profile an angle is unclassified exactly when it is below
    0 or above 95. *)
Theorem bands_partition :
  (forall (th : Thresholds) (a : Z),
     contiguous (HIP_KNEE_VERT th) = true ->
     let band := HIP_KNEE_VERT th in
     (_get_state th a = Some s1 <-> fst (NORMAL band) <= a <= snd (NORMAL band))
     /\ (_get_state th a = Some s2 <-> fst (TRANS band) <= a <= snd (TRANS band))
     /\ (_get_state th a = Some s3 <-> fst (PASS band) <= a <= snd (PASS band))
     /\ (_get_state th a = None <-> a < fst (NORMAL band) \/ snd (PASS band) < a))
  /\ contiguous (HIP_KNEE_VERT get_thresholds_leg_raises_beginner) = true
  /\ contiguous (HIP_KNEE_VERT get_thresholds_leg_raises_pro) = true
  /\ (forall a, _get_state get_thresholds_leg_raises_beginner a = None <-> a < 0 \/ 95 < a)
  /\ (forall a, _get_state get_thresholds_leg_raises_pro a = None <-> a < 0 \/ 95 < a).
Proof.
  assert (Hgen : forall (th : Thresholds) (a : Z),
             contiguous (HIP_KNEE_VERT th) = true ->
             let band := HIP_KNEE_VERT th in
             (_get_state th a = Some s1 <-> fst (NORMAL band) <= a <= snd (NORMAL band))
             /\ (_get_state th a = Some s2 <-> fst (TRANS band) <= a <= snd (TRANS band))
             /\ (_get_state th a = Some s3 <-> fst (PASS band) <= a <= snd (PASS band))
             /\ (_get_state th a = None <-> a < fst (NORMAL band) \/ snd (PASS band) < a)).
  { intros th a Hc band. subst band.
    unfold contiguous in Hc.
    rewrite !andb_true_iff, !Z.leb_le, !Z.eqb_eq in Hc.
    destruct Hc as ((((H1 & H2) & H3) & H4) & H5).
    unfold _get_state, in_band. cbv zeta.
    destruct (Z.leb_spec (fst (NORMAL (HIP_KNEE_VERT th))) a);
      destruct (Z.leb_spec a (snd (NORMAL (HIP_KNEE_VERT th))));
      destruct (Z.leb_spec (fst (TRANS (HIP_KNEE_VERT th))) a);
      destruct (Z.leb_spec a (snd (TRANS (HIP_KNEE_VERT th))));
      destruct (Z.leb_spec (fst (PASS (HIP_KNEE_VERT th))) a);
      destruct (Z.leb_spec a (snd (PASS (HIP_KNEE_VERT th))));
      cbn [andb]; try lia;
      (split; [|split; [|split]]); split; intros Hx;
      first [reflexivity | discriminate Hx | lia]. }
  split; [exact Hgen|].
  split; [reflexivity|]. split; [reflexivity|].
  split; intros a.
  - apply (Hgen get_thresholds_leg_raises_beginner a eq_refl).
  - apply (Hgen get_thresholds_leg_raises_pro a eq_refl).
Qed.

(** The beginner profile at 61 degrees, the first angle of the PASS
    band. *)
Lemma bands_partition_witness :
  _get_state get_thresholds_leg_raises_beginner 61 = Some s3 <-> 61 <= 61 <= 95.
Proof.
  apply (proj1 bands_partition get_thresholds_leg_raises_beginner 61 eq_refl).
Defined.

(** *** The triage dialogue *)

Lemma prefix_spec (a s : string) :
  prefix a s = true <-> exists r, s = (a ++ r)%string.
Proof.
  revert s. induction a as [|c a IH]; intros s.
  - split; [intros _; exists s; reflexivity|destruct s; reflexivity].
  - destruct s as [|d s].
    + split; [discriminate|intros (r & F); discriminate F].
    + cbn [prefix append]. destruct (ascii_dec c d) as [->|Hne].
      * rewrite IH. split; intros (r & E); exists r; [rewrite E; reflexivity|].
        injection E as E. exact E.
      * split; [discriminate|]. intros (r & E). injection E as E1 E2. congruence.
Qed.

Lemma append_assoc_str (a b c : string) : ((a ++ b) ++ c = a ++ (b ++ c))%string.
Proof. induction a as [|x a IH]; cbn; [reflexivity|rewrite IH; reflexivity]. Qed.

Lemma contains_spec (x t : string) :
  contains x t = true <-> exists l r, t = (l ++ x ++ r)%string.
Proof.
  induction t as [|c t IH]; cbn [contains]; rewrite orb_true_iff, prefix_spec.
  - split.
    + intros [(r & E)|F]; [exists EmptyString, r; exact E|discriminate F].
    + intros (l & r & E). left. destruct l; [exists r; exact E|discriminate E].
  - rewrite IH. split.
    + intros [(r & E)|(l & r & E)].
      * exists EmptyString, r. exact E.
      * exists (String c l), r. rewrite E. reflexivity.
    + intros (l & r & E). destruct l as [|d l].
      * left. exists r. exact E.
      * right. injection E as _ E. exists l, r. exact E.
Qed.

(** A text that occurs in a text that occurs in [t] occurs in [t]. *)
Lemma contains_trans (a b t : string) :
  contains a b = true -> contains b t = true -> contains a t = true.
Proof.
  rewrite !contains_spec. intros (l1 & r1 & E1) (l2 & r2 & E2).
  exists (l2 ++ l1)%string, (r1 ++ r2)%string. rewrite E2, E1.
  rewrite !append_assoc_str. reflexivity.
Qed.

Lemma first_prefix_some (alts : list string) (t m : string) :
  first_prefix alts t = Some m -> In m alts /\ prefix m t = true.
Proof.
  induction alts as [|a alts IH]; cbn; [discriminate|].
  destruct (prefix a t) eqn:E.
  - intros H. injection H as <-. auto.
  - intros H. destruct (IH H). auto.
Qed.

Lemma re_search_some (alts : list string) (t m : string) :
  re_search alts t = Some m -> In m alts /\ contains m t = true.
Proof.
  induction t as [|c t IH]; cbn [re_search contains].
  - destruct (first_prefix alts EmptyString) eqn:E; [|discriminate].
    intros H. injection H as <-. apply first_prefix_some in E.
    destruct E as (Hin & Hp). rewrite Hp. auto.
  - destruct (first_prefix alts (String c t)) eqn:E.
    + intros H. injection H as <-. apply first_prefix_some in E.
      destruct E as (Hin & Hp). rewrite Hp. auto.
    + intros H. destruct (IH H) as (Hin & Hc). rewrite Hc, orb_true_r. auto.
Qed.

Lemma any_in_false (xs : list string) (t x : string) :
  any_in xs t = false -> In x xs -> contains x t = false.
Proof.
  unfold any_in. intros H Hin.
  destruct (contains x t) eqn:E; [|reflexivity].
  assert (F : existsb (fun y => contains y t) xs = true)
    by (apply existsb_exists; exists x; auto).
  congruence.
Qed.

Lemma back_inside (x t : string) :
  In x ["lower back"; "low back"; "lower-back"; "upper back"; "upper-back"; "back"]%string ->
  contains x t = true -> contains "back" t = true.
Proof.
  intros Hin Hc. apply (contains_trans _ x); [|exact Hc].
  cbn in Hin.
  repeat (destruct Hin as [<-|Hin]; [reflexivity|]). contradiction.
Qed.

Lemma any_in_known (t : string) :
  any_in KNOWN_AREAS t = false
  <-> find (fun area => contains area t) KNOWN_AREAS = None.
Proof.
  unfold any_in. split.
  - intros H. destruct (find _ KNOWN_AREAS) as [a|] eqn:E; [|reflexivity].
    apply find_some in E.
    assert (F : existsb (fun x => contains x t) KNOWN_AREAS = true)
      by (apply existsb_exists; exists a; exact E).
    congruence.
  - intros H.
    destruct (existsb (fun x => contains x t) KNOWN_AREAS) eqn:E; [|reflexivity].
    apply existsb_exists in E. destruct E as (x & Hin & Hc).
    rewrite (find_none _ _ H x Hin) in Hc. discriminate Hc.
Qed.

(** The five ways [normalize_pain_area] returns. *)
Lemma normalize_cases (text : string) :
  let t := lower text in
  let r := normalize_pain_area text in
  (any_in ["lower back"; "low back"; "lower-back"]%string t = true
   /\ contains "back" t = true /\ r = "lower back"%string)
  \/ (any_in ["lower back"; "low back"; "lower-back"]%string t = false
      /\ contains "back" t = true /\ r = "upper back"%string)
  \/ (any_in ["lower back"; "low back"; "lower-back"]%string t = false
      /\ contains "back" t = true /\ r = "back"%string)
  \/ (any_in ["lower back"; "low back"; "lower-back"]%string t = false
      /\ contains "back" t = false
      /\ find (fun area => contains area t) KNOWN_AREAS = Some r
      /\ In r ["shoulder"; "knee"; "neck"; "hip"; "ankle"; "elbow"; "wrist"; "hamstring";
               "quad"; "calf"; "glute"; "groin"]%string)
  \/ (any_in ["lower back"; "low back"; "lower-back"]%string t = false
      /\ contains "back" t = false
      /\ find (fun area => contains area t) KNOWN_AREAS = None
      /\ r = EmptyString).
Proof.
  intros t r. subst r. unfold normalize_pain_area. fold t.
  destruct (any_in ["lower back"; "low back"; "lower-back"]%string t) eqn:E1.
  { left. split; [reflexivity|]. split; [|reflexivity].
    unfold any_in in E1. apply existsb_exists in E1. destruct E1 as (x & Hin & Hc).
    apply (back_inside x); [|exact Hc]. cbn in Hin. cbn. tauto. }
  right.
  destruct (contains "upper back" t || contains "upper-back" t) eqn:E2.
  { left. split; [reflexivity|]. split; [|reflexivity].
    apply orb_true_iff in E2. destruct E2 as [E2|E2].
    - apply (back_inside "upper back"); [cbn; tauto|exact E2].
    - apply (back_inside "upper-back"); [cbn; tauto|exact E2]. }
  right.
  destruct (contains "back" t) eqn:E3.
  { left. auto. }
  right.
  assert (Hnb : forall x,
             In x ["lower back"; "low back"; "upper back"; "back"]%string ->
             contains x t = false).
  { intros x Hin. destruct (contains x t) eqn:E; [|reflexivity].
    rewrite (back_inside x t) in E3; [discriminate E3| |exact E].
    cbn in Hin. cbn. tauto. }
  destruct (find (fun area => contains area t) KNOWN_AREAS) as [area|] eqn:E4.
  - left. split; [reflexivity|]. split; [reflexivity|]. split; [reflexivity|].
    apply find_some in E4. destruct E4 as (Hin & Hc).
    unfold KNOWN_AREAS in Hin. cbn [In] in Hin.
    destruct Hin as [<-|[<-|[<-|[<-|Hin]]]];
      try (rewrite Hnb in Hc; [discriminate Hc|cbn; tauto]).
    cbn [In]. tauto.
  - right. split; [reflexivity|]. split; [reflexivity|]. split; [reflexivity|].
    destruct (re_search _ t) as [m|] eqn:E5; [|reflexivity].
    apply re_search_some in E5. destruct E5 as (Hin & Hc).
    rewrite (find_none _ _ E4 m) in Hc; [discriminate Hc|].
    unfold KNOWN_AREAS. cbn [In] in *. tauto.
Qed.

(** X13.  The pain area.  On a text of code points below 256,
    [normalize_pain_area] returns one of fifteen area names or the empty
    text, never "low back".  It returns the empty text exactly when no
    entry of [KNOWN_AREAS] occurs in the lowered text, and "lower back"
    exactly when one of "lower back", "low back", "lower-back" occurs; a
    text in which "back" occurs gives "lower back", "upper back" or "back",
    whatever other areas it names.  The regular expression of the last
    step never matches when it is reached. *)
Theorem normalize_pain_area_spec (text : string) :
  let t := lower text in
  let r := normalize_pain_area text in
  In r ["lower back"; "upper back"; "back"; "shoulder"; "knee"; "neck"; "hip"; "ankle";
        "elbow"; "wrist"; "hamstring"; "quad"; "calf"; "glute"; "groin"; EmptyString]%string
  /\ (r = EmptyString <-> any_in KNOWN_AREAS t = false)
  /\ (r = "lower back"%string
      <-> any_in ["lower back"; "low back"; "lower-back"]%string t = true)
  /\ (contains "back" t = true ->
      r = "lower back"%string \/ r = "upper back"%string \/ r = "back"%string)
  /\ (find (fun area => contains area t) KNOWN_AREAS = None ->
      re_search ["lower back"; "upper back"; "back"; "shoulder"; "knee"; "neck"; "hip";
                 "ankle"; "elbow"; "wrist"; "hamstring"; "quad"; "calf"; "glute";
                 "groin"]%string t = None).
Proof.
  intros t r.
  assert (Hback : contains "back" t = true -> any_in KNOWN_AREAS t = true).
  { intros Hb. unfold any_in. apply existsb_exists. exists "back"%string.
    split; [cbn; tauto|exact Hb]. }
  assert (Hdead : find (fun area => contains area t) KNOWN_AREAS = None ->
                  re_search ["lower back"; "upper back"; "back"; "shoulder"; "knee"; "neck";
                             "hip"; "ankle"; "elbow"; "wrist"; "hamstring"; "quad"; "calf";
                             "glute"; "groin"]%string t = None).
  { intros E4. destruct (re_search _ t) as [m|] eqn:E5; [|reflexivity].
    apply re_search_some in E5. destruct E5 as (Hin & Hc).
    rewrite (find_none _ _ E4 m) in Hc; [discriminate Hc|].
    unfold KNOWN_AREAS. cbn [In] in *. tauto. }
  destruct (normalize_cases text)
    as [(E1 & Hb & Hr)|[(E1 & Hb & Hr)|[(E1 & Hb & Hr)|[(E1 & Hb & Hf & Hin)|(E1 & Hb & Hf & Hr)]]]];
    fold t in E1, Hb; fold r in Hr || fold t r in Hf, Hin.
  - rewrite Hr. split; [cbn; tauto|]. rewrite (Hback Hb), E1.
    split; [split; discriminate|]. split; [tauto|]. split; [tauto|exact Hdead].
  - rewrite Hr. split; [cbn; tauto|]. rewrite (Hback Hb), E1.
    split; [split; discriminate|]. split; [split; discriminate|].
    split; [tauto|exact Hdead].
  - rewrite Hr. split; [cbn; tauto|]. rewrite (Hback Hb), E1.
    split; [split; discriminate|]. split; [split; discriminate|].
    split; [tauto|exact Hdead].
  - assert (Hk : any_in KNOWN_AREAS t = true).
    { destruct (any_in KNOWN_AREAS t) eqn:E; [reflexivity|].
      apply any_in_known in E. congruence. }
    rewrite Hk, E1, Hb.
    split; [cbn [In] in *; tauto|].
    split.
    { split; [|discriminate]. intros E. rewrite E in Hin. cbn [In] in Hin.
      repeat (destruct Hin as [F|Hin]; [discriminate F|]). contradiction. }
    split.
    { split; [|discriminate]. intros E. rewrite E in Hin. cbn [In] in Hin.
      repeat (destruct Hin as [F|Hin]; [discriminate F|]). contradiction. }
    split; [discriminate|exact Hdead].
  - fold t r in Hf. fold r in Hr. rewrite Hr, E1, Hb.
    rewrite (proj2 (any_in_known t) Hf).
    split; [cbn; tauto|]. split; [tauto|].
    split; [split; discriminate|]. split; [discriminate|exact Hdead].
Qed.

(** X14.  Lower-back triage, as the dialogue runs it.  For texts of code
    points below 256 and a non-empty stripped input.  Step 1: when "lower
    back", "low back" or "lower-back" occurs in the lowered input, Send
    sets the pain area "lower back" and moves to step 2; when the input
    names the back only, Send asks for the region, and the answer is read
    by two substring tests: "lower" gives "lower back", else "upper" gives
    "upper back" (so does "upper and low back"), else the question is
    repeated once and then "lower back" is assumed.  Step 2, the pain area
    being "lower back": Send on a history in which a strength trigger
    occurs sets the mode "strength" and the exercise Squat, and Go to
    Analyzer opens the squat analyzer, whatever stretch triggers occur too
    and whatever the language model would answer; a history with a stretch
    trigger and no strength trigger gives "stretch", Leg Raises and the
    leg-raise analyzer.  The explicit chooser sets the mode and moves to
    step 3 without naming an exercise: with the exercise name still empty,
    Go to Analyzer opens the squat analyzer, for "stretch" too. *)
Theorem lower_back_triage (ai choice : string) (reply : option (string * string))
    (c : string) (input : string) (s : Session) :
  is_empty (strip input) = false ->
  let user := strip input in
  let heard := set_raw_pain_text user s in
  (awaiting_back_region s = false ->
   (any_in ["lower back"; "low back"; "lower-back"]%string (lower user) = true ->
    send_pain ai input s = set_step 2 (set_pain_area "lower back" heard))
   /\ (normalize_pain_area user = "back"%string ->
       send_pain ai input s = set_awaiting_back_region true heard))
  /\ (awaiting_back_region s = true ->
      let region area := set_step 2 (set_awaiting_back_region false (set_pain_area area heard)) in
      (contains "lower" (lower user) = true ->
       send_pain ai input s = region "lower back"%string)
      /\ (contains "lower" (lower user) = false ->
          contains "upper" (lower user) = true ->
          send_pain ai input s = region "upper back"%string)
      /\ (contains "lower" (lower user) = false ->
          contains "upper" (lower user) = false ->
          send_pain ai input s
          = if asked_clarify_pain s then region "lower back"%string
            else set_asked_clarify_pain true heard))
  /\ (pain_area s = "lower back"%string ->
      (any_in strength_triggers (lower user) = true ->
       exists s',
         send_stage choice reply input s = Some s'
         /\ step s' = 3
         /\ mode s' = "strength"%string
         /\ exercise_name s' = "Squat"%string
         /\ go_to_analyzer s' = Live_Stream)
      /\ (any_in strength_triggers (lower user) = false ->
          any_in stretch_triggers (lower user) = true ->
          exists s',
            send_stage choice reply input s = Some s'
            /\ step s' = 3
            /\ mode s' = "stretch"%string
            /\ exercise_name s' = "Leg Raises"%string
            /\ go_to_analyzer s' = Leg_Raises_Live))
  /\ (let s' := confirm_stage (Some c) s in
      step s' = 3
      /\ mode s' = (if contains "stretch" (lower c) then "stretch" else "strength")%string
      /\ pain_area s' = pain_area s
      /\ exercise_name s' = exercise_name s
      /\ (exercise_name s = EmptyString -> go_to_analyzer s' = Live_Stream)).
Proof.
  intros Hne user heard. change (is_empty user = false) in Hne.
  split; [|split; [|split]].
  - intros Haw. split.
    + intros Hlb. unfold send_pain. fold user. rewrite Hne. cbv zeta. fold heard.
      replace (awaiting_back_region heard) with (awaiting_back_region s) by reflexivity.
      rewrite Haw.
      assert (Hp : normalize_pain_area user = "lower back"%string).
      { unfold normalize_pain_area. rewrite Hlb. reflexivity. }
      rewrite Hp. reflexivity.
    + intros Hb. unfold send_pain. fold user. rewrite Hne. cbv zeta. fold heard.
      replace (awaiting_back_region heard) with (awaiting_back_region s) by reflexivity.
      rewrite Haw, Hb. reflexivity.
  - intros Haw region.
    assert (Hstep : send_pain ai input s
                    = if contains "lower" (lower user) then region "lower back"%string
                      else if contains "upper" (lower user) then region "upper back"%string
                      else if negb (asked_clarify_pain s)
                           then set_asked_clarify_pain true heard
                           else region "lower back"%string).
    { unfold send_pain. fold user. rewrite Hne. cbv zeta. fold heard.
      replace (awaiting_back_region heard) with (awaiting_back_region s) by reflexivity.
      rewrite Haw. reflexivity. }
    rewrite Hstep. split; [|split].
    + intros Hl. rewrite Hl. reflexivity.
    + intros Hl Hu. rewrite Hl, Hu. reflexivity.
    + intros Hl Hu. rewrite Hl, Hu. destruct (asked_clarify_pain s); reflexivity.
  - intros Hpain. split.
    + intros Hs.
      assert (Hm : classify_mode user = "strength"%string).
      { unfold classify_mode. rewrite Hs. reflexivity. }
      unfold send_stage. fold user. rewrite Hne. cbv zeta. rewrite Hm.
      cbn [is_empty]. unfold recommend.
      replace (pain_area (set_mode "strength" (set_history user s))) with (pain_area s)
        by reflexivity.
      rewrite Hpain. eexists. split; [reflexivity|].
      repeat split; reflexivity.
    + intros Hs Ht.
      assert (Hm : classify_mode user = "stretch"%string).
      { unfold classify_mode. rewrite Hs, Ht. reflexivity. }
      unfold send_stage. fold user. rewrite Hne. cbv zeta. rewrite Hm.
      cbn [is_empty]. unfold recommend.
      replace (pain_area (set_mode "stretch" (set_history user s))) with (pain_area s)
        by reflexivity.
      rewrite Hpain. eexists. split; [reflexivity|].
      repeat split; reflexivity.
  - cbv zeta. repeat split.
    intros He. unfold go_to_analyzer. cbn [confirm_stage exercise_name set_step
      set_awaiting_stage_choice set_mode]. rewrite He. reflexivity.
Qed.

(** A new session: "My back hurts", then "the lower part", then "just
    started physio, still sore". *)
Lemma lower_back_triage_witness :
  let s1 := send_pain EmptyString "My back hurts" defaults in
  let s2 := send_pain EmptyString "the lower part" s1 in
  awaiting_back_region s1 = true
  /\ step s2 = 2
  /\ pain_area s2 = "lower back"%string
  /\ exists s3,
       send_stage EmptyString None "just started physio, still sore" s2 = Some s3
       /\ exercise_name s3 = "Leg Raises"%string
       /\ go_to_analyzer s3 = Leg_Raises_Live.
Proof.
  cbv zeta.
  split; [vm_compute; reflexivity|].
  split; [vm_compute; reflexivity|].
  split; [vm_compute; reflexivity|].
  destruct (lower_back_triage EmptyString EmptyString None "stretch"
              "just started physio, still sore"
              (send_pain EmptyString "the lower part"
                 (send_pain EmptyString "My back hurts" defaults)))
    as (_ & _ & Hstage & _).
  - vm_compute. reflexivity.
  - destruct Hstage as (_ & Hstretch).
    + vm_compute. reflexivity.
    + destruct Hstretch as (s3 & Hsend & _ & _ & Hex & Hpage).
      * vm_compute. reflexivity.
      * vm_compute. reflexivity.
      * exists s3. split; [exact Hsend|]. split; [exact Hex|exact Hpage].
Defined.

(** X15.  The analyzer opened.  For an exercise name of code points below
    256, the button Go to Analyzer opens the leg-raise analyzer exactly
    when "leg" and "raise" occur in the stripped, lowered exercise name and
    "squat" does not; it opens the squat analyzer otherwise.  When the
    request to the language model fails or its reply holds no exercise,
    for a mode that is "stretch" or "strength" the exercise comes from the
    fallback table, and the leg-raise analyzer is opened exactly for the
    area "hip" with the mode "stretch"; any other mode raises
    [KeyError]. *)
Theorem analyzer_routing :
  (forall exercise_name : string,
     let exercise := lower (strip exercise_name) in
     (analyzer_page exercise_name = Leg_Raises_Live
      <-> contains "leg" exercise = true /\ contains "raise" exercise = true
          /\ contains "squat" exercise = false)
     /\ (analyzer_page exercise_name = Live_Stream
         <-> ~ (contains "leg" exercise = true /\ contains "raise" exercise = true
                /\ contains "squat" exercise = false)))
  /\ (forall (reply : option (string * string)) (pain_area mode : string),
        reply = None \/ (exists why, reply = Some (EmptyString, why)) ->
        mode = "stretch"%string \/ mode = "strength"%string ->
        exists exercise why,
          gemini_pick_exercise reply pain_area mode = Some (exercise, why)
          /\ (analyzer_page exercise = Leg_Raises_Live
              <-> pain_area = "hip"%string /\ mode = "stretch"%string))
  /\ (forall (reply : option (string * string)) (pain_area mode : string),
        reply = None \/ (exists why, reply = Some (EmptyString, why)) ->
        mode <> "stretch"%string -> mode <> "strength"%string ->
        gemini_pick_exercise reply pain_area mode = None).
Proof.
  assert (Hfb : forall reply pain mode,
             reply = None \/ (exists why, reply = Some (EmptyString, why)) ->
             gemini_pick_exercise reply pain mode = gemini_pick_exercise None pain mode).
  { intros reply pain mode [-> | (why & ->)]; reflexivity. }
  split; [|split].
  - intros name exercise. unfold analyzer_page. fold exercise.
    destruct (contains "squat" exercise), (contains "leg" exercise),
      (contains "raise" exercise); cbn [andb orb];
      repeat match goal with
             | |- context [if ?b then _ else _] => destruct b
             end;
      split; split; intro H;
      first [ reflexivity
            | discriminate H
            | repeat split; reflexivity
            | exfalso; apply H; repeat split; reflexivity
            | destruct H as (H1 & H2 & H3);
              first [discriminate H1 | discriminate H2 | discriminate H3]
            | intros (H1 & H2 & H3);
              first [discriminate H1 | discriminate H2 | discriminate H3] ].
  - intros reply pain mode Hno Hmode. rewrite (Hfb reply pain mode Hno).
    unfold gemini_pick_exercise, dict_get. cbn [find fst snd option_map].
    destruct (String.eqb_spec "upper back" pain) as [<-|N1].
    { destruct Hmode as [-> | ->]; do 2 eexists; (split; [reflexivity|]);
        split; try discriminate; intros (F & _); discriminate F. }
    destruct (String.eqb_spec "shoulder" pain) as [<-|N2].
    { destruct Hmode as [-> | ->]; do 2 eexists; (split; [reflexivity|]);
        split; try discriminate; intros (F & _); discriminate F. }
    destruct (String.eqb_spec "knee" pain) as [<-|N3].
    { destruct Hmode as [-> | ->]; do 2 eexists; (split; [reflexivity|]);
        split; try discriminate; intros (F & _); discriminate F. }
    destruct (String.eqb_spec "neck" pain) as [<-|N4].
    { destruct Hmode as [-> | ->]; do 2 eexists; (split; [reflexivity|]);
        split; try discriminate; intros (F & _); discriminate F. }
    destruct (String.eqb_spec "hip" pain) as [<-|N5].
    { destruct Hmode as [-> | ->]; do 2 eexists; (split; [reflexivity|]).
      - split; [auto|reflexivity].
      - split; [discriminate|intros (_ & F); discriminate F]. }
    destruct Hmode as [-> | ->]; do 2 eexists; (split; [reflexivity|]);
      split; try discriminate; intros (F & _); congruence.
  - intros reply pain mode Hno N1 N2. rewrite (Hfb reply pain mode Hno).
    assert (Hbank : forall bank,
               bank = [("stretch", "Squat"); ("strength", "Squat")]%string
               \/ bank = [("stretch", "Leg Raises"); ("strength", "Squat")]%string ->
               dict_get bank mode = None).
    { intros bank [-> | ->]; unfold dict_get; cbn [find fst];
        destruct (String.eqb_spec "stretch" mode); try congruence;
        destruct (String.eqb_spec "strength" mode); try congruence; reflexivity. }
    unfold gemini_pick_exercise.
    cbv zeta.
    match goal with
    | |- match dict_get ?b mode with Some _ => _ | None => _ end = None =>
        rewrite (Hbank b); [reflexivity|]
    end.
    unfold dict_get. cbn [find fst snd option_map].
    repeat match goal with
           | |- context [(?a =? pain)%string] => destruct (a =? pain)%string
           end; cbn [option_map snd]; auto.
Qed.

(** The fallback for hip pain in the stretching stage. *)
Lemma analyzer_routing_witness :
  exists exercise why,
    gemini_pick_exercise None "hip" "stretch" = Some (exercise, why)
    /\ (analyzer_page exercise = Leg_Raises_Live
        <-> "hip"%string = "hip"%string /\ "stretch"%string = "stretch"%string).
Proof.
  apply (proj1 (proj2 analyzer_routing) None "hip"%string "stretch"%string).
  - left. reflexivity.
  - left. reflexivity.
Defined.

(** *** Resting frames *)

(** Frames classified ['s1'] while [state_seq] is empty: unless the
    side-view watchdog resets the session on one of them, each returns
    'incorrect' and adds one to [INCORRECT_COUNT]. *)
Lemma resting_run (th : Thresholds) (frames : list Frame) (tr : Tracker) :
  Forall (fun fr => classified th fr (Some s1)) frames ->
  range_inv tr ->
  state_seq tr = [] ->
  exists tr' sounds,
    run th tr frames = Some (tr', sounds)
    /\ state_seq tr' = []
    /\ (~ In (Some reset_counters) sounds ->
        sounds = repeat (Some incorrect) (length frames)
        /\ CORRECT_COUNT tr' = CORRECT_COUNT tr
        /\ INCORRECT_COUNT tr' = INCORRECT_COUNT tr + Z.of_nat (length frames)).
Proof.
  revert tr. induction frames as [|fr frames IH]; intros tr Hall Hr Hs.
  - exists tr, []. cbn. repeat split; auto. lia.
  - inversion Hall as [|? ? Hfr Hrest]; subst.
    destruct (call_s1 th tr fr Hfr Hr) as (tr1 & Hcall & Hrest1 & _ & Hquiet).
    assert (Hno : counts_as_rep th tr fr = false).
    { unfold counts_as_rep. rewrite Hs. reflexivity. }
    rewrite Hno in Hcall, Hquiet.
    destruct Hrest1 as (Hprev1 & Hclr1).
    assert (Hs1 : state_seq tr1 = []) by apply Hclr1.
    destruct (IH tr1 Hrest (cleared_range_inv tr1 Hclr1) Hs1)
      as (tr' & sounds & Hrun & Hs' & Hcount).
    cbn [run]. rewrite Hcall, Hrun.
    do 2 eexists. split; [reflexivity|]. split; [exact Hs'|].
    intros Hnot.
    destruct (stalls th tr fr (Some s1)) eqn:Hq; cbn [by_priority] in Hnot.
    { exfalso. apply Hnot. left. reflexivity. }
    destruct (Hquiet eq_refl) as ((Hc & Hi) & _).
    destruct Hcount as (Hsounds & Hc' & Hi').
    { intros F. apply Hnot. right. exact F. }
    cbn [by_priority length repeat]. rewrite Hsounds.
    split; [reflexivity|]. split; [congruence|]. rewrite Hi', Hi. lia.
Qed.

(** C5.  Every frame classified ['s1'] runs the rep resolution, and the
    resolution moves exactly one counter, by one: there is no resolution
    that leaves both alone, and on a resting frame (empty [state_seq]) it
    moves [INCORRECT_COUNT].  The call ends with these counters and the
    resolution's sound unless the side-view watchdog fires on the same
    frame, that is unless the previous frame was classified ['s1'] too and
    the accumulated time in that state has reached [INACTIVE_THRESH]: then
    the hard reset zeroes both counters and the call returns
    'reset_counters'.  Either way the call leaves the tracker at rest,
    [state_seq] empty.  So over consecutive resting frames each frame
    returns 'incorrect' and adds one to [INCORRECT_COUNT], up to the frame
    on which the watchdog fires. *)
Theorem resting_frame_counts (th : Thresholds) (tr : Tracker) (fr : Frame) :
  classified th fr (Some s1) ->
  range_inv tr ->
  let clk := perf_counter_at fr in
  let fires := stalls th tr fr (Some s1) in
  (fires = opt_State_eqb (Some s1) (prev_state tr)
           && (INACTIVE_THRESH th
               <=? INACTIVE_TIME tr + (clk 1%nat - start_inactive_time tr)))
  /\ (exists ps1 n1 tr1 tr',
        classify th (Some s1) (180 - hip_angle fr) (Z.max 0 (180 - knee_internal fr))
          (torso_tilt fr) clk 1%nat
          (set_start_inactive_time_front (clk 0%nat) (set_INACTIVE_TIME_FRONT 0 tr))
        = Returns ps1 n1 tr1
        /\ ((ps1 = Some (count_str (CORRECT_COUNT tr + 1))
             /\ CORRECT_COUNT tr1 = CORRECT_COUNT tr + 1
             /\ INCORRECT_COUNT tr1 = INCORRECT_COUNT tr)
            \/ (ps1 = Some incorrect
                /\ CORRECT_COUNT tr1 = CORRECT_COUNT tr
                /\ INCORRECT_COUNT tr1 = INCORRECT_COUNT tr + 1))
        /\ (state_seq tr = [] ->
            ps1 = Some incorrect
            /\ CORRECT_COUNT tr1 = CORRECT_COUNT tr
            /\ INCORRECT_COUNT tr1 = INCORRECT_COUNT tr + 1)
        /\ call th tr fr = Some (tr', by_priority fires ps1)
        /\ at_rest tr'
        /\ (fires = false ->
            CORRECT_COUNT tr' = CORRECT_COUNT tr1
            /\ INCORRECT_COUNT tr' = INCORRECT_COUNT tr1)
        /\ (fires = true ->
            CORRECT_COUNT tr' = 0 /\ INCORRECT_COUNT tr' = 0))
  /\ (forall frames : list Frame,
        Forall (fun f => classified th f (Some s1)) frames ->
        state_seq tr = [] ->
        exists tr' sounds,
          run th tr (fr :: frames) = Some (tr', sounds)
          /\ (~ In (Some reset_counters) sounds ->
              sounds = repeat (Some incorrect) (S (length frames))
              /\ CORRECT_COUNT tr' = CORRECT_COUNT tr
              /\ INCORRECT_COUNT tr' = INCORRECT_COUNT tr + Z.of_nat (S (length frames)))).
Proof.
  intros Hfr Hr clk fires.
  split; [reflexivity|]. split.
  - destruct (call_aligned th tr fr (Some s1) Hfr Hr)
      as (ps1 & tr1 & tr' & Hcl & Hcall & _ & _ & Hfire & Hquiet).
    destruct (call_s1 th tr fr Hfr Hr) as (tr2 & Hcall2 & Hrest2 & _).
    assert (E : tr2 = tr') by (rewrite Hcall in Hcall2; inversion Hcall2; auto).
    subst tr2. clear Hcall2.
    unfold front_reset in Hcl. fold clk in Hcl.
    set (tr_a := set_start_inactive_time_front (clk 0%nat) (set_INACTIVE_TIME_FRONT 0 tr))
      in *.
    assert (Hra : range_inv tr_a) by (destruct tr; exact Hr).
    destruct (classify_s1 th (180 - hip_angle fr) (Z.max 0 (180 - knee_internal fr))
                (torso_tilt fr) clk 1%nat tr_a Hra)
      as (tr0 & Hcl0 & Hseq0 & _ & _ & _ & _ & Hc0 & Hi0 & _).
    destruct (resolve_rep_returns th clk 1%nat tr0)
      as (ps0 & tr1' & Hres & _ & _ & _ & Hok & Hko).
    assert (E : ps0 = ps1 /\ tr1' = tr1).
    { rewrite Hcl0, Hres in Hcl. inversion Hcl; auto. }
    destruct E as [-> ->].
    assert (Hc : CORRECT_COUNT tr0 = CORRECT_COUNT tr)
      by (rewrite Hc0; destruct tr; reflexivity).
    assert (Hi : INCORRECT_COUNT tr0 = INCORRECT_COUNT tr)
      by (rewrite Hi0; destruct tr; reflexivity).
    assert (Hseq : state_seq tr0 = state_seq tr)
      by (rewrite Hseq0; destruct tr; reflexivity).
    rewrite Hc, Hi in Hok, Hko.
    exists ps1, (hold_reads (Some s1) + 1)%nat, tr1, tr'.
    split; [exact Hcl|]. split.
    { destruct (full_rep_dec th (at_verdict tr0)) as [Hf|Hf]; [left|right]; auto. }
    split.
    { intros He. apply Hko. intros Hf.
      apply full_rep_at_verdict_seq in Hf. congruence. }
    split; [exact Hcall|]. split; [exact Hrest2|].
    split.
    + intros Hq. destruct (Hquiet Hq) as (Hcar & _).
      split; apply Hcar.
    + intros Hq. destruct (Hfire Hq) as (_ & Hc' & Hi' & _). auto.
  - intros frames Hall Hs.
    destruct (resting_run th (fr :: frames) tr (Forall_cons fr Hfr Hall) Hr Hs)
      as (tr' & sounds & Hrun & _ & Hcount).
    exists tr', sounds. split; [exact Hrun|exact Hcount].
Qed.

(** Three resting frames in a row, one second apart, in a new session
    under the beginner profile: each returns 'incorrect', and
    [INCORRECT_COUNT] ends at 3. *)
Lemma resting_frame_counts_witness :
  exists tr' sounds,
    run get_thresholds_leg_raises_beginner (init_tracker 0 0)
      [frame_at 5 1000; frame_at 5 2000; frame_at 5 3000] = Some (tr', sounds)
    /\ sounds = [Some incorrect; Some incorrect; Some incorrect]
    /\ CORRECT_COUNT tr' = 0
    /\ INCORRECT_COUNT tr' = 3.
Proof.
  destruct (resting_frame_counts get_thresholds_leg_raises_beginner (init_tracker 0 0)
              (frame_at 5 1000))
    as (_ & _ & Hrun).
  - repeat split; cbn; lia.
  - exact I.
  - destruct (Hrun [frame_at 5 2000; frame_at 5 3000]) as (tr' & sounds & Hr & Hcount).
    + repeat constructor; cbn; lia.
    + reflexivity.
    + exists tr', sounds. split; [exact Hr|].
      apply Hcount.
      vm_compute in Hr. inversion Hr. cbn.
      intros [F|[F|[F|[]]]]; discriminate F.
Defined.

(** C5, as stated, fails on the resting frame on which the side-view
    watchdog fires: in a new session under the beginner profile, resting
    frames at 0, 5, 10 and 16 s are all classified ['s1']; the first three
    count one incorrect rep each, the fourth returns 'reset_counters' and
    leaves both counters at 0, neither of them one higher than before. *)
Lemma resting_frame_resets :
  let th := get_thresholds_leg_raises_beginner in
  Forall (fun fr => classified th fr (Some s1))
    [frame_at 5 0; frame_at 5 5000; frame_at 5 10000; frame_at 5 16000]
  /\ exists tr3 tr4,
       run th (init_tracker 0 0) [frame_at 5 0; frame_at 5 5000; frame_at 5 10000]
       = Some (tr3, [Some incorrect; Some incorrect; Some incorrect])
       /\ CORRECT_COUNT tr3 = 0
       /\ INCORRECT_COUNT tr3 = 3
       /\ call th tr3 (frame_at 5 16000) = Some (tr4, Some reset_counters)
       /\ CORRECT_COUNT tr4 = 0
       /\ INCORRECT_COUNT tr4 = 0.
Proof.
  cbv zeta. split.
  - repeat constructor; cbn; lia.
  - do 2 eexists. split; [vm_compute; reflexivity|].
    split; [reflexivity|]. split; [reflexivity|].
    split; [vm_compute; reflexivity|]. split; reflexivity.
Qed.

(** *** The state sequence, from the updater to the resolution *)

Lemma update_all_returns (states : list (option State)) (clk : nat -> Z) (n : nat)
    (tr : Tracker) :
  update_all states clk n tr
  = Returns tt n (set_state_seq (feed states (state_seq tr)) tr).
Proof.
  revert tr. induction states as [|st states IH]; intros tr; cbn [update_all feed fold_left].
  - destruct tr; reflexivity.
  - unfold bind, _update_state_sequence, modify. rewrite IH.
    destruct tr; reflexivity.
Qed.

(** A frame that is not classified ['s2'], on a tracker whose [state_seq]
    is empty, leaves it empty, and the call returns no count. *)
Lemma call_without_s2 (th : Thresholds) (tr : Tracker) (fr : Frame) :
  rep_open_inv tr ->
  state_seq tr = [] ->
  ~ classified th fr (Some s2) ->
  exists tr' ps,
    call th tr fr = Some (tr', ps)
    /\ rep_open_inv tr'
    /\ state_seq tr' = []
    /\ is_count ps = false.
Proof.
  intros Hinv Hs Hno.
  destruct (call_keeps_range th tr fr Hinv) as (tr1 & ps & Hcall & Hinv1).
  exists tr1, ps. split; [exact Hcall|]. split; [exact Hinv1|].
  destruct (pose_landmarks fr) eqn:Hp.
  2:{ rewrite (call_no_landmarks th tr fr Hp) in Hcall.
      destruct (INACTIVE_THRESH th <=? idle_since tr fr);
        inversion Hcall; subst tr1 ps; clear Hcall; split; try reflexivity.
      destruct tr; exact Hs. }
  destruct (OFFSET_THRESH th <? offset_angle fr) eqn:Ho.
  { apply Z.ltb_lt in Ho. rewrite (call_not_aligned th tr fr Hp Ho) in Hcall.
    cbv zeta in Hcall.
    destruct (INACTIVE_THRESH th <=? _);
      inversion Hcall; subst tr1 ps; clear Hcall; split; try reflexivity.
    destruct tr; exact Hs. }
  apply Z.ltb_ge in Ho.
  set (st := _get_state th (180 - hip_angle fr)).
  assert (Hc : classified th fr st) by (repeat split; auto).
  assert (Hd : st = Some s1 \/ st <> Some s1).
  { destruct st as [[| |]|]; auto; right; discriminate. }
  destruct Hd as [Hd|Hd].
  - rewrite Hd in Hc.
    destruct (call_s1 th tr fr Hc (proj1 Hinv)) as (tr2 & Hcall2 & (_ & Hclr) & _).
    assert (Hnc : counts_as_rep th tr fr = false).
    { unfold counts_as_rep. rewrite Hs. reflexivity. }
    rewrite Hnc, Hcall in Hcall2. inversion Hcall2; subst tr2 ps.
    split; [apply Hclr|]. destruct (stalls th tr fr (Some s1)); reflexivity.
  - destruct (stalls th tr fr st) eqn:Hq.
    + destruct (call_aligned th tr fr st Hc (proj1 Hinv))
        as (ps1 & t1 & tr2 & _ & Hcall2 & _ & _ & Hfire & _).
      rewrite Hq, Hcall in Hcall2. inversion Hcall2; subst tr2 ps.
      split; [apply (Hfire Hq)|reflexivity].
    + destruct (call_moving th tr fr st Hc Hd (proj1 Hinv) Hq)
        as (tr2 & Hcall2 & _ & Hs2 & _).
      rewrite Hcall in Hcall2. inversion Hcall2; subst tr2 ps.
      split; [|reflexivity]. rewrite Hs2, Hs.
      destruct st as [[| |]|]; try reflexivity.
      exfalso. apply Hno. exact Hc.
Qed.

Lemma run_without_s2 (th : Thresholds) (frames : list Frame) (tr : Tracker) :
  Forall (fun fr => ~ classified th fr (Some s2)) frames ->
  rep_open_inv tr ->
  state_seq tr = [] ->
  exists tr' sounds,
    run th tr frames = Some (tr', sounds)
    /\ rep_open_inv tr'
    /\ state_seq tr' = []
    /\ Forall (fun ps => is_count ps = false) sounds.
Proof.
  revert tr. induction frames as [|fr frames IH]; intros tr Hall Hinv Hs; cbn [run].
  - exists tr, []. auto.
  - inversion Hall as [|? ? Hfr Hrest]; subst.
    destruct (call_without_s2 th tr fr Hinv Hs Hfr) as (tr1 & ps & Hcall & Hinv1 & Hs1 & Hps).
    destruct (IH tr1 Hrest Hinv1 Hs1) as (tr' & sounds & Hrun & Hinv' & Hs' & Hsounds).
    rewrite Hcall, Hrun. exists tr', (ps :: sounds). auto.
Qed.

(** C3.  The state sequence.  Whatever classified states have gone through
    [_update_state_sequence] since [state_seq] was empty, the updater has
    written [state_seq] only, and [state_seq] is a prefix of
    [['s2','s3','s2']].  One more call of the updater appends ['s2'] iff
    the state is ['s2'] and the sequence has no ['s3'] and no ['s2'], or
    exactly one ['s3'] and exactly one ['s2']; it appends ['s3'] iff the
    state is ['s3'] and the sequence has no ['s3'] and at least one
    ['s2']; otherwise it leaves the sequence as it is.  If no ['s2'] has
    been fed, the sequence is still empty, however many ['s3'] were.

    [process] feeds the updater: a call on an aligned frame outside
    ['s1'] on which no watchdog fires leaves the [state_seq] that the
    updater makes of the frame's state, and along every run from a new
    session [state_seq] is a prefix of [['s2','s3','s2']] at every frame
    boundary.  Frames of which none is classified ['s2'], from a tracker
    whose [state_seq] is empty, leave it empty, whether they are at the
    top, at rest, unclassified, misaligned or without landmarks, and no
    call among them returns a count; the next frame classified ['s1']
    then resolves as incorrect, adding one to [INCORRECT_COUNT], unless
    the watchdog fires on it. *)
Theorem state_sequence_legality (states : list (option State)) (clk : nat -> Z)
    (n : nat) (tr : Tracker) :
  state_seq tr = [] ->
  (exists tr1,
     update_all states clk n tr = Returns tt n tr1
     /\ tr1 = set_state_seq (state_seq tr1) tr
     /\ legal_seq (state_seq tr1)
     /\ (~ In (Some s2) states -> state_seq tr1 = [])
     /\ forall st : option State,
        exists tr2,
          let seq := state_seq tr1 in
          _update_state_sequence st clk n tr1 = Returns tt n tr2
          /\ tr2 = set_state_seq (state_seq tr2) tr1
          /\ (state_seq tr2 = seq ++ [s2]
              <-> st = Some s2
                  /\ ((mem s3 seq = false /\ count s2 seq = 0%nat)
                      \/ (count s3 seq = 1%nat /\ count s2 seq = 1%nat)))
          /\ (state_seq tr2 = seq ++ [s3]
              <-> st = Some s3 /\ mem s3 seq = false /\ (1 <= count s2 seq)%nat)
          /\ (state_seq tr2 = seq ++ [s2] \/ state_seq tr2 = seq ++ [s3]
              \/ state_seq tr2 = seq))
  /\ (forall (th : Thresholds) (t : Tracker) (fr : Frame) (st : option State),
        classified th fr st ->
        st <> Some s1 ->
        range_inv t ->
        stalls th t fr st = false ->
        exists t' t_u,
          call th t fr = Some (t', None)
          /\ _update_state_sequence st (perf_counter_at fr) 0%nat t = Returns tt 0%nat t_u
          /\ state_seq t' = state_seq t_u)
  /\ (forall (th : Thresholds) (t0 t1 : Z) (frames : list Frame),
      exists t sounds,
        run th (init_tracker t0 t1) frames = Some (t, sounds)
        /\ legal_seq (state_seq t))
  /\ (forall (th : Thresholds) (t : Tracker) (frames : list Frame) (d : Frame),
        rep_open_inv t ->
        state_seq t = [] ->
        Forall (fun fr => ~ classified th fr (Some s2)) frames ->
        classified th d (Some s1) ->
        exists t1 sounds t2,
          run th t frames = Some (t1, sounds)
          /\ state_seq t1 = []
          /\ Forall (fun ps => is_count ps = false) sounds
          /\ call th t1 d
             = Some (t2, by_priority (stalls th t1 d (Some s1)) (Some incorrect))
          /\ (stalls th t1 d (Some s1) = false ->
              CORRECT_COUNT t2 = CORRECT_COUNT t1
              /\ INCORRECT_COUNT t2 = INCORRECT_COUNT t1 + 1)).
Proof.
  intros Hs.
  split; [|split; [|split]].
  - exists (set_state_seq (feed states (state_seq tr)) tr).
    split; [apply update_all_returns|].
    split; [destruct tr; reflexivity|].
    replace (state_seq (set_state_seq (feed states (state_seq tr)) tr))
      with (feed states []) by (rewrite Hs; destruct tr; reflexivity).
    assert (Hl : legal_seq (feed states [])).
    { apply feed_legal. exists [s2; s3; s2]. reflexivity. }
    split; [exact Hl|].
    split; [apply feed_without_s2|].
    intros st.
    set (tr1 := set_state_seq (feed states (state_seq tr)) tr).
    assert (Hseq1 : state_seq tr1 = feed states []).
    { unfold tr1. rewrite Hs. destruct tr; reflexivity. }
    exists (set_state_seq (next_state_seq st (state_seq tr1)) tr1).
    cbv zeta.
    split; [reflexivity|].
    split; [destruct tr1; reflexivity|].
    replace (state_seq (set_state_seq (next_state_seq st (state_seq tr1)) tr1))
      with (next_state_seq st (state_seq tr1)) by (destruct tr1; reflexivity).
    rewrite Hseq1. clear tr1 Hseq1.
    apply legal_seq_cases in Hl.
    destruct Hl as [H|[H|[H|H]]]; rewrite H; destruct st as [[| |]|]; cbn;
      (split; [|split]);
      try (split; intros F; try discriminate F;
           first [ destruct F as (F & _); discriminate F
                 | destruct F as (_ & [(F & _)|(F & _)]); discriminate F
                 | destruct F as (_ & [(_ & F)|(_ & F)]); discriminate F
                 | destruct F as (_ & F & _); discriminate F
                 | destruct F as (_ & _ & F); lia
                 | repeat split; auto; lia ]);
      auto.
  - intros th t fr st Hc Hst Hr Hq.
    destruct (call_moving th t fr st Hc Hst Hr Hq) as (t' & Hcall & _ & Hseq & _).
    exists t', (set_state_seq (next_state_seq st (state_seq t)) t).
    split; [exact Hcall|]. split; [reflexivity|].
    rewrite Hseq. destruct t; reflexivity.
  - intros th t0 t1 frames.
    destruct (run_keeps_legal th frames (init_tracker t0 t1)) as (t & sounds & Hrun & _ & H).
    + split; [exact I|]. intros _. reflexivity.
    + exists [s2; s3; s2]. reflexivity.
    + exists t, sounds. auto.
  - intros th t frames d Hinv Hst Hall Hd.
    destruct (run_without_s2 th frames t Hall Hinv Hst)
      as (t1 & sounds & Hrun & Hinv1 & Hs1 & Hsounds).
    destruct (call_s1 th t1 d Hd (proj1 Hinv1)) as (t2 & Hcall & _ & _ & Hquiet).
    assert (Hnc : counts_as_rep th t1 d = false).
    { unfold counts_as_rep. rewrite Hs1. reflexivity. }
    rewrite Hnc in Hcall, Hquiet.
    exists t1, sounds, t2.
    split; [exact Hrun|]. split; [exact Hs1|]. split; [exact Hsounds|].
    split; [exact Hcall|].
    intros Hq. apply (Hquiet Hq).
Qed.

(** Three states ['s3'] fed to the updater of a new session leave
    [state_seq] empty; two frames at the top before any frame in the
    transition band, then a frame at rest: the rest resolves as
    incorrect. *)
Lemma state_sequence_legality_witness :
  (exists tr1,
     update_all [Some s3; Some s3; Some s3] (fun _ => 0) 0%nat (init_tracker 0 0)
     = Returns tt 0%nat tr1
     /\ state_seq tr1 = [])
  /\ exists t1 sounds t2,
       run get_thresholds_leg_raises_beginner (init_tracker 0 0)
         [frame_at 70 0; frame_at 70 100] = Some (t1, sounds)
       /\ call get_thresholds_leg_raises_beginner t1 (frame_at 5 200)
          = Some (t2, Some incorrect)
       /\ INCORRECT_COUNT t2 = 1.
Proof.
  destruct (state_sequence_legality [Some s3; Some s3; Some s3] (fun _ => 0) 0%nat
              (init_tracker 0 0))
    as ((tr1 & Hu & _ & _ & Hempty & _) & _ & _ & Hrest).
  - reflexivity.
  - split.
    + exists tr1. split; [exact Hu|]. apply Hempty.
      cbn. intros [F|[F|[F|[]]]]; discriminate F.
    + destruct (Hrest get_thresholds_leg_raises_beginner (init_tracker 0 0)
                  [frame_at 70 0; frame_at 70 100] (frame_at 5 200))
        as (t1 & sounds & t2 & Hrun & _ & _ & Hcall & Hcount).
      * split; [exact I|]. intros _. reflexivity.
      * reflexivity.
      * repeat constructor; intros (_ & _ & F); discriminate F.
      * repeat split; cbn; lia.
      * exists t1, sounds, t2. split; [exact Hrun|].
        pose proof Hrun as Hrun'. vm_compute in Hrun'.
        inversion Hrun'; subst t1 sounds.
        split; [exact Hcall|].
        rewrite (proj2 (Hcount eq_refl)). reflexivity.
Defined.

(** C3, as stated, fails in its last clause: a run that reaches ['s3']
    before any ['s2'] is not condemned to an incorrect rep.  In a new
    session under the beginner profile the first frame is at the top: it
    is classified ['s3'] with no ['s2'] recorded, and nothing is
    appended.  A frame in the transition band and a second frame at the
    top follow, and now ['s3'] is appended; with the top held for 5.1 s
    and the leg lowered, the frame at rest returns the count 1. *)
Lemma top_first_still_counted :
  let th := get_thresholds_leg_raises_beginner in
  classified th (frame_at 70 0) (Some s3)
  /\ exists tr1 tr3 tr6,
       call th (init_tracker 0 0) (frame_at 70 0) = Some (tr1, None)
       /\ state_seq tr1 = []
       /\ run th tr1 [frame_at 30 100; frame_at 70 200] = Some (tr3, [None; None])
       /\ state_seq tr3 = [s2; s3]
       /\ run th tr3 [frame_at 70 5300; frame_at 30 5400; frame_at 5 5500]
          = Some (tr6, [None; None; Some (count_str 1)])
       /\ CORRECT_COUNT tr6 = 1
       /\ INCORRECT_COUNT tr6 = 0.
Proof.
  cbv zeta. split.
  - repeat split; cbn; lia.
  - do 3 eexists. split; [vm_compute; reflexivity|].
    split; [reflexivity|]. split; [vm_compute; reflexivity|].
    split; [reflexivity|]. split; [vm_compute; reflexivity|].
    split; reflexivity.
Qed.

(** *** Banner lifetimes over any frames *)

(** What a call does to one banner: it clears flag and counter, or leaves
    the counter as it is (the flag then being clear if the frame reaches
    the sweep), or counts one more frame for a flag that is set when the
    call ends. *)
Lemma call_counter (th : Thresholds) (tr : Tracker) (fr : Frame) :
  rep_open_inv tr ->
  exists tr' ps,
    call th tr fr = Some (tr', ps)
    /\ rep_open_inv tr'
    /\ forall j,
         (get4 j (DISPLAY_TEXT tr') = false /\ get4 j (COUNT_FRAMES tr') = 0)
         \/ (get4 j (COUNT_FRAMES tr') = get4 j (COUNT_FRAMES tr)
             /\ get4 j (DISPLAY_TEXT tr')
                = negb (reaches_sweep th fr) && get4 j (DISPLAY_TEXT tr))
         \/ (reaches_sweep th fr = true
             /\ get4 j (DISPLAY_TEXT tr') = true
             /\ get4 j (COUNT_FRAMES tr') = get4 j (COUNT_FRAMES tr) + 1
             /\ get4 j (COUNT_FRAMES tr') <= CNT_FRAME_THRESH th).
Proof.
  intros Hinv.
  destruct (call_keeps_range th tr fr Hinv) as (tr' & ps & Hcall & Hinv').
  exists tr', ps. split; [exact Hcall|]. split; [exact Hinv'|].
  intros j. unfold reaches_sweep.
  destruct (pose_landmarks fr) eqn:Hp.
  2:{ rewrite (call_no_landmarks th tr fr Hp) in Hcall.
      destruct (INACTIVE_THRESH th <=? idle_since tr fr);
        inversion Hcall; subst tr' ps; clear Hcall.
      - left. destruct j; split; reflexivity.
      - right. left. destruct tr. cbn. auto. }
  destruct (OFFSET_THRESH th <? offset_angle fr) eqn:Ho.
  { assert (Ho' : (offset_angle fr <=? OFFSET_THRESH th) = false).
    { apply Z.leb_gt. apply Z.ltb_lt in Ho. exact Ho. }
    rewrite Ho'.
    apply Z.ltb_lt in Ho. rewrite (call_not_aligned th tr fr Hp Ho) in Hcall.
    cbv zeta in Hcall.
    destruct (INACTIVE_THRESH th <=? _);
      inversion Hcall; subst tr' ps; clear Hcall.
    - left. destruct j; split; reflexivity.
    - right. left. destruct tr. cbn. auto. }
  apply Z.ltb_ge in Ho.
  assert (Ho' : (offset_angle fr <=? OFFSET_THRESH th) = true) by (apply Z.leb_le; exact Ho).
  rewrite Ho'. cbn [andb negb].
  destruct (call_aligned th tr fr (_get_state th (180 - hip_angle fr)))
    as (ps1 & tr1 & tr'' & Hcl & Hcall' & _ & _ & Hfire & Hquiet).
  { repeat split; assumption. }
  { apply Hinv. }
  rewrite Hcall in Hcall'. inversion Hcall'; subst tr'' ps. clear Hcall'.
  pose proof (classify_banner th (_get_state th (180 - hip_angle fr)) (180 - hip_angle fr)
                (Z.max 0 (180 - knee_internal fr)) (torso_tilt fr) (perf_counter_at fr)
                1%nat (front_reset fr tr) j) as Hb.
  rewrite Hcl in Hb.
  replace (COUNT_FRAMES (front_reset fr tr)) with (COUNT_FRAMES tr) in Hb
    by (destruct tr; reflexivity).
  destruct (stalls th tr fr (_get_state th (180 - hip_angle fr))).
  - destruct (Hfire eq_refl) as ((_ & Hd & Hn & _) & _).
    left. rewrite Hd, Hn. destruct j; split; reflexivity.
  - destruct (Hquiet eq_refl) as (_ & _ & _ & Hd & Hn).
    rewrite Hd, Hn. unfold swept_flag, swept_count. cbv zeta.
    destruct Hb as [Hb|(Hb1 & Hb2)].
    + rewrite Hb.
      destruct (get4 j (DISPLAY_TEXT tr1));
        destruct (CNT_FRAME_THRESH th <? _) eqn:E;
        try apply Z.ltb_ge in E; auto 10.
    + rewrite Hb1, Hb2. left.
      destruct (CNT_FRAME_THRESH th <? 0); auto.
Qed.

(** The counters stay where [int64] addition is exact. *)
Lemma run_counters_in_range (th : Thresholds) (frames : list Frame) (tr : Tracker) :
  CNT_FRAME_THRESH th < INT64_MAX ->
  rep_open_inv tr ->
  (forall j, 0 <= get4 j (COUNT_FRAMES tr) < INT64_MAX) ->
  exists tr' sounds,
    run th tr frames = Some (tr', sounds)
    /\ rep_open_inv tr'
    /\ forall j, 0 <= get4 j (COUNT_FRAMES tr') < INT64_MAX.
Proof.
  intros Httl. revert tr. induction frames as [|fr frames IH]; intros tr Hinv Hc; cbn [run].
  - exists tr, []. auto.
  - destruct (call_counter th tr fr Hinv) as (tr1 & ps & Hcall & Hinv1 & Hj).
    assert (Hc1 : forall j, 0 <= get4 j (COUNT_FRAMES tr1) < INT64_MAX).
    { intros j. specialize (Hc j).
      destruct (Hj j) as [(_ & E)|[(E & _)|(_ & _ & E & Hle)]].
      - rewrite E. unfold INT64_MAX. lia.
      - rewrite E. exact Hc.
      - lia. }
    destruct (IH tr1 Hinv1 Hc1) as (tr' & sounds & Hrun & Hinv' & Hc').
    rewrite Hcall, Hrun. exists tr', (ps :: sounds). auto.
Qed.

(** A flag that is set at the end of every call of a run has been counted
    once for each frame that reached the sweep. *)
Lemma active_sweeps (th : Thresholds) (i : Idx4) (frames : list Frame) (tr : Tracker)
    (c : Z) :
  rep_open_inv tr ->
  0 <= c <= get4 i (COUNT_FRAMES tr) ->
  active_throughout th i tr frames = true ->
  sweeps th frames = 0%nat \/ c + Z.of_nat (sweeps th frames) <= CNT_FRAME_THRESH th.
Proof.
  revert tr c. induction frames as [|fr frames IH]; intros tr c Hinv Hc Hact.
  - left. reflexivity.
  - cbn [active_throughout] in Hact.
    destruct (call_counter th tr fr Hinv) as (tr' & ps & Hcall & Hinv' & Hj).
    rewrite Hcall in Hact.
    apply andb_prop in Hact. destruct Hact as [Hflag Hact].
    unfold sweeps. cbn [filter].
    destruct (Hj i) as [(F & _)|[(E & Hf)|(Hsw & _ & E & Hle)]].
    + congruence.
    + destruct (reaches_sweep th fr).
      { rewrite Hflag in Hf. discriminate Hf. }
      apply (IH tr' c Hinv'); [rewrite E; exact Hc|exact Hact].
    + rewrite Hsw. cbn [length]. right.
      destruct (IH tr' (c + 1) Hinv' ltac:(lia) Hact) as [He|Hlen].
      * unfold sweeps in He. rewrite He. cbn. lia.
      * unfold sweeps in Hlen. lia.
Qed.

(** C7, as the code has it.  The sweep at the end of a call that reaches
    it counts one more frame for every set flag and clears flag and
    counter once the count exceeds [CNT_FRAME_THRESH].  A call that
    returns early (no landmarks, or the camera misaligned) does not reach
    the sweep: it leaves every flag and counter as it is, unless its
    inactivity accumulator reaches [INACTIVE_THRESH], when the hard reset
    clears them all and the call returns 'reset_counters'.  So, over any
    frames, a banner flag that is set at the end of every call has seen at
    most [CNT_FRAME_THRESH] frames reach the sweep, whether or not its
    trigger still holds, the early returns in between not counting.

    The counters are [int64]: the statement is for a [CNT_FRAME_THRESH]
    below [INT64_MAX] and counters from 0 to below [INT64_MAX], as they
    are in a new session; every counter then stays in that range along the
    run, where the [+= 1] of the sweep is exact. *)
Theorem banner_lifetime (th : Thresholds) (i : Idx4) (tr : Tracker)
    (frames : list Frame) :
  0 <= CNT_FRAME_THRESH th < INT64_MAX ->
  rep_open_inv tr ->
  (forall j, 0 <= get4 j (COUNT_FRAMES tr) < INT64_MAX) ->
  (forall clk n tr0,
     (forall j, 0 <= get4 j (COUNT_FRAMES tr0) < INT64_MAX) ->
     exists tr1,
       banner_ttl th clk n tr0 = Returns tt n tr1
       /\ forall j,
            let c := if get4 j (DISPLAY_TEXT tr0)
                     then get4 j (COUNT_FRAMES tr0) + 1
                     else get4 j (COUNT_FRAMES tr0) in
            0 <= c <= INT64_MAX
            /\ (CNT_FRAME_THRESH th < c ->
                get4 j (DISPLAY_TEXT tr1) = false /\ get4 j (COUNT_FRAMES tr1) = 0)
            /\ (c <= CNT_FRAME_THRESH th ->
                get4 j (DISPLAY_TEXT tr1) = get4 j (DISPLAY_TEXT tr0)
                /\ get4 j (COUNT_FRAMES tr1) = c))
  /\ (forall fr,
        gated th fr ->
        exists tr' ps,
          call th tr fr = Some (tr', ps)
          /\ ((ps = Some reset_counters
               /\ DISPLAY_TEXT tr' = full4 false /\ COUNT_FRAMES tr' = full4 0)
              \/ (ps = None
                  /\ DISPLAY_TEXT tr' = DISPLAY_TEXT tr
                  /\ COUNT_FRAMES tr' = COUNT_FRAMES tr)))
  /\ (exists tr' sounds,
        run th tr frames = Some (tr', sounds)
        /\ forall j, 0 <= get4 j (COUNT_FRAMES tr') < INT64_MAX)
  /\ (active_throughout th i tr frames = true ->
      Z.of_nat (sweeps th frames) <= CNT_FRAME_THRESH th).
Proof.
  intros Httl Hinv Hc. split; [|split; [|split]].
  - intros clk n tr0 Hc0.
    destruct (banner_ttl_returns th clk n tr0) as (tr1 & Hb & Hd & Hn & _).
    exists tr1. split; [exact Hb|].
    intros j. cbv zeta. rewrite Hd, Hn. unfold swept_flag, swept_count. cbv zeta.
    split.
    { specialize (Hc0 j). destruct (get4 j (DISPLAY_TEXT tr0)); lia. }
    split; intros H.
    + apply Z.ltb_lt in H. rewrite H. auto.
    + apply Z.ltb_ge in H. rewrite H. auto.
  - intros fr [Hp|(Hp & Ho)].
    + rewrite (call_no_landmarks th tr fr Hp).
      destruct (INACTIVE_THRESH th <=? idle_since tr fr);
        (do 2 eexists; split; [reflexivity|]).
      * left. repeat split; reflexivity.
      * right. destruct tr. cbn. auto.
    + rewrite (call_not_aligned th tr fr Hp Ho). cbv zeta.
      destruct (INACTIVE_THRESH th <=? _);
        (do 2 eexists; split; [reflexivity|]).
      * left. repeat split; reflexivity.
      * right. destruct tr. cbn. auto.
  - destruct (run_counters_in_range th frames tr (proj2 Httl) Hinv Hc)
      as (tr' & sounds & Hrun & _ & Hc').
    exists tr', sounds. auto.
  - intros Hact.
    destruct (active_sweeps th i frames tr 0 Hinv) as [He|Hlen].
    + specialize (Hc i). lia.
    + exact Hact.
    + rewrite He. cbn. lia.
    + lia.
Qed.

(** Under the beginner profile RAISE HIGHER stays on over three frames in
    the transition band with a misaligned frame and a frame without
    landmarks in between: three frames reach the sweep, within the
    lifetime of 50. *)
Lemma banner_lifetime_witness :
  active_throughout get_thresholds_leg_raises_beginner I2 (init_tracker 0 0)
    [frame_at 30 0; misaligned_at 100; frame_at 31 200;
     mkFrame false 0 0 0 0 (fun _ => 300); frame_at 32 400] = true
  /\ Z.of_nat (sweeps get_thresholds_leg_raises_beginner
                 [frame_at 30 0; misaligned_at 100; frame_at 31 200;
                  mkFrame false 0 0 0 0 (fun _ => 300); frame_at 32 400])
     <= CNT_FRAME_THRESH get_thresholds_leg_raises_beginner.
Proof.
  split; [vm_compute; reflexivity|].
  apply (banner_lifetime get_thresholds_leg_raises_beginner I2 (init_tracker 0 0)
           [frame_at 30 0; misaligned_at 100; frame_at 31 200;
            mkFrame false 0 0 0 0 (fun _ => 300); frame_at 32 400]).
  - unfold INT64_MAX. cbn. lia.
  - split; [exact I|]. intros _. reflexivity.
  - intros []; unfold INT64_MAX; cbn; lia.
  - vm_compute. reflexivity.
Defined.

(** C7, as stated, fails: RAISE HIGHER is raised by a frame in the
    transition band; the next 51 frames are misaligned, with the leg at
    rest, and the flag is still set after each of them, 51 being more than
    [CNT_FRAME_THRESH] = 50. *)
Lemma banner_outlives_threshold :
  exists tr sounds,
    run get_thresholds_leg_raises_beginner (init_tracker 0 0)
      [frame_at 5 0; frame_at 30 100] = Some (tr, sounds)
    /\ get4 I2 (DISPLAY_TEXT tr) = true
    /\ active_throughout get_thresholds_leg_raises_beginner I2 tr
         (repeat (misaligned_at 200) 51) = true
    /\ CNT_FRAME_THRESH get_thresholds_leg_raises_beginner
       < Z.of_nat (length (repeat (misaligned_at 200) 51)).
Proof.
  do 2 eexists. split; [vm_compute; reflexivity|].
  split; [reflexivity|]. split; [vm_compute; reflexivity|].
  cbn. lia.
Qed.
